(** * OriON daily job: repository synchronisation, job pipeline, publishing

    A shallow embedding of [run_orion_daily.py] and [ops/git_ops.py].

    The program is a sequence of filesystem operations and external
    commands ([git], [papermill]) started through [run_cmd].  The embedding
    keeps that shape:

    - Python strings are [string]s read as sequences of code points below
      256, with the [str] methods the program calls written out;
    - a [pathlib.Path] is the list of its components from the root;
    - the filesystem is a tree whose directories are finite maps from names
      to nodes;
    - every external command is answered by an oracle of the environment
      [Ext], so that each theorem holds whatever [git] and the notebooks do;
      the environment also says which directories share a filesystem (a
      rename works within one only) and what a removal cannot delete;
    - functions that touch the world are state-passing functions on [World],
      returning [Val] or the exception they raise ([Exn]). *)

From Stdlib Require Import ZArith Ascii.
From stdpp Require Import base option strings list gmap pretty sorting.

Local Open Scope Z_scope.

(** ** Python strings *)

Module Py.

(** [str.isspace] on one code point below 256. *)
Definition isspace (c : ascii) : bool :=
  let n := N_of_ascii c in
  ((9 <=? n) && (n <=? 13) || (28 <=? n) && (n <=? 32)
   || (n =? 133) || (n =? 160))%N.

(** [s.startswith(p)] *)
Fixpoint startswith (p s : string) : bool :=
  match p, s with
  | EmptyString, _ => true
  | String a p', String b s' => if decide (a = b) then startswith p' s' else false
  | String _ _, EmptyString => false
  end.

(** [s[n:]] *)
Fixpoint drop (n : nat) (s : string) : string :=
  match n, s with
  | O, _ => s
  | S n', String _ s' => drop n' s'
  | S _, EmptyString => EmptyString
  end.

(** [s[:n]] *)
Fixpoint take (n : nat) (s : string) : string :=
  match n, s with
  | O, _ => EmptyString
  | S n', String a s' => String a (take n' s')
  | S _, EmptyString => EmptyString
  end.

(** [s.endswith(p)] *)
Definition endswith (p s : string) : bool :=
  startswith (String.rev p) (String.rev s).

Fixpoint lstrip_by (f : ascii → bool) (s : string) : string :=
  match s with
  | String a s' => if f a then lstrip_by f s' else s
  | EmptyString => EmptyString
  end.

Definition rstrip_by (f : ascii → bool) (s : string) : string :=
  String.rev (lstrip_by f (String.rev s)).

(** [s.strip(chars)], the characters given by their test. *)
Definition strip_by (f : ascii → bool) (s : string) : string :=
  rstrip_by f (lstrip_by f s).

(** [s.strip()] *)
Definition strip : string → string := strip_by isspace.

(** [s.strip(c)] for a one-character [c]. *)
Definition strip_char (c : ascii) : string → string :=
  strip_by (λ a, bool_decide (a = c)).

(** [s.split()]: the maximal runs of non-space characters. *)
Fixpoint split_ws_go (cur : option string) (s : string) : list string :=
  match s with
  | EmptyString => option_list (String.rev <$> cur)
  | String a s' =>
      if isspace a
      then option_list (String.rev <$> cur) ++ split_ws_go None s'
      else split_ws_go (Some (String a (default EmptyString cur))) s'
  end.

Definition split_ws : string → list string := split_ws_go None.

(** [s.split(sep, 1)[1]]: what follows the first occurrence of [sep]
    ([None] stands for the [IndexError] when [sep] does not occur). *)
Fixpoint after_first (sep s : string) : option string :=
  if startswith sep s then Some (drop (String.length sep) s)
  else match s with
       | String _ s' => after_first sep s'
       | EmptyString => None
       end.

(** [s.split(sep)] for a one-character separator. *)
Fixpoint split_char_go (c : ascii) (cur : string) (s : string) : list string :=
  match s with
  | EmptyString => [String.rev cur]
  | String a s' =>
      if decide (a = c) then String.rev cur :: split_char_go c EmptyString s'
      else split_char_go c (String a cur) s'
  end.

Definition split_char (c : ascii) : string → list string :=
  split_char_go c EmptyString.

(** [sep.join(l)] *)
Fixpoint join (sep : string) (l : list string) : string :=
  match l with
  | [] => EmptyString
  | [x] => x
  | x :: l' => x +:+ sep +:+ join sep l'
  end.

(** [str.lower] on one code point below 256. *)
Definition lower_char (c : ascii) : ascii :=
  let n := N_of_ascii c in
  if ((65 <=? n) && (n <=? 90)
      || (192 <=? n) && (n <=? 222) && negb (n =? 215))%N
  then ascii_of_N (n + 32) else c.

Fixpoint lower (s : string) : string :=
  match s with
  | EmptyString => EmptyString
  | String a s' => String (lower_char a) (lower s')
  end.

(** Truth value of a string. *)
Definition truthy (s : string) : bool := negb (bool_decide (s = EmptyString)).

(** [a or b] on strings. *)
Definition or (a b : string) : string := if truthy a then a else b.

(** Truth value and [or] for a value that may be [None]. *)
Definition otruthy (o : option string) : bool :=
  match o with Some s => truthy s | None => false end.

End Py.

(** ** Paths *)

(** A [pathlib.Path], absolute: its components from the root.  A name that
    the program interpolates into a path (a revision, a timestamp) is one
    component; the model's filesystem gives no meaning to [..]. *)
Definition path := list string.

(** [p / name] *)
Definition pjoin (p : path) (name : string) : path := p ++ [name].

(** [p.parent] (the root is its own parent) *)
Definition parent (p : path) : path := removelast p.

(** [p.name] (empty for the root) *)
Definition pname (p : path) : string := List.last p EmptyString.

(** [p.stem]: the name without its last suffix; a name whose only dot is
    the first character, or the last one, has no suffix. *)
Fixpoint rfind_dot (s : string) (i : nat) (found : option nat) : option nat :=
  match s with
  | EmptyString => found
  | String a s' =>
      rfind_dot s' (S i) (if decide (a = "."%char) then Some i else found)
  end.

Definition stem_of (name : string) : string :=
  match rfind_dot name 0 None with
  | Some i =>
      if decide (0 < i ∧ i < String.length name - 1)%nat
      then Py.take i name else name
  | None => name
  end.

(** The components of a path written as a string: split at [/], empty
    components and [.] dropped. *)
Definition parts (s : string) : list string :=
  filter (λ c, c ≠ EmptyString ∧ c ≠ ".") (Py.split_char "/" s).

(** [p / s] for a string [s] that may have several components, or be
    absolute. *)
Definition pjoin_str (p : path) (s : string) : path :=
  if Py.startswith "/" s then parts s else p ++ parts s.

(** [str(p)] *)
Definition path_str (p : path) : string := "/" +:+ Py.join "/" p.

(** [str(Path(s) / name)], as the program passes it to [git add]. *)
Definition rel_str (s : string) (name : string) : string :=
  (if Py.startswith "/" s then "/" else EmptyString)
    +:+ Py.join "/" (parts s ++ [name]).

(** [fnmatch] against the pattern [*suffix]. *)
Definition matches_star (suffix : string) (name : string) : bool :=
  Py.endswith suffix name.

(** ** The status document *)

(** [status["github"]] *)
Record GithubStatus := mkGithubStatus {
  gh_strategies_repo : option string;
  gh_strategies_sha : option string;
  gh_strategies_updated : option bool;
  gh_strategies_error : option string;
  gh_results_repo : option string;
  gh_results_commit : option string;
  gh_results_pushed : option bool;
  gh_results_error : option string;
  gh_results_layout : option string;
  gh_results_subdir : option string;
}.

(** [status["datum_api"]] *)
Record DatumStatus := mkDatumStatus {
  da_ok : bool;
  da_config_path : option string;
  da_credentials_path : option string;
  da_staged_config_path : option string;
  da_staged_credentials_path : option string;
  da_error : option string;
}.

(** [status["cracen"]] *)
Record CracenStatus := mkCracenStatus {
  cr_ok : bool;
  cr_final_path : string;
  cr_error : option string;
}.

(** One entry of [status["strategies"]].  Durations are differences of
    clock readings, in the clock's unit. *)
Record JobInfo := mkJobInfo {
  ji_ok : bool;
  ji_duration_sec : Z;
  ji_error : option string;
}.

Record Status := mkStatus {
  st_job : string;
  st_updated_at_utc : option string;
  st_host : string;
  st_github : GithubStatus;
  st_datum_api : DatumStatus;
  st_cracen : CracenStatus;
  st_strategies : gmap string JobInfo;
  st_durations_sec : gmap string Z;
  st_fatal_error : option string;
}.

(** ** Files *)

(** [ops/config.json] as [json.loads] returns it: each recognised key with
    its value, if present. *)
Record OpsJson := mkOpsJson {
  oj_strategies_repo : option string;
  oj_strategies_branch : option string;
  oj_results_repo : option string;
  oj_results_branch : option string;
  oj_results_layout : option string;
  oj_results_subdir : option string;
  oj_use_clone_swap : option bool;
}.

(** [ops/access_token.json] as [json.loads] returns it. *)
Record TokenJson := mkTokenJson {
  tj_token : option string;
  tj_github_pat : option string;
  tj_pat : option string;
}.

(** What a file holds.  The two JSON inputs are kept parsed, the two status
    files are kept as the document they were written from ([json.dumps] and
    the markdown rendering are not modelled). *)
Inductive content :=
  | Blob (data : string)
  | OpsConfigFile (c : OpsJson)
  | TokenFile (t : TokenJson)
  | StatusJsonFile (st : Status)
  | StatusMdFile (st : Status).

(** ** The filesystem *)

#[warnings="-register-all"]
Inductive node :=
  | File (c : content)
  | Dir (entries : gmap string node).

Definition empty_dir : node := Dir ∅.

(** The node at a path, if there is one. *)
Fixpoint lookup_path (p : path) (n : node) : option node :=
  match p with
  | [] => Some n
  | c :: p' =>
      match n with
      | Dir m => match m !! c with Some ch => lookup_path p' ch | None => None end
      | File _ => None
      end
  end.

(** [p.exists()] *)
Definition path_exists (p : path) (fs : node) : bool :=
  bool_decide (is_Some (lookup_path p fs)).

(** Put a node at a path, creating the directories that lead to it; there
    is no result when a file is in the way. *)
Fixpoint insert_path (p : path) (v : node) (n : node) : option node :=
  match p with
  | [] => Some v
  | c :: p' =>
      match n with
      | Dir m =>
          match insert_path p' v (default empty_dir (m !! c)) with
          | Some ch => Some (Dir (<[c := ch]> m))
          | None => None
          end
      | File _ => None
      end
  end.

(** Remove what is at a path, if anything (the root stays). *)
Fixpoint remove_path (p : path) (n : node) : node :=
  match p with
  | [] => n
  | c :: p' =>
      match n with
      | Dir m =>
          match p' with
          | [] => Dir (delete c m)
          | _ :: _ =>
              match m !! c with
              | Some ch => Dir (<[c := remove_path p' ch]> m)
              | None => n
              end
          end
      | File _ => n
      end
  end.

(** The names in a directory (none for a file or a missing path). *)
Definition listdir (p : path) (fs : node) : list string :=
  match lookup_path p fs with
  | Some (Dir m) => (map_to_list m).*1
  | _ => []
  end.

(** [p.glob("*suffix")], names only, in the directory's own order. *)
Definition glob_star (suffix : string) (p : path) (fs : node) : list string :=
  filter (λ name, matches_star suffix name = true) (listdir p fs).

(** [n.rglob("*suffix")]: every path below [n] whose name matches. *)
Fixpoint rglob_star (suffix : string) (n : node) : list path :=
  match n with
  | File _ => []
  | Dir m =>
      map_fold (λ name ch acc,
        (if matches_star suffix name then [[name]] else [])
          ++ ((name ::.) <$> rglob_star suffix ch) ++ acc) [] m
  end.

(** [shutil.ignore_patterns("*.tmp", "*.lock")] *)
Definition ignored (name : string) : bool :=
  matches_star ".tmp" name || matches_star ".lock" name.

(** One operation on the filesystem. *)
Inductive fsop :=
  | OpRmtree (p : path)
  | OpMove (src dst : path)
  | OpMkdir (p : path)
  | OpWrite (p : path)
  | OpCopy (src dst : path)
  | OpUnlink (p : path)
  | OpProc (target : path).

(** An operation with the filesystem before and after it. *)
Record FsStep := mkFsStep {
  step_before : node;
  step_op : fsop;
  step_after : node;
}.

(** ** The world outside the program *)

(** A command line handed to [run_cmd]. *)
Inductive cmd :=
  | GitLsRemote (url ref : string)
  | GitClone (branch url : string) (dst : path)
  | GitRevParseShort12
  | GitRevParseHead
  | GitFetch (branch : string)
  | GitCheckout (branch : string)
  | GitPull (branch : string)
  | GitAdd (p : string)
  | GitDiffCachedQuiet
  | GitConfig (key value : string)
  | GitCommit (message : string)
  | GitPush (branch : string)
  | PapermillHelp
  | Papermill (nb out : path).

(** The argument vector of a command, as the program builds it. *)
Definition argv (python : string) (c : cmd) : list string :=
  match c with
  | GitLsRemote url ref => ["git"; "ls-remote"; url; ref]
  | GitClone branch url dst =>
      ["git"; "clone"; "--depth"; "1"; "--branch"; branch; url; path_str dst]
  | GitRevParseShort12 => ["git"; "rev-parse"; "--short=12"; "HEAD"]
  | GitRevParseHead => ["git"; "rev-parse"; "HEAD"]
  | GitFetch branch => ["git"; "fetch"; "origin"; branch]
  | GitCheckout branch => ["git"; "checkout"; branch]
  | GitPull branch => ["git"; "pull"; "origin"; branch]
  | GitAdd p => ["git"; "add"; p]
  | GitDiffCachedQuiet => ["git"; "diff"; "--cached"; "--quiet"]
  | GitConfig key value => ["git"; "config"; key; value]
  | GitCommit message => ["git"; "commit"; "-m"; message]
  | GitPush branch => ["git"; "push"; "origin"; branch]
  | PapermillHelp => [python; "-m"; "papermill"; "-h"]
  | Papermill nb out =>
      [python; "-m"; "papermill"; path_str nb; path_str out; "-k"; "python3"]
  end.

(** The subtree a command may rewrite: a clone its target, a query
    nothing, any other command its working directory. *)
Definition cmd_target (c : cmd) (cwd : path) : option path :=
  match c with
  | GitLsRemote _ _ | GitRevParseShort12 | GitRevParseHead
  | GitDiffCachedQuiet | PapermillHelp => None
  | GitClone _ _ dst => Some dst
  | _ => Some cwd
  end.

(** What [subprocess.run] reports: return code, standard output, standard
    error. *)
Definition CmdResult : Type := Z * string * string.

(** The environment: every answer the program gets from outside.
    [ext_proc k c cwd env fs] is the outcome of the [k]-th command: its
    result and what stands at the command's target afterwards ([None]:
    nothing).  Clock readings are numbered likewise.  [ext_device d] is the
    filesystem (mount) that holds the entries of the directory [d]:
    [os.rename] works within one filesystem only.  [ext_rmtree_left k p n]
    is what a removal of the directory tree [n] at [p], asked for after [k]
    filesystem steps, cannot delete ([None]: nothing is left). *)
Record Ext := mkExt {
  ext_proc : nat → cmd → path → list (string * string) → node
             → CmdResult * option node;
  ext_device : path → nat;
  ext_rmtree_left : nat → path → node → option node;
  ext_time : nat → Z;
  ext_now_iso : nat → string;
  ext_which_papermill : nat → bool;
  ext_host : string;
  ext_python : string;
  ext_tempdir : path;
  ext_environ : list (string * string);
  ext_orion_home_env : option path;
  ext_script_dir : path;
}.

(** A command that was run, with what it reported. *)
Record LogEntry := mkLogEntry {
  le_cmd : cmd;
  le_cwd : path;
  le_result : CmdResult;
}.

Definition le_code (e : LogEntry) : Z := (le_result e).1.1.
Definition le_stdout (e : LogEntry) : string := (le_result e).1.2.
Definition le_stderr (e : LogEntry) : string := (le_result e).2.

(** The state the program runs in.  [w_log], [w_obs] and [w_jobs] are
    histories, newest first: the commands run, the filesystem operations
    (each an observation point), the notebooks given to [run_notebook] with
    the return code it reported. *)
Record World := mkWorld {
  w_fs : node;
  w_ticks : nat;
  w_log : list LogEntry;
  w_obs : list FsStep;
  w_jobs : list (path * Z);
}.

(** The result of a call: a value or a raised exception. *)
Inductive res (A : Type) :=
  | Val (a : A)
  | Exn (msg : string).
Arguments Val {A} a.
Arguments Exn {A} msg.

Definition set_fs (op : fsop) (fs' : node) (w : World) : World :=
  {| w_fs := fs'; w_ticks := w_ticks w; w_log := w_log w;
     w_obs := mkFsStep (w_fs w) op fs' :: w_obs w; w_jobs := w_jobs w |}.

Definition tick (w : World) : World :=
  {| w_fs := w_fs w; w_ticks := S (w_ticks w); w_log := w_log w;
     w_obs := w_obs w; w_jobs := w_jobs w |}.

Definition log_cmd (e : LogEntry) (w : World) : World :=
  {| w_fs := w_fs w; w_ticks := w_ticks w; w_log := e :: w_log w;
     w_obs := w_obs w; w_jobs := w_jobs w |}.

Definition log_job (nb : path) (code : Z) (w : World) : World :=
  {| w_fs := w_fs w; w_ticks := w_ticks w; w_log := w_log w;
     w_obs := w_obs w; w_jobs := (nb, code) :: w_jobs w |}.

(** *** Filesystem calls of the standard library *)

(** [p.mkdir(parents=True, exist_ok=True)] *)
Definition mkdir_p (p : path) (w : World) : res unit * World :=
  match lookup_path p (w_fs w) with
  | Some (Dir _) => (Val (), w)
  | Some (File _) => (Exn "FileExistsError", w)
  | None =>
      match insert_path p empty_dir (w_fs w) with
      | Some fs' => (Val (), set_fs (OpMkdir p) fs' w)
      | None => (Exn "NotADirectoryError", w)
      end
  end.

(** [p.write_text(...)]: the parent must be a directory and [p] must not
    be one. *)
Definition write_file (p : path) (c : content) (w : World) : res unit * World :=
  match lookup_path (parent p) (w_fs w), lookup_path p (w_fs w) with
  | Some (Dir _), Some (Dir _) => (Exn "IsADirectoryError", w)
  | Some (Dir _), _ =>
      match insert_path p (File c) (w_fs w) with
      | Some fs' => (Val (), set_fs (OpWrite p) fs' w)
      | None => (Exn "NotADirectoryError", w)
      end
  | _, _ => (Exn "FileNotFoundError", w)
  end.

(** [shutil.copy2(src, dst)] *)
Definition copy2 (src dst : path) (w : World) : res unit * World :=
  match lookup_path src (w_fs w) with
  | Some (File c) =>
      let real_dst :=
        match lookup_path dst (w_fs w) with
        | Some (Dir _) => pjoin dst (pname src)
        | _ => dst
        end in
      match lookup_path (parent real_dst) (w_fs w), lookup_path real_dst (w_fs w) with
      | Some (Dir _), Some (Dir _) => (Exn "IsADirectoryError", w)
      | Some (Dir _), _ =>
          match insert_path real_dst (File c) (w_fs w) with
          | Some fs' => (Val (), set_fs (OpCopy src real_dst) fs' w)
          | None => (Exn "NotADirectoryError", w)
          end
      | _, _ => (Exn "FileNotFoundError", w)
      end
  | Some (Dir _) => (Exn "IsADirectoryError", w)
  | None => (Exn "FileNotFoundError", w)
  end.

(** [copytree(src, dst, dirs_exist_ok=True, ignore=ignore_patterns("*.tmp",
    "*.lock"))] for one entry [name] of a source directory, written over
    what the destination directory has under that name ([old]): the new
    value of the destination's entry ([None]: it stays as it is) and whether
    the copy went without error.  A directory is merged into an existing
    directory and cannot replace a file; a file replaces a file, and lands
    inside an existing directory of its name.  Errors are collected, the
    other entries are still copied. *)
Fixpoint merge_entry (src : node) (name : string) (old : option node)
    : option node * bool :=
  match src with
  | File c =>
      match old with
      | Some (Dir dd) =>
          match dd !! name with
          | Some (Dir _) => (None, false)
          | _ => (Some (Dir (<[name := File c]> dd)), true)
          end
      | _ => (Some (File c), true)
      end
  | Dir m =>
      match old with
      | Some (File _) => (None, false)
      | _ =>
          let dd := match old with Some (Dir dd) => dd | _ => ∅ end in
          let '(dd', ok) :=
            map_fold (λ child ch (acc : gmap string node * bool),
              if ignored child then acc
              else
                match merge_entry ch child (dd !! child) with
                | (Some v, ok) => (<[child := v]> acc.1, acc.2 && ok)
                | (None, ok) => (acc.1, acc.2 && ok)
                end) (dd, true) m in
          (Some (Dir dd'), ok)
      end
  end.

(** [copytree(src, dst, dirs_exist_ok=True, ignore=ignore_patterns("*.tmp",
    "*.lock"))]: [os.makedirs(dst, exist_ok=True)] raises on a file; the
    entries are then merged into the destination, and an error among them
    is raised at the end, after the others were copied.  The copy is one
    step here; the real call writes entry by entry. *)
Definition copytree (src dst : path) (w : World) : res unit * World :=
  match lookup_path src (w_fs w) with
  | Some (Dir m) =>
      match lookup_path dst (w_fs w) with
      | Some (File _) => (Exn "FileExistsError", w)
      | old =>
          match merge_entry (Dir m) (pname dst) old with
          | (Some merged, ok) =>
              match insert_path dst merged (w_fs w) with
              | Some fs' =>
                  (if ok then Val () else Exn "shutil.Error",
                   set_fs (OpCopy src dst) fs' w)
              | None => (Exn "NotADirectoryError", w)
              end
          | (None, _) => (Exn "FileExistsError", w)
          end
      end
  | Some (File _) => (Exn "NotADirectoryError", w)
  | None => (Exn "FileNotFoundError", w)
  end.

Section Library.

Variable E : Ext.

(** [shutil.rmtree(p, ignore_errors=True)]: every failure is swallowed.  A
    missing path and a regular file stay as they are; of a directory, what
    the environment does not let go stays in place. *)
Definition rmtree (p : path) (w : World) : World :=
  match lookup_path p (w_fs w) with
  | Some (Dir m) =>
      match ext_rmtree_left E (length (w_obs w)) p (Dir m) with
      | Some rest =>
          set_fs (OpRmtree p) (default (w_fs w) (insert_path p rest (w_fs w))) w
      | None => set_fs (OpRmtree p) (remove_path p (w_fs w)) w
      end
  | _ => w
  end.

(** [shutil.rmtree(p)]: the same removal, but what cannot be deleted is an
    error. *)
Definition rmtree_strict (p : path) (w : World) : res unit * World :=
  match lookup_path p (w_fs w) with
  | Some (Dir m) =>
      match ext_rmtree_left E (length (w_obs w)) p (Dir m) with
      | Some rest =>
          (Exn "PermissionError",
           set_fs (OpRmtree p) (default (w_fs w) (insert_path p rest (w_fs w))) w)
      | None => (Val (), set_fs (OpRmtree p) (remove_path p (w_fs w)) w)
      end
  | Some (File _) => (Exn "NotADirectoryError", w)
  | None => (Exn "FileNotFoundError", w)
  end.

(** Whether [os.rename(src, dst)] can work: source and target lie on one
    filesystem, and the directory of the target is there. *)
Definition can_rename (src dst : path) (fs : node) : bool :=
  bool_decide (ext_device E (parent src) = ext_device E (parent dst))
  && match lookup_path (parent dst) fs with Some (Dir _) => true | _ => false end.

(** [shutil.move(src, dst)].  An existing directory [dst] receives [src]
    inside it.  [os.rename] is tried first: one step, whatever the size of
    the tree.  Where it cannot work, a directory is copied to the target
    ([copytree]: the target directory is made, with the directories that
    lead to it, then filled; the filling is one step here, the real call
    writes entry by entry) and then removed at the source ([rmtree], whose
    failure is raised); a file is copied ([copy2], which needs the target's
    directory) and unlinked. *)
Definition move (src dst : path) (w : World) : res unit * World :=
  match lookup_path src (w_fs w) with
  | None => (Exn "FileNotFoundError", w)
  | Some n =>
      if bool_decide (src = dst) then (Val (), w)
      else
      let real_dst :=
        match lookup_path dst (w_fs w) with
        | Some (Dir _) => pjoin dst (pname src)
        | _ => dst
        end in
      if bool_decide (real_dst ≠ dst) && path_exists real_dst (w_fs w)
      then (Exn "Destination path already exists", w)
      else if bool_decide (src `prefix_of` real_dst)
      then (Exn "Cannot move a directory into itself", w)
      else
        match n, lookup_path real_dst (w_fs w) with
        | Dir _, Some (File _) => (Exn "NotADirectoryError", w)
        | _, _ =>
            if can_rename src real_dst (w_fs w)
            then
              match insert_path real_dst n (remove_path src (w_fs w)) with
              | Some fs' => (Val (), set_fs (OpMove src real_dst) fs' w)
              | None => (Exn "NotADirectoryError", w)
              end
            else
              match n with
              | Dir _ =>
                  match insert_path real_dst empty_dir (w_fs w) with
                  | Some fs1 =>
                      let w1 := set_fs (OpMkdir real_dst) fs1 w in
                      match insert_path real_dst n fs1 with
                      | Some fs2 =>
                          rmtree_strict src (set_fs (OpCopy src real_dst) fs2 w1)
                      | None => (Exn "NotADirectoryError", w1)
                      end
                  | None => (Exn "NotADirectoryError", w)
                  end
              | File _ =>
                  match lookup_path (parent real_dst) (w_fs w) with
                  | Some (Dir _) =>
                      match insert_path real_dst n (w_fs w) with
                      | Some fs1 =>
                          let w1 := set_fs (OpCopy src real_dst) fs1 w in
                          (Val (), set_fs (OpUnlink src) (remove_path src fs1) w1)
                      | None => (Exn "NotADirectoryError", w)
                      end
                  | _ => (Exn "FileNotFoundError", w)
                  end
              end
        end
  end.

End Library.

(** ** run_orion_daily.py *)

Definition CRACEN_NOTEBOOK : string := "CRACEN.ipynb".
Definition STRATEGIES_DIRNAME : string := "STRATEGIES".
Definition SIGNALS_DIRNAME : string := "signals".
Definition STATUS_DIRNAME : string := "status".

(** [normalize_repo_url_to_https] *)
Definition normalize_repo_url_to_https (repo_url : string) : string :=
  let s := Py.strip repo_url in
  if Py.startswith "https://" s then s
  else if Py.startswith "git@github.com:" s then
    "https://github.com/" +:+ default EmptyString (Py.after_first "git@github.com:" s)
  else s.

(** [with_token_https] *)
Definition with_token_https (repo_url_https token : string) : string :=
  if negb (Py.truthy token) then normalize_repo_url_to_https repo_url_https
  else
    let url := normalize_repo_url_to_https repo_url_https in
    if Py.startswith "https://" url
    then "https://" +:+ token +:+ "@" +:+ Py.drop (String.length "https://") url
    else url.

(** What [update_strategies_clone_swap] returns. *)
Record UpdateResult := mkUpdateResult {
  ur_updated : bool;
  ur_sha : option string;
  ur_error : option string;
  ur_backup : option string;
}.

(** What [push_results_to_repo] returns. *)
Record PublishResult := mkPublishResult {
  pr_pushed : bool;
  pr_commit : option string;
  pr_error : option string;
}.

(** The fixed identity of the publishing commit. *)
Definition BOT_NAME : string := "orion-bot".
Definition BOT_EMAIL : string := "orion-bot@local".

Section Program.

Variable E : Ext.

(** [time.time()], read as whole seconds *)
Definition time_now (w : World) : Z * World :=
  (ext_time E (w_ticks w), tick w).

(** [utc_now_iso] *)
Definition utc_now_iso (w : World) : string * World :=
  (ext_now_iso E (w_ticks w), tick w).

(** [run_cmd]: the outcome comes from the environment; the command's
    target, if it has one, is left as the environment says. *)
Definition run_cmd (c : cmd) (cwd : path) (env : list (string * string))
    (w : World) : CmdResult * World :=
  let '(out, eff) := ext_proc E (length (w_log w)) c cwd env (w_fs w) in
  let w1 :=
    match cmd_target c cwd with
    | Some t =>
        let fs' :=
          match eff with
          | Some n => default (w_fs w) (insert_path t n (w_fs w))
          | None => remove_path t (w_fs w)
          end in
        set_fs (OpProc t) fs' w
    | None => w
    end in
  (out, log_cmd (mkLogEntry c cwd out) w1).

(** [ls_remote_head_sha] *)
Definition ls_remote_head_sha (repo_url branch token : string) (w : World)
    : res string * World :=
  let tmp_base := ext_tempdir E in
  let url := with_token_https repo_url token in
  let '((code, so, se), w1) :=
    run_cmd (GitLsRemote url ("refs/heads/" +:+ branch)) tmp_base [] w in
  if decide (code ≠ 0) then
    (Exn ("git ls-remote failed: " +:+ Py.or (Py.strip se) (Py.strip so)), w1)
  else if negb (Py.truthy (Py.strip so)) then
    (Exn "git ls-remote returned empty output", w1)
  else
    match Py.split_ws (Py.strip so) with
    | first :: _ => (Val (Py.take 12 first), w1)
    | [] => (Exn "IndexError", w1)
    end.

(** [clone_depth1] *)
Definition clone_depth1 (repo_url branch : string) (dst : path) (token : string)
    (w : World) : res unit * World :=
  let url := with_token_https repo_url token in
  let w1 := if path_exists dst (w_fs w) then rmtree E dst w else w in
  let '((code, so, se), w2) :=
    run_cmd (GitClone branch url dst) (ext_tempdir E) [] w1 in
  if decide (code ≠ 0) then
    (Exn ("git clone failed: " +:+ Py.or (Py.strip se) (Py.strip so)), w2)
  else (Val (), w2).

(** Lines 187-191 of [update_strategies_clone_swap] (and 67-71 of
    [update_dir_clone_swap]): the revision of the checkout at the
    destination, if it has version-control metadata and [git] reports
    one. *)
Definition resolve_local_sha (dst_dir : path) (w : World) : option string * World :=
  if path_exists dst_dir (w_fs w) && path_exists (pjoin dst_dir ".git") (w_fs w)
  then
    let '((c, so, _), w1) := run_cmd GitRevParseShort12 dst_dir [] w in
    (if decide (c = 0) then Some (Py.strip so) else None, w1)
  else (None, w).

(** [f"{local_sha or int(time.time())}"] *)
Definition backup_tag (local_sha : option string) (w : World) : string * World :=
  match local_sha with
  | Some s => if Py.truthy s then (s, w)
              else let '(t, w1) := time_now w in (pretty t, w1)
  | None => let '(t, w1) := time_now w in (pretty t, w1)
  end.

(** The [while backup_dir.exists()] loop.  [fuel] bounds the number of
    rounds; [backup_loop_free] shows that the bound the program is
    modelled with is never reached. *)
Fixpoint backup_loop (fuel : nat) (dst_dir : path) (local_sha : option string)
    (i : nat) (backup_dir : path) (w : World) : path * World :=
  if path_exists backup_dir (w_fs w) then
    match fuel with
    | O => (backup_dir, w)
    | S fuel' =>
        let i := S i in
        let '(tag, w1) := backup_tag local_sha w in
        let backup_dir :=
          pjoin (parent dst_dir)
            (pname dst_dir +:+ "_backup_" +:+ tag +:+ "_" +:+ pretty i) in
        backup_loop fuel' dst_dir local_sha i backup_dir w1
    end
  else (backup_dir, w).

Definition backup_fuel (dst_dir : path) (w : World) : nat :=
  S (S (length (listdir (parent dst_dir) (w_fs w)))).

(** Lines 206-213 (and 79-86 of [git_ops.py]): an existing destination is
    renamed to a free backup name. *)
Definition move_aside (dst_dir : path) (local_sha : option string) (w : World)
    : res (option path) * World :=
  if path_exists dst_dir (w_fs w) then
    let '(tag, w1) := backup_tag local_sha w in
    let backup_dir := pjoin (parent dst_dir) (pname dst_dir +:+ "_backup_" +:+ tag) in
    let '(backup_dir, w2) :=
      backup_loop (backup_fuel dst_dir w1) dst_dir local_sha 0 backup_dir w1 in
    match move E dst_dir backup_dir w2 with
    | (Val _, w3) => (Val (Some backup_dir), w3)
    | (Exn e, w3) => (Exn e, w3)
    end
  else (Val None, w).

(** What the first half of a swap hands to the second: both revisions
    and the staging directory. *)
Record Staged := mkStaged {
  sg_remote_sha : string;
  sg_local_sha : option string;
  sg_tmp_dir : path;
}.

(** Lines 184-197: resolve both revisions; unless they agree, clone into
    a staging directory.  [inl] is the early return. *)
Definition sync_stage (repo_url branch : string) (dst_dir : path) (token : string)
    (w : World) : res (UpdateResult + Staged) * World :=
  match ls_remote_head_sha repo_url branch token w with
  | (Exn e, w1) => (Exn e, w1)
  | (Val remote_sha, w1) =>
      let out := mkUpdateResult false (Some remote_sha) None None in
      let '(local_sha, w2) := resolve_local_sha dst_dir w1 in
      if Py.otruthy local_sha && bool_decide (local_sha = Some remote_sha)
      then (Val (inl out), w2)
      else
        let '(t, w3) := time_now w2 in
        let tmp_dir :=
          pjoin (ext_tempdir E)
            ("orion_strategies_" +:+ remote_sha +:+ "_" +:+ pretty t) in
        match clone_depth1 repo_url branch tmp_dir token w3 with
        | (Exn e, w4) => (Exn e, w4)
        | (Val _, w4) => (Val (inr (mkStaged remote_sha local_sha tmp_dir)), w4)
        end
  end.

(** [list(tmp_dir.rglob("*.ipynb"))] *)
Definition found_ipynb (tmp_dir : path) (w : World) : list path :=
  match lookup_path tmp_dir (w_fs w) with
  | Some n => rglob_star ".ipynb" n
  | None => []
  end.

(** Lines 199-218: the sanity check, then the two renames. *)
Definition sync_swap (dst_dir : path) (s : Staged) (w : World)
    : res UpdateResult * World :=
  let out := mkUpdateResult false (Some (sg_remote_sha s)) None None in
  match found_ipynb (sg_tmp_dir s) w with
  | [] =>
      let w1 := rmtree E (sg_tmp_dir s) w in
      (Val (mkUpdateResult false (ur_sha out)
              (Some "No notebooks found in strategies repo") None), w1)
  | _ :: _ =>
      match move_aside dst_dir (sg_local_sha s) w with
      | (Exn e, w1) => (Exn e, w1)
      | (Val backup_dir, w1) =>
          match move E (sg_tmp_dir s) dst_dir w1 with
          | (Exn e, w2) => (Exn e, w2)
          | (Val _, w2) =>
              (Val (mkUpdateResult true (ur_sha out) None
                      (path_str <$> backup_dir)), w2)
          end
      end
  end.

(** [update_strategies_clone_swap] *)
Definition update_strategies_clone_swap (repo_url branch : string)
    (dst_dir : path) (token : string) (w : World) : res UpdateResult * World :=
  match sync_stage repo_url branch dst_dir token w with
  | (Exn e, w1) => (Exn e, w1)
  | (Val (inl out), w1) => (Val out, w1)
  | (Val (inr s), w1) => sync_swap dst_dir s w1
  end.

(** [push_results_to_repo], the body of its [try] from the staging of the
    two paths on (lines 277-303), run in the results clone [tmp_dir]. *)
Definition publish_commit (branch : string) (tmp_dir : path)
    (add_signals add_status ts : string) (w : World) : res PublishResult * World :=
  let out := mkPublishResult false None None in
  let '(_, w) := run_cmd (GitAdd add_signals) tmp_dir [] w in
  let '(_, w) := run_cmd (GitAdd add_status) tmp_dir [] w in
  let '((code, _, _), w) := run_cmd GitDiffCachedQuiet tmp_dir [] w in
  if decide (code = 0) then (Val out, w)
  else
    let '(_, w) := run_cmd (GitConfig "user.name" BOT_NAME) tmp_dir [] w in
    let '(_, w) := run_cmd (GitConfig "user.email" BOT_EMAIL) tmp_dir [] w in
    let cm := "orion: update signals/status " +:+ ts in
    let '((c2, so2, se2), w) := run_cmd (GitCommit cm) tmp_dir [] w in
    if decide (c2 ≠ 0) then
      (Val (mkPublishResult false None
              (Some ("git commit failed: " +:+ Py.or (Py.strip se2) (Py.strip so2)))), w)
    else
      let '((c3, so3, _), w) := run_cmd GitRevParseHead tmp_dir [] w in
      let commit :=
        if decide (c3 = 0)
        then (if Py.truthy (Py.strip so3) then Some (Py.strip so3) else None)
        else None in
      let '((c4, so4, se4), w) := run_cmd (GitPush branch) tmp_dir [] w in
      if decide (c4 ≠ 0) then
        (Val (mkPublishResult false commit
                (Some ("git push failed: " +:+ Py.or (Py.strip se4) (Py.strip so4)))), w)
      else (Val (mkPublishResult true commit None), w).

(** [push_results_to_repo], the body of its [try] up to the copies
    (lines 246-275): [inl] is an early return, [inr] the two paths to
    stage. *)
Definition publish_overlay (results_repo_url branch token : string)
    (orion_home tmp_dir : path) (use_subdir : bool) (subdir : string) (w : World)
    : res (PublishResult + string * string) * World :=
  let out := mkPublishResult false None None in
  let url := with_token_https results_repo_url token in
  let '((c, so, se), w) :=
    run_cmd (GitClone branch url tmp_dir) (ext_tempdir E) [] w in
  if decide (c ≠ 0) then
    (Val (inl (mkPublishResult false None
            (Some ("git clone failed: " +:+ Py.or (Py.strip se) (Py.strip so))))), w)
  else
    let src_signals := pjoin orion_home SIGNALS_DIRNAME in
    let src_status := pjoin orion_home STATUS_DIRNAME in
    if negb (path_exists src_signals (w_fs w)) && negb (path_exists src_status (w_fs w))
    then (Val (inl (mkPublishResult false None (Some "No signals/ or status/ to push"))), w)
    else
      let base := if use_subdir then pjoin_str tmp_dir subdir else tmp_dir in
      match mkdir_p base w with
      | (Exn e, w) => (Exn e, w)
      | (Val _, w) =>
          let dest_signals := pjoin base SIGNALS_DIRNAME in
          let dest_status := pjoin base STATUS_DIRNAME in
          let w := if path_exists dest_signals (w_fs w) then rmtree E dest_signals w else w in
          let w := if path_exists dest_status (w_fs w) then rmtree E dest_status w else w in
          let '(r1, w) :=
            if path_exists src_signals (w_fs w) then copytree src_signals dest_signals w
            else (Val (), w) in
          match r1 with
          | Exn e => (Exn e, w)
          | Val _ =>
              let '(r2, w) :=
                if path_exists src_status (w_fs w) then copytree src_status dest_status w
                else (Val (), w) in
              match r2 with
              | Exn e => (Exn e, w)
              | Val _ =>
                  let add_signals :=
                    if use_subdir then rel_str subdir SIGNALS_DIRNAME else SIGNALS_DIRNAME in
                  let add_status :=
                    if use_subdir then rel_str subdir STATUS_DIRNAME else STATUS_DIRNAME in
                  (Val (inr (add_signals, add_status)), w)
              end
          end
      end.

(** [push_results_to_repo]; the last step is its [finally]. *)
Definition push_results_to_repo (results_repo_url branch token : string)
    (orion_home : path) (results_layout results_subdir : string) (w : World)
    : res PublishResult * World :=
  let '(ts, w) := utc_now_iso w in
  let tmp_base := ext_tempdir E in
  let '(t, w) := time_now w in
  let tmp_dir := pjoin tmp_base ("orion_stats_" +:+ pretty t) in
  let subdir :=
    Py.strip_char "\" (Py.strip_char "/" (Py.strip results_subdir)) in
  let use_subdir :=
    bool_decide (Py.lower results_layout = "subdir") || Py.truthy subdir in
  let '(r, w) :=
    match publish_overlay results_repo_url branch token orion_home tmp_dir
            use_subdir subdir w with
    | (Exn e, w) => (Exn e, w)
    | (Val (inl out), w) => (Val out, w)
    | (Val (inr (add_signals, add_status)), w) =>
        publish_commit branch tmp_dir add_signals add_status ts w
    end in
  (r, rmtree E tmp_dir w).

(** *** Configuration and credentials *)

(** [ops/config.json] with the defaults of [load_ops_config] filled in. *)
Record OpsConfig := mkOpsConfig {
  oc_strategies_repo : string;
  oc_strategies_branch : string;
  oc_results_repo : string;
  oc_results_branch : string;
  oc_results_layout : string;
  oc_results_subdir : string;
  oc_use_clone_swap : bool;
}.

(** [load_ops_config] *)
Definition load_ops_config (orion_home : path) (w : World) : res OpsConfig :=
  let cfg_path := pjoin (pjoin orion_home "ops") "config.json" in
  match lookup_path cfg_path (w_fs w) with
  | None => Exn ("Missing ops config: " +:+ path_str cfg_path)
  | Some (File (OpsConfigFile j)) =>
      Val {|
        oc_strategies_repo :=
          default "https://github.com/bohdan6992/OriON-strategies.git"
            (oj_strategies_repo j);
        oc_strategies_branch := default "main" (oj_strategies_branch j);
        oc_results_repo :=
          default "https://github.com/bohdan6992/OriON-stats.git" (oj_results_repo j);
        oc_results_branch := default "main" (oj_results_branch j);
        oc_results_layout := default "root" (oj_results_layout j);
        oc_results_subdir := default EmptyString (oj_results_subdir j);
        oc_use_clone_swap := default true (oj_use_clone_swap j);
      |}
  | Some _ => Exn "JSONDecodeError"
  end.

(** [a or b] where both may be [None]. *)
Definition oor (a b : option string) : option string :=
  if Py.otruthy a then a else b.

(** [read_github_token] *)
Definition read_github_token (orion_home : path) (w : World) : res string :=
  let p := pjoin (pjoin orion_home "ops") "access_token.json" in
  match lookup_path p (w_fs w) with
  | None => Exn ("Missing GitHub token file: " +:+ path_str p)
  | Some (File (TokenFile data)) =>
      let token := oor (oor (tj_token data) (tj_github_pat data)) (tj_pat data) in
      match token with
      | Some t =>
          if Py.truthy t then Val (Py.strip t)
          else Exn ("GitHub token not found in " +:+ path_str p
                    +:+ ". Expected key: token/github_pat/pat")
      | None => Exn ("GitHub token not found in " +:+ path_str p
                     +:+ ". Expected key: token/github_pat/pat")
      end
  | Some _ => Exn "JSONDecodeError"
  end.

(** The line feed. *)
Definition nl : string := String "010"%char EmptyString.

(** [resolve_datum_secrets] *)
Definition resolve_datum_secrets (repo_root orion_home : path) (w : World)
    : res (path * path) :=
  let both (d : path) :=
    path_exists (pjoin d "datum_api_config.json") (w_fs w)
    && path_exists (pjoin d "datum_api_credentials.json") (w_fs w) in
  if both repo_root then
    Val (pjoin repo_root "datum_api_config.json",
         pjoin repo_root "datum_api_credentials.json")
  else if both orion_home then
    Val (pjoin orion_home "datum_api_config.json",
         pjoin orion_home "datum_api_credentials.json")
  else
    let checked :=
      path_str <$> [pjoin repo_root "datum_api_config.json";
                    pjoin repo_root "datum_api_credentials.json";
                    pjoin orion_home "datum_api_config.json";
                    pjoin orion_home "datum_api_credentials.json"] in
    Exn ("Datum API secrets not found. Expected BOTH files:" +:+ nl
         +:+ "- datum_api_config.json" +:+ nl
         +:+ "- datum_api_credentials.json" +:+ nl
         +:+ "Checked paths:" +:+ nl
         +:+ Py.join nl ((λ p, "- " +:+ p) <$> checked)).

(** [stage_datum_secrets] *)
Definition stage_datum_secrets (repo_root orion_home : path) (w : World)
    : res (path * path) * World :=
  let src_cfg := pjoin repo_root "datum_api_config.json" in
  let src_creds := pjoin repo_root "datum_api_credentials.json" in
  if negb (path_exists src_cfg (w_fs w)) then
    (Exn ("Missing: " +:+ path_str src_cfg), w)
  else if negb (path_exists src_creds (w_fs w)) then
    (Exn ("Missing: " +:+ path_str src_creds), w)
  else
    let dst_cfg := pjoin orion_home "datum_api_config.json" in
    let dst_creds := pjoin orion_home "datum_api_credentials.json" in
    match copy2 src_cfg dst_cfg w with
    | (Exn e, w) => (Exn e, w)
    | (Val _, w) =>
        match copy2 src_creds dst_creds w with
        | (Exn e, w) => (Exn e, w)
        | (Val _, w) => (Val (dst_cfg, dst_creds), w)
        end
    end.

(** [p.unlink()] guarded by [p.exists()], any exception swallowed: a file
    is removed, anything else stays. *)
Definition unlink_quiet (p : path) (w : World) : World :=
  match lookup_path p (w_fs w) with
  | Some (File _) => set_fs (OpUnlink p) (remove_path p (w_fs w)) w
  | _ => w
  end.

(** [cleanup_datum_secrets] *)
Definition cleanup_datum_secrets (orion_home : path) (w : World) : World :=
  unlink_quiet (pjoin orion_home "datum_api_credentials.json")
    (unlink_quiet (pjoin orion_home "datum_api_config.json") w).

(** *** Jobs and the status files *)

(** [run_notebook] *)
Definition run_notebook (nb_path cwd : path) (env : list (string * string))
    (w : World) : res CmdResult * World :=
  let '(missing, w) :=
    if ext_which_papermill E (length (w_log w)) then (false, w)
    else
      let '((code, _, _), w1) := run_cmd PapermillHelp cwd env w in
      (bool_decide (code ≠ 0), w1) in
  if missing then
    (Val (2, EmptyString, "papermill not installed. Install: pip install papermill"),
     log_job nb_path 2 w)
  else
    let out_nb :=
      pjoin (pjoin cwd STATUS_DIRNAME)
        ("last_" +:+ stem_of (pname nb_path) +:+ "_out.ipynb") in
    match mkdir_p (parent out_nb) w with
    | (Exn e, w) => (Exn e, w)
    | (Val _, w) =>
        let '(out, w) := run_cmd (Papermill nb_path out_nb) cwd env w in
        (Val out, log_job nb_path out.1.1 w)
    end.

(** [write_status] *)
Definition write_status (orion_home : path) (status : Status) (w : World)
    : res unit * World :=
  let st_dir := pjoin orion_home STATUS_DIRNAME in
  match mkdir_p st_dir w with
  | (Exn e, w) => (Exn e, w)
  | (Val _, w) =>
      match write_file (pjoin st_dir "latest.json") (StatusJsonFile status) w with
      | (Exn e, w) => (Exn e, w)
      | (Val _, w) => write_file (pjoin st_dir "latest.md") (StatusMdFile status) w
      end
  end.

(** *** main *)

(** The mutable state of a run: the status document, whether secrets
    were staged, the world. *)
Record Run := mkRun {
  run_status : Status;
  run_staged : bool;
  run_world : World;
}.

Definition with_world (r : Run) (w : World) : Run :=
  mkRun (run_status r) (run_staged r) w.

Definition with_status (r : Run) (st : Status) : Run :=
  mkRun st (run_staged r) (run_world r).

Definition set_github (g : GithubStatus) (st : Status) : Status :=
  mkStatus (st_job st) (st_updated_at_utc st) (st_host st) g (st_datum_api st)
    (st_cracen st) (st_strategies st) (st_durations_sec st) (st_fatal_error st).

Definition set_datum (d : DatumStatus) (st : Status) : Status :=
  mkStatus (st_job st) (st_updated_at_utc st) (st_host st) (st_github st) d
    (st_cracen st) (st_strategies st) (st_durations_sec st) (st_fatal_error st).

Definition set_cracen (c : CracenStatus) (st : Status) : Status :=
  mkStatus (st_job st) (st_updated_at_utc st) (st_host st) (st_github st)
    (st_datum_api st) c (st_strategies st) (st_durations_sec st) (st_fatal_error st).

Definition set_updated_at (ts : string) (st : Status) : Status :=
  mkStatus (st_job st) (Some ts) (st_host st) (st_github st) (st_datum_api st)
    (st_cracen st) (st_strategies st) (st_durations_sec st) (st_fatal_error st).

Definition set_strategy (name : string) (info : JobInfo) (st : Status) : Status :=
  mkStatus (st_job st) (st_updated_at_utc st) (st_host st) (st_github st)
    (st_datum_api st) (st_cracen st) (<[name := info]> (st_strategies st))
    (st_durations_sec st) (st_fatal_error st).

Definition set_duration (name : string) (d : Z) (st : Status) : Status :=
  mkStatus (st_job st) (st_updated_at_utc st) (st_host st) (st_github st)
    (st_datum_api st) (st_cracen st) (st_strategies st)
    (<[name := d]> (st_durations_sec st)) (st_fatal_error st).

Definition set_fatal (e : string) (st : Status) : Status :=
  mkStatus (st_job st) (st_updated_at_utc st) (st_host st) (st_github st)
    (st_datum_api st) (st_cracen st) (st_strategies st) (st_durations_sec st) (Some e).

(** The status document [main] starts from. *)
Definition initial_status (final_path : path) : Status :=
  {| st_job := "OriON daily";
     st_updated_at_utc := None;
     st_host := ext_host E;
     st_github := mkGithubStatus None None None None None None None None None None;
     st_datum_api := mkDatumStatus false None None None None None;
     st_cracen := mkCracenStatus false (path_str final_path) None;
     st_strategies := ∅;
     st_durations_sec := ∅;
     st_fatal_error := None |}.

(** [find_orion_home] *)
Definition find_orion_home (w : World) : res path :=
  match ext_orion_home_env E with
  | Some p =>
      if path_exists p (w_fs w) then Val p
      else Exn ("ORION_HOME points to missing path: " +:+ path_str p)
  | None => Val (ext_script_dir E)
  end.

(** [(se.strip() or so.strip() or f"exit {code}")[:2000]] *)
Definition job_error (code : Z) (so se : string) : string :=
  Py.take 2000 (Py.or (Py.or (Py.strip se) (Py.strip so)) ("exit " +:+ pretty code)).

(** What the steps before the primary job establish. *)
Record Ctx := mkCtx {
  cx_cfg : OpsConfig;
  cx_token : string;
  cx_env : list (string * string);
}.

(** Step 0 of [main]: configuration and token. *)
Definition phase_config (orion_home : path) (r : Run) : res (OpsConfig * string) * Run :=
  match load_ops_config orion_home (run_world r) with
  | Exn e => (Exn e, r)
  | Val ops_cfg =>
      match read_github_token orion_home (run_world r) with
      | Exn e => (Exn e, r)
      | Val token =>
          let g := st_github (run_status r) in
          let g :=
            mkGithubStatus (Some (oc_strategies_repo ops_cfg)) (gh_strategies_sha g)
              (gh_strategies_updated g) (gh_strategies_error g)
              (Some (oc_results_repo ops_cfg)) (gh_results_commit g)
              (gh_results_pushed g) (gh_results_error g)
              (Some (oc_results_layout ops_cfg)) (Some (oc_results_subdir ops_cfg)) in
          (Val (ops_cfg, token), with_status r (set_github g (run_status r)))
      end
  end.

(** Step 1 of [main]: the strategies checkout is brought up to date by
    clone and swap if that is enabled, and not at all otherwise. *)
Definition phase_sync (orion_home : path) (ops_cfg : OpsConfig) (token : string)
    (r : Run) : Run :=
  let g := st_github (run_status r) in
  if oc_use_clone_swap ops_cfg then
    match update_strategies_clone_swap (oc_strategies_repo ops_cfg)
            (oc_strategies_branch ops_cfg) (pjoin orion_home STRATEGIES_DIRNAME)
            token (run_world r) with
    | (Val upd, w) =>
        let g :=
          mkGithubStatus (gh_strategies_repo g) (ur_sha upd) (Some (ur_updated upd))
            (if Py.otruthy (ur_error upd) then ur_error upd else gh_strategies_error g)
            (gh_results_repo g) (gh_results_commit g) (gh_results_pushed g)
            (gh_results_error g) (gh_results_layout g) (gh_results_subdir g) in
        mkRun (set_github g (run_status r)) (run_staged r) w
    | (Exn ex, w) =>
        let g :=
          mkGithubStatus (gh_strategies_repo g) (gh_strategies_sha g)
            (gh_strategies_updated g) (Some (Py.take 2000 ex))
            (gh_results_repo g) (gh_results_commit g) (gh_results_pushed g)
            (gh_results_error g) (gh_results_layout g) (gh_results_subdir g) in
        mkRun (set_github g (run_status r)) (run_staged r) w
    end
  else
    let g :=
      mkGithubStatus (gh_strategies_repo g) (gh_strategies_sha g) (Some false)
        (gh_strategies_error g) (gh_results_repo g) (gh_results_commit g)
        (gh_results_pushed g) (gh_results_error g) (gh_results_layout g)
        (gh_results_subdir g) in
    with_status r (set_github g (run_status r)).

(** Step 2 of [main]: the Datum API secrets and the job environment. *)
Definition phase_secrets (orion_home : path) (env : list (string * string))
    (r : Run) : res (list (string * string)) * Run :=
  let repo_root := parent orion_home in
  match resolve_datum_secrets repo_root orion_home (run_world r) with
  | Exn e => (Exn e, r)
  | Val (cfg_path, creds_path) =>
      let d := st_datum_api (run_status r) in
      let d :=
        mkDatumStatus (da_ok d) (Some (path_str cfg_path)) (Some (path_str creds_path))
          (da_staged_config_path d) (da_staged_credentials_path d) (da_error d) in
      let r := with_status r (set_datum d (run_status r)) in
      let '(res_stage, r) :=
        if bool_decide (parent cfg_path = repo_root)
           && bool_decide (parent creds_path = repo_root)
        then
          match stage_datum_secrets repo_root orion_home (run_world r) with
          | (Exn e, w) => (Exn e, with_world r w)
          | (Val (dst_cfg, dst_creds), w) =>
              (Val (path_str dst_cfg, path_str dst_creds),
               mkRun (run_status r) true w)
          end
        else (Val (path_str cfg_path, path_str creds_path), r) in
      match res_stage with
      | Exn e => (Exn e, r)
      | Val (staged_cfg, staged_creds) =>
          let d := st_datum_api (run_status r) in
          let d :=
            mkDatumStatus true (da_config_path d) (da_credentials_path d)
              (Some staged_cfg) (Some staged_creds) (da_error d) in
          let env :=
            [("DATUM_API_CREDS_PATH", path_str creds_path);
             ("DATUM_API_CFG_PATH", path_str cfg_path);
             ("DATUM_CREDENTIALS_PATH", path_str creds_path);
             ("DATUM_CONFIG_PATH", path_str cfg_path);
             ("DATUM_API_CREDENTIALS_PATH", path_str creds_path);
             ("DATUM_API_CONFIG_PATH", path_str cfg_path)] ++ env in
          (Val env, with_status r (set_datum d (run_status r)))
      end
  end.

(** The three early exits of step 3: the time stamp and the failure are
    put in the document, the document is written, [main] returns 1. *)
Definition abort_primary (orion_home : path) (error : string) (r : Run) : res Z * Run :=
  let '(ts, w) := utc_now_iso (run_world r) in
  let st := set_updated_at ts (run_status r) in
  let st :=
    set_cracen (mkCracenStatus false (cr_final_path (st_cracen st)) (Some error)) st in
  match write_status orion_home st w with
  | (Exn e, w) => (Exn e, mkRun st (run_staged r) w)
  | (Val _, w) => (Val 1, mkRun st (run_staged r) w)
  end.

(** Steps 0-2 of [main] and the check that the primary notebook is there:
    [inl] is the early return, [inr] what the pipeline starts from. *)
Definition main_prelude (orion_home : path) (env : list (string * string))
    (r : Run) : res (Z + Ctx) * Run :=
  match phase_config orion_home r with
  | (Exn e, r) => (Exn e, r)
  | (Val (ops_cfg, token), r) =>
      let r := phase_sync orion_home ops_cfg token r in
      match phase_secrets orion_home env r with
      | (Exn e, r) => (Exn e, r)
      | (Val env, r) =>
          let cracen_nb := pjoin (pjoin orion_home STRATEGIES_DIRNAME) CRACEN_NOTEBOOK in
          if negb (path_exists cracen_nb (w_fs (run_world r))) then
            match abort_primary orion_home ("Missing: " +:+ path_str cracen_nb) r with
            | (Exn e, r) => (Exn e, r)
            | (Val code, r) => (Val (inl code), r)
            end
          else (Val (inr (mkCtx ops_cfg token env)), r)
      end
  end.

(** Step 4 of [main]: the loop over the sorted notebooks. *)
Fixpoint dependents_loop (orion_home : path) (env : list (string * string))
    (nbs : list string) (r : Run) : res unit * Run :=
  match nbs with
  | [] => (Val (), r)
  | nb_name :: rest =>
      if decide (nb_name = CRACEN_NOTEBOOK) then dependents_loop orion_home env rest r
      else
        let nb := pjoin (pjoin orion_home STRATEGIES_DIRNAME) nb_name in
        let name := stem_of nb_name in
        let '(t_s, w) := time_now (run_world r) in
        match run_notebook nb orion_home env w with
        | (Exn e, w) => (Exn e, with_world r w)
        | (Val (code, so, se), w) =>
            let '(t_e, w) := time_now w in
            let info :=
              mkJobInfo (bool_decide (code = 0)) (t_e - t_s)
                (if decide (code ≠ 0) then Some (job_error code so se) else None) in
            dependents_loop orion_home env rest
              (mkRun (set_strategy name info (run_status r)) (run_staged r) w)
        end
  end.

(** [sorted(strat_dir.glob("*.ipynb"))], names only. *)
Definition discovered (orion_home : path) (w : World) : list string :=
  merge_sort String.le
    (glob_star ".ipynb" (pjoin orion_home STRATEGIES_DIRNAME) (w_fs w)).

(** Steps 5 and 6 of [main]. *)
Definition publish_phase (orion_home : path) (c : Ctx) (t0 : Z) (r : Run) : res Z * Run :=
  let '(ts, w) := utc_now_iso (run_world r) in
  let st := set_updated_at ts (run_status r) in
  let '(t, w) := time_now w in
  let st := set_duration "total" (t - t0) st in
  match write_status orion_home st w with
  | (Exn e, w) => (Exn e, mkRun st (run_staged r) w)
  | (Val _, w) =>
      let cfg := cx_cfg c in
      match push_results_to_repo (oc_results_repo cfg) (oc_results_branch cfg)
              (cx_token c) orion_home (oc_results_layout cfg) (oc_results_subdir cfg) w with
      | (Exn e, w) => (Exn e, mkRun st (run_staged r) w)
      | (Val res_push, w) =>
          let g := st_github st in
          let g :=
            mkGithubStatus (gh_strategies_repo g) (gh_strategies_sha g)
              (gh_strategies_updated g) (gh_strategies_error g) (gh_results_repo g)
              (pr_commit res_push) (Some (pr_pushed res_push)) (pr_error res_push)
              (gh_results_layout g) (gh_results_subdir g) in
          let st := set_github g st in
          match write_status orion_home st w with
          | (Exn e, w) => (Exn e, mkRun st (run_staged r) w)
          | (Val _, w) =>
              let r := mkRun st (run_staged r) w in
              if negb (cr_ok (st_cracen st)) then (Val 1, r)
              else if Py.otruthy (gh_results_error g) then (Val 1, r)
              else (Val 0, r)
          end
      end
  end.

(** Steps 3-6 of [main]. *)
Definition pipeline (orion_home : path) (c : Ctx) (t0 : Z) (r : Run) : res Z * Run :=
  let final_path := pjoin (pjoin orion_home "CRACEN") "final.parquet" in
  let cracen_nb := pjoin (pjoin orion_home STRATEGIES_DIRNAME) CRACEN_NOTEBOOK in
  let '(t_cr, w) := time_now (run_world r) in
  match run_notebook cracen_nb orion_home (cx_env c) w with
  | (Exn e, w) => (Exn e, with_world r w)
  | (Val (code, so, se), w) =>
      let '(t1, w) := time_now w in
      let r := mkRun (set_duration "cracen" (t1 - t_cr) (run_status r)) (run_staged r) w in
      if decide (code ≠ 0) then abort_primary orion_home (job_error code so se) r
      else if negb (path_exists final_path (w_fs w)) then
        abort_primary orion_home
          ("CRACEN finished but missing final.parquet: " +:+ path_str final_path) r
      else
        let st := run_status r in
        let st := set_cracen (mkCracenStatus true (cr_final_path (st_cracen st))
                                (cr_error (st_cracen st))) st in
        let r := with_status r st in
        match dependents_loop orion_home (cx_env c) (discovered orion_home w) r with
        | (Exn e, r) => (Exn e, r)
        | (Val _, r) => publish_phase orion_home c t0 r
        end
  end.

(** The body of the [try] in [main]. *)
Definition main_try (orion_home : path) (env : list (string * string)) (t0 : Z)
    (r : Run) : res Z * Run :=
  match main_prelude orion_home env r with
  | (Exn e, r) => (Exn e, r)
  | (Val (inl code), r) => (Val code, r)
  | (Val (inr c), r) => pipeline orion_home c t0 r
  end.

(** The [except] clause of [main]. *)
Definition main_except (orion_home : path) (e : string) (r : Run) : res Z * Run :=
  let '(ts, w) := utc_now_iso (run_world r) in
  let st := set_fatal (Py.take 2000 e) (set_updated_at ts (run_status r)) in
  match write_status orion_home st w with
  | (Exn e, w) => (Exn e, mkRun st (run_staged r) w)
  | (Val _, w) => (Val 1, mkRun st (run_staged r) w)
  end.

(** What [main] does before its [try]: the home directory, the two output
    directories, the job environment. *)
Definition main_setup (w : World) : res (path * Z * list (string * string)) * World :=
  let '(t0, w) := time_now w in
  match find_orion_home w with
  | Exn e => (Exn e, w)
  | Val orion_home =>
      match mkdir_p (pjoin orion_home SIGNALS_DIRNAME) w with
      | (Exn e, w) => (Exn e, w)
      | (Val _, w) =>
          match mkdir_p (pjoin orion_home STATUS_DIRNAME) w with
          | (Exn e, w) => (Exn e, w)
          | (Val _, w) =>
              let final_path := pjoin (pjoin orion_home "CRACEN") "final.parquet" in
              let env :=
                [("SIGNALS_DIR", path_str (pjoin orion_home SIGNALS_DIRNAME));
                 ("FINAL_PARQUET_PATH", path_str final_path);
                 ("ORION_HOME", path_str orion_home)] ++ ext_environ E in
              (Val (orion_home, t0, env), w)
          end
      end
  end.

(** [main] with its status document: the exit code ([raise
    SystemExit(main())]; an exception that escapes ends the process with
    code 1), the [status] dictionary as it is when [main] is left (there is
    none if the set-up fails), and the world. *)
Definition main_run (w : World) : Z * option Status * World :=
  match main_setup w with
  | (Exn _, w) => (1, None, w)
  | (Val (orion_home, t0, env), w) =>
      let final_path := pjoin (pjoin orion_home "CRACEN") "final.parquet" in
      let r0 := mkRun (initial_status final_path) false w in
      let '(result, r) :=
        match main_try orion_home env t0 r0 with
        | (Exn e, r) => main_except orion_home e r
        | (Val code, r) => (Val code, r)
        end in
      let w :=
        if run_staged r then cleanup_datum_secrets orion_home (run_world r)
        else run_world r in
      (match result with Val code => code | Exn _ => 1 end, Some (run_status r), w)
  end.

(** [main], as the process sees it: the exit code and the world it
    leaves. *)
Definition main (w : World) : Z * World :=
  let '(code, _, w) := main_run w in (code, w).

End Program.

(** ** ops/git_ops.py *)

Module GitOps.

(** [with_token_https] *)
Definition with_token_https (url : string) (token : option string) : string :=
  if negb (Py.otruthy token) then url
  else if Py.startswith "https://" url
  then "https://" +:+ default EmptyString token +:+ "@"
         +:+ Py.drop (String.length "https://") url
  else url.

(** [read_github_token] *)
Definition read_github_token (orion_home : path) (w : World) : res string :=
  let access_json := pjoin (pjoin orion_home "ops") "access_token.json" in
  match lookup_path access_json (w_fs w) with
  | None => Exn ("Missing GitHub token file: " +:+ path_str access_json)
  | Some (File (TokenFile data)) =>
      let token := oor (oor (tj_token data) (tj_github_pat data)) (tj_pat data) in
      match token with
      | Some t =>
          if Py.truthy t then Val (Py.strip t)
          else Exn ("GitHub token not found in " +:+ path_str access_json
                    +:+ ". Expected keys: token/github_pat/pat")
      | None => Exn ("GitHub token not found in " +:+ path_str access_json
                     +:+ ". Expected keys: token/github_pat/pat")
      end
  | Some _ => Exn "JSONDecodeError"
  end.

(** What [ensure_repo_checkout] returns. *)
Record EnsureResult := mkEnsureResult {
  er_updated : bool;
  er_error : option string;
}.

Section Ops.

Variable E : Ext.

(** [ls_remote_head_sha] *)
Definition ls_remote_head_sha (repo_url branch : string) (token : option string)
    (w : World) : res string * World :=
  let url := with_token_https repo_url token in
  let '((code, so, se), w1) :=
    run_cmd E (GitLsRemote url ("refs/heads/" +:+ branch)) (ext_tempdir E) [] w in
  if decide (code ≠ 0) then
    (Exn ("git ls-remote failed: " +:+ Py.or (Py.strip se) (Py.strip so)), w1)
  else if negb (Py.truthy (Py.strip so)) then
    (Exn "git ls-remote returned empty output", w1)
  else
    match Py.split_ws (Py.strip so) with
    | first :: _ => (Val (Py.take 12 first), w1)
    | [] => (Exn "IndexError", w1)
    end.

(** [clone_depth1] *)
Definition clone_depth1 (repo_url branch : string) (dst : path)
    (token : option string) (w : World) : res unit * World :=
  let url := with_token_https repo_url token in
  let w1 := if path_exists dst (w_fs w) then rmtree E dst w else w in
  let '((code, so, se), w2) :=
    run_cmd E (GitClone branch url dst) (ext_tempdir E) [] w1 in
  if decide (code ≠ 0) then
    (Exn ("git clone failed: " +:+ Py.or (Py.strip se) (Py.strip so)), w2)
  else (Val (), w2).

(** [update_dir_clone_swap] *)
Definition update_dir_clone_swap (repo_url branch : string) (dst_dir : path)
    (token : option string) (w : World) : res UpdateResult * World :=
  match ls_remote_head_sha repo_url branch token w with
  | (Exn e, w1) => (Exn e, w1)
  | (Val remote_sha, w1) =>
      let '(local_sha, w2) := resolve_local_sha E dst_dir w1 in
      if bool_decide (local_sha = Some remote_sha) then
        (Val (mkUpdateResult false (Some remote_sha) None None), w2)
      else
        let '(t, w3) := time_now E w2 in
        let tmp_dir :=
          pjoin (ext_tempdir E)
            ("orion_swap_" +:+ pname dst_dir +:+ "_" +:+ remote_sha
               +:+ "_" +:+ pretty t) in
        match clone_depth1 repo_url branch tmp_dir token w3 with
        | (Exn e, w4) => (Exn e, w4)
        | (Val _, w4) =>
            match move_aside E dst_dir local_sha w4 with
            | (Exn e, w5) => (Exn e, w5)
            | (Val backup_dir, w5) =>
                match move E tmp_dir dst_dir w5 with
                | (Exn e, w6) => (Exn e, w6)
                | (Val _, w6) =>
                    (Val (mkUpdateResult true (Some remote_sha) None
                            (path_str <$> backup_dir)), w6)
                end
            end
        end
  end.

(** [ensure_repo_checkout] *)
Definition ensure_repo_checkout (repo_url branch : string) (dst_dir : path)
    (token : option string) (w : World) : res EnsureResult * World :=
  if negb (path_exists dst_dir (w_fs w)) then
    match clone_depth1 repo_url branch dst_dir token w with
    | (Exn e, w1) => (Exn e, w1)
    | (Val _, w1) => (Val (mkEnsureResult true None), w1)
    end
  else if negb (path_exists (pjoin dst_dir ".git") (w_fs w)) then
    (Exn ("Destination exists but not a git repo: " +:+ path_str dst_dir), w)
  else
    let '((code, so, se), w) := run_cmd E (GitFetch branch) dst_dir [] w in
    if decide (code ≠ 0) then
      (Val (mkEnsureResult false (Some (Py.or (Py.strip se) (Py.strip so)))), w)
    else
      let '((code, so, se), w) := run_cmd E (GitCheckout branch) dst_dir [] w in
      if decide (code ≠ 0) then
        (Val (mkEnsureResult false (Some (Py.or (Py.strip se) (Py.strip so)))), w)
      else
        let '((code, so, se), w) := run_cmd E (GitPull branch) dst_dir [] w in
        if decide (code ≠ 0) then
          (Val (mkEnsureResult false (Some (Py.or (Py.strip se) (Py.strip so)))), w)
        else (Val (mkEnsureResult true None), w).

(** The [for p in add_paths] loop of [git_add_commit_push]. *)
Fixpoint add_all (repo_dir : path) (add_paths : list string) (w : World) : World :=
  match add_paths with
  | [] => w
  | p :: rest => add_all repo_dir rest (run_cmd E (GitAdd p) repo_dir [] w).2
  end.

(** [git_add_commit_push] *)
Definition git_add_commit_push (repo_dir : path) (message : string)
    (add_paths : list string) (branch : string) (w : World)
    : PublishResult * World :=
  let out := mkPublishResult false None None in
  let w := add_all repo_dir add_paths w in
  let '((code, _, _), w) := run_cmd E GitDiffCachedQuiet repo_dir [] w in
  if decide (code = 0) then (out, w)
  else
    let '(_, w) := run_cmd E (GitConfig "user.name" BOT_NAME) repo_dir [] w in
    let '(_, w) := run_cmd E (GitConfig "user.email" BOT_EMAIL) repo_dir [] w in
    let '((c, so, se), w) := run_cmd E (GitCommit message) repo_dir [] w in
    if decide (c ≠ 0) then
      (mkPublishResult false None
         (Some (Py.or (Py.or (Py.strip se) (Py.strip so)) "commit failed")), w)
    else
      let '((c2, so2, _), w) := run_cmd E GitRevParseHead repo_dir [] w in
      let commit :=
        if decide (c2 = 0)
        then (if Py.truthy (Py.strip so2) then Some (Py.strip so2) else None)
        else None in
      let '((c3, so3, se3), w) := run_cmd E (GitPush branch) repo_dir [] w in
      if decide (c3 ≠ 0) then
        (mkPublishResult false commit
           (Some (Py.or (Py.or (Py.strip se3) (Py.strip so3)) "push failed")), w)
      else (mkPublishResult true commit None, w).

End Ops.

End GitOps.

(** ** Concrete environments *)

(** Environments and filesystems on which the statements below are
    evaluated: a home directory [/srv/OriON], a temporary directory [/tmp],
    a remote at revision [abc123def456]. *)
Module Scenario.

Definition home : path := ["srv"; "OriON"].
Definition tmp : path := ["tmp"].
Definition strategies : path := pjoin home STRATEGIES_DIRNAME.

Definition blob (s : string) : node := File (Blob s).

(** A checkout: version-control metadata and the given notebooks. *)
Definition checkout (notebooks : list string) : node :=
  Dir (list_to_map ((".git", Dir {[ "HEAD" := blob "ref" ]})
                      :: ((λ n, (n, blob "{}")) <$> notebooks))).

Definition old_tree : node := checkout ["CRACEN.ipynb"; "old.ipynb"].
Definition new_tree : node := checkout ["CRACEN.ipynb"; "b.ipynb"; "a.ipynb"].


(** A clone result without any notebook. *)
Definition empty_clone : node := Dir {[ "README.md" := blob "r" ]}.

Definition ops_dir (use_clone_swap : option bool) : node :=
  Dir {[ "config.json" :=
           File (OpsConfigFile (mkOpsJson None None None None None None use_clone_swap));
         "access_token.json" :=
           File (TokenFile (mkTokenJson (Some "tok") None None)) ]}.

(** The filesystem: [dst] is what stands at [/srv/OriON/STRATEGIES], if
    anything; [siblings] are further entries of [/srv/OriON]. *)
Definition fs_with (use_clone_swap : option bool) (dst : option node)
    (siblings : list (string * node)) : node :=
  let home_entries : gmap string node :=
    list_to_map (siblings ++ [("ops", ops_dir use_clone_swap)]) in
  let home_entries :=
    match dst with
    | Some d => <[STRATEGIES_DIRNAME := d]> home_entries
    | None => home_entries
    end in
  Dir {[ "tmp" := empty_dir;
         "srv" := Dir {[ "OriON" := Dir home_entries;
                         "datum_api_config.json" := blob "cfg";
                         "datum_api_credentials.json" := blob "creds" ]} ]}.

(** What the environment answers: the local revision, the tree a clone
    leaves, the code of each notebook by name, whether the primary job
    writes its artifact, the codes of [git diff --cached --quiet] and of
    [git commit]. *)
Record Answers := mkAnswers {
  an_local_rev : string;
  an_clone : option node;
  an_job_code : string → Z;
  an_artifact : bool;
  an_diff_code : Z;
  an_commit_code : Z;
}.

Definition proc (a : Answers) (k : nat) (c : cmd) (cwd : path)
    (env : list (string * string)) (fs : node) : CmdResult * option node :=
  let here := lookup_path cwd fs in
  match c with
  | GitLsRemote _ _ =>
      ((0, "abc123def4567890abcdef	refs/heads/main", EmptyString), None)
  | GitRevParseShort12 => ((0, an_local_rev a, EmptyString), None)
  | GitClone _ _ _ => ((0, EmptyString, EmptyString), an_clone a)
  | GitDiffCachedQuiet => ((an_diff_code a, EmptyString, EmptyString), None)
  | GitRevParseHead => ((0, "9f8e7d6c5b4a", EmptyString), None)
  | GitCommit _ =>
      ((an_commit_code a, EmptyString,
        if decide (an_commit_code a = 0) then EmptyString else "hook declined"), here)
  | Papermill nb _ =>
      let code := an_job_code a (pname nb) in
      let here' :=
        if an_artifact a && bool_decide (pname nb = CRACEN_NOTEBOOK) then
          match here with
          | Some h =>
              Some (default h (insert_path ["CRACEN"; "final.parquet"] (blob "p") h))
          | None => None
          end
        else here in
      ((code, EmptyString, if decide (code = 0) then EmptyString else "boom"), here')
  | _ => ((0, EmptyString, EmptyString), here)
  end.

Definition ext (a : Answers) : Ext :=
  {| ext_proc := proc a;
     ext_device := λ _, 0%nat;
     ext_rmtree_left := λ _ _ _, None;
     ext_time := λ k, 1700000000 + Z.of_nat k;
     ext_now_iso := λ k, "2023-11-14T22:13:20Z";
     ext_which_papermill := λ _, true;
     ext_host := "host";
     ext_python := "python";
     ext_tempdir := tmp;
     ext_environ := [];
     ext_orion_home_env := Some home;
     ext_script_dir := home |}.

(** The same environment, where the directory [d] lies on a filesystem of
    its own. *)
Definition on_other_device (d : path) (E : Ext) : Ext :=
  mkExt (ext_proc E) (λ p, if decide (p = d) then 1%nat else 0%nat)
    (ext_rmtree_left E) (ext_time E) (ext_now_iso E) (ext_which_papermill E)
    (ext_host E) (ext_python E) (ext_tempdir E) (ext_environ E)
    (ext_orion_home_env E) (ext_script_dir E).

(** The same environment, where a removal leaves [rest] behind. *)
Definition undeletable (rest : node) (E : Ext) : Ext :=
  mkExt (ext_proc E) (ext_device E) (λ _ _ _, Some rest)
    (ext_time E) (ext_now_iso E) (ext_which_papermill E)
    (ext_host E) (ext_python E) (ext_tempdir E) (ext_environ E)
    (ext_orion_home_env E) (ext_script_dir E).

Definition world (fs : node) : World := mkWorld fs 0 [] [] [].

Definition all_ok : string → Z := λ _, 0.

End Scenario.

(** * Vocabulary of the statements *)

(** The predicates in which the properties below are stated: commands,
    backup names, histories of filesystem steps, outcomes of a publish
    call. *)

(** A command that clones. *)
Definition is_clone (c : cmd) : bool :=
  match c with GitClone _ _ _ => true | _ => false end.

(** A string without the separator [_]. *)
Fixpoint no_underscore (s : string) : bool :=
  match s with
  | EmptyString => true
  | String a s' => negb (bool_decide (a = "_"%char)) && no_underscore s'
  end.

(** A name that ends in [_i], the way the loop numbers its candidates. *)
Definition suffixed (i : nat) (name : string) : Prop :=
  ∃ stem, name = stem +:+ "_" +:+ pretty i.

(** Neither path is above the other. *)
Definition apart (p q : path) : Prop := ¬ p `prefix_of` q ∧ ¬ q `prefix_of` p.

(** The steps from one filesystem to another, newest first. *)
Inductive chain (fs0 : node) : list FsStep → node → Prop :=
  | chain_nil : chain fs0 [] fs0
  | chain_cons l s :
      chain fs0 l (step_before s) → chain fs0 (s :: l) (step_after s).

(** What a call added to the history of operations. *)
Definition trace (w w' : World) (added : list FsStep) : Prop :=
  w_obs w' = added ++ w_obs w ∧ chain (w_fs w) added (w_fs w').

(** A step that leaves a path as it was. *)
Definition untouched (p : path) (s : FsStep) : Prop :=
  lookup_path p (step_after s) = lookup_path p (step_before s).

(** A step that changes nothing apart from [t]. *)
Definition writes_at (t : path) (s : FsStep) : Prop :=
  ∀ p, apart t p → untouched p s.

(** The name tried in round [i] for the backup of [dst_dir]. *)
Definition backup_candidate (dst_dir : path) (tag : string) (i : nat) : path :=
  pjoin (parent dst_dir)
    match i with
    | O => pname dst_dir +:+ "_backup_" +:+ tag
    | S _ => pname dst_dir +:+ "_backup_" +:+ tag +:+ "_" +:+ pretty i
    end.

Section Candidates.

Variable E : Ext.

(** What stands at [p] after [shutil.rmtree(p, ignore_errors=True)]: a
    directory is gone unless the environment keeps some of it; a regular
    file stays, since the call cannot remove one. *)
Definition left_by_rmtree (p : path) (w : World) : option node :=
  match lookup_path p (w_fs w) with
  | Some (Dir m) => ext_rmtree_left E (length (w_obs w)) p (Dir m)
  | other => other
  end.

(** The tag of a round: the local revision if it is known and not empty,
    else a reading of the clock. *)
Definition tag_ok (local_sha : option string) (tag : string) : Prop :=
  match local_sha with
  | Some rev => if Py.truthy rev then tag = rev else ∃ k, tag = pretty (ext_time E k)
  | None => ∃ k, tag = pretty (ext_time E k)
  end.

(** The candidates the loop goes through: from a taken name to the next
    number, each with the tag of its round. *)
Inductive reached (fs : node) (dst_dir : path) (local_sha : option string)
    : nat → path → nat → path → Prop :=
  | reached_here i c : reached fs dst_dir local_sha i c i c
  | reached_next i c tag j b :
      path_exists c fs = true → tag_ok local_sha tag →
      reached fs dst_dir local_sha (S i) (backup_candidate dst_dir tag (S i)) j b →
      reached fs dst_dir local_sha i c j b.

(** The steps that put an existing destination aside, from [fs] to [mid]:
    none if there was no destination, else the one rename to [bp]. *)
Definition aside_steps (dst : path) (local_sha : option string) (fs : node)
    (backup : option path) (steps : list FsStep) (mid : node) : Prop :=
  match backup with
  | None => steps = [] ∧ mid = fs ∧ lookup_path dst fs = None
  | Some bp =>
      ∃ n tag j,
        steps = [mkFsStep fs (OpMove dst bp) mid]
        ∧ lookup_path dst fs = Some n
        ∧ tag_ok local_sha tag
        ∧ reached fs dst local_sha 0 (backup_candidate dst tag 0) j bp
        ∧ lookup_path bp fs = None
        ∧ insert_path bp n (remove_path dst fs) = Some mid
        ∧ lookup_path bp mid = Some n
        ∧ lookup_path dst mid = None
  end.

End Candidates.

(** The claim of C1 on one run: every state of the filesystem that the
    call produces shows, at the destination, the previous tree or the new
    one. *)
Definition only_old_or_new (dst : path) (old new : node) (steps : list FsStep) : Prop :=
  ∀ s, s ∈ steps →
    lookup_path dst (step_after s) = Some old
    ∨ lookup_path dst (step_after s) = Some new.


(** The result of [ensure_repo_checkout] when the step logged as [e]
    fails. *)
Definition failed_step (e : LogEntry) : GitOps.EnsureResult :=
  GitOps.mkEnsureResult false
    (Some (Py.or (Py.strip (le_stderr e)) (Py.strip (le_stdout e)))).

(** Fetch, checkout, pull, in this order, up to the first that fails:
    [added] are the commands run (newest first), [res] what is returned. *)
Definition fetch_checkout_pull (branch : string) (dst : path)
    (added : list LogEntry) (res : GitOps.EnsureResult) : Prop :=
  ∃ f, le_cmd f = GitFetch branch ∧ le_cwd f = dst ∧
    ((le_code f ≠ 0 ∧ added = [f] ∧ res = failed_step f)
     ∨ (le_code f = 0 ∧ ∃ c, le_cmd c = GitCheckout branch ∧ le_cwd c = dst ∧
          ((le_code c ≠ 0 ∧ added = [c; f] ∧ res = failed_step c)
           ∨ (le_code c = 0 ∧ ∃ p, le_cmd p = GitPull branch ∧ le_cwd p = dst ∧
                added = [p; c; f] ∧
                ((le_code p ≠ 0 ∧ res = failed_step p)
                 ∨ (le_code p = 0 ∧ res = GitOps.mkEnsureResult true None)))))).

(** What a publish call returns once it has asked for the staged diff
    ([d]) and run the commands [after] it (newest first): nothing more if
    the diff is empty; else the bot identity is set and a commit is tried,
    and after a successful commit its identifier is asked for and the branch
    is pushed. *)
Definition staged_diff_outcome (after : list LogEntry) (d : LogEntry)
    (res : PublishResult) : Prop :=
  (le_code d = 0 ∧ after = [] ∧ res = mkPublishResult false None None)
  ∨ (le_code d ≠ 0 ∧ ∃ cn ce cm rest,
       after = rest ++ [cm; ce; cn]
       ∧ le_cmd cn = GitConfig "user.name" BOT_NAME
       ∧ le_cmd ce = GitConfig "user.email" BOT_EMAIL
       ∧ (∃ message, le_cmd cm = GitCommit message)
       ∧ ((le_code cm ≠ 0 ∧ rest = []
           ∧ pr_pushed res = false ∧ pr_commit res = None ∧ is_Some (pr_error res))
          ∨ (le_code cm = 0 ∧ ∃ rp pu,
               rest = [pu; rp]
               ∧ le_cmd rp = GitRevParseHead
               ∧ (∃ branch, le_cmd pu = GitPush branch)
               ∧ pr_commit res =
                   (if decide (le_code rp = 0)
                    then (if Py.truthy (Py.strip (le_stdout rp))
                          then Some (Py.strip (le_stdout rp)) else None)
                    else None)
               ∧ pr_pushed res = bool_decide (le_code pu = 0)
               ∧ (le_code pu = 0 ↔ pr_error res = None)))).

(** The commands of a whole publish call (newest first) and its result:
    either the call ends before anything is staged, with an error or an
    exception and without any commit, or it clones, stages the two paths and
    asks for the staged diff. *)
Definition publish_outcome (added : list LogEntry) (r : res PublishResult) : Prop :=
  (Forall (λ e, le_cmd e ≠ GitDiffCachedQuiet ∧ ∀ m, le_cmd e ≠ GitCommit m) added
   ∧ ∀ res, r = Val res →
       pr_pushed res = false ∧ pr_commit res = None ∧ is_Some (pr_error res))
  ∨ (∃ after d a2 a1 cl res,
       added = after ++ [d; a2; a1; cl]
       ∧ le_cmd d = GitDiffCachedQuiet
       ∧ (∃ p, le_cmd a2 = GitAdd p) ∧ (∃ p, le_cmd a1 = GitAdd p)
       ∧ is_clone (le_cmd cl) = true
       ∧ r = Val res
       ∧ staged_diff_outcome after d res).

(** The two status files hold the document [st]. *)
Definition persisted (home : path) (st : Status) (fs : node) : Prop :=
  lookup_path (pjoin (pjoin home STATUS_DIRNAME) "latest.json") fs
    = Some (File (StatusJsonFile st))
  ∧ lookup_path (pjoin (pjoin home STATUS_DIRNAME) "latest.md") fs
      = Some (File (StatusMdFile st)).


(** The first of a sequence of optional strings that is a string and not
    empty. *)
Fixpoint first_truthy (l : list (option string)) : option string :=
  match l with
  | [] => None
  | o :: l' => if Py.otruthy o then o else first_truthy l'
  end.

(** * Properties *)

(** A result is given by its value and the world it leaves. *)
Lemma pair_eq_fst {A B : Type} (x : A * B) (a : A) : x.1 = a → x = (a, x.2).
Proof. destruct x as [a' b]. simpl. by intros ->. Qed.

(** ** Strings *)

Lemma append_cons a p r : String a p +:+ r = String a (p +:+ r).
Proof. reflexivity. Qed.

Lemma append_nil_l r : EmptyString +:+ r = r.
Proof. reflexivity. Qed.

Lemma startswith_app p r : Py.startswith p (p +:+ r) = true.
Proof.
  induction p as [|a p IH]; [done|].
  rewrite append_cons. simpl. by rewrite decide_True.
Qed.

Lemma drop_app p r : Py.drop (String.length p) (p +:+ r) = r.
Proof. induction p as [|a p IH]; [done|]. by rewrite append_cons. Qed.

Lemma startswith_inv p s :
  Py.startswith p s = true → s = p +:+ Py.drop (String.length p) s.
Proof.
  revert s. induction p as [|a p IH]; intros [|b s] H; simpl in *; try done.
  case_decide; [|done]. subst b. rewrite append_cons. f_equal. by apply IH.
Qed.

Lemma after_first_unfold sep s :
  Py.after_first sep s =
    if Py.startswith sep s then Some (Py.drop (String.length sep) s)
    else match s with
         | String _ s' => Py.after_first sep s'
         | EmptyString => None
         end.
Proof. by destruct s. Qed.

Lemma after_first_app sep r : Py.after_first sep (sep +:+ r) = Some r.
Proof. by rewrite after_first_unfold, startswith_app, drop_app. Qed.

Lemma truthy_false s : Py.truthy s = false ↔ s = EmptyString.
Proof.
  unfold Py.truthy. rewrite negb_false_iff, bool_decide_eq_true. done.
Qed.

Lemma truthy_true s : Py.truthy s = true ↔ s ≠ EmptyString.
Proof.
  unfold Py.truthy. rewrite negb_true_iff, bool_decide_eq_false. done.
Qed.

(** ** Token injection (C10) *)

(** The normal form of a URL written in the shorthand. *)
Lemma normalize_shorthand url rest :
  Py.strip url = "git@github.com:" +:+ rest →
  normalize_repo_url_to_https url = "https://github.com/" +:+ rest.
Proof.
  intros Hs. unfold normalize_repo_url_to_https. rewrite Hs.
  replace (Py.startswith "https://" ("git@github.com:" +:+ rest)) with false by done.
  by rewrite startswith_app, after_first_app.
Qed.

(** Any URL that is in neither form is only stripped. *)
Lemma normalize_other url :
  Py.startswith "git@github.com:" (Py.strip url) = false →
  normalize_repo_url_to_https url = Py.strip url.
Proof.
  intros Hs. unfold normalize_repo_url_to_https. rewrite Hs.
  by destruct (Py.startswith "https://" (Py.strip url)).
Qed.

(** C10, as stated, fails: with an empty token the shorthand URL does not
    come back unchanged, it comes back rewritten. *)
Lemma c10_unchanged_fails :
  ¬ (∀ url token : string,
       token = EmptyString
       ∨ Py.startswith "https://" (normalize_repo_url_to_https url) = false →
       with_token_https url token = url).
Proof.
  intros H. specialize (H "git@github.com:u/r.git" EmptyString (or_introl eq_refl)).
  vm_compute in H. discriminate H.
Qed.

(** C10, amended.  [run_orion_daily.with_token_https] returns the normalised
    URL (stripped, the [git@github.com:] shorthand rewritten) with the token
    put after [https://] exactly when the token is not empty and the
    normalised URL starts with [https://]; in every other case it returns
    the normalised URL as it is.  [git_ops.with_token_https] does not
    normalise: it puts the token in exactly when the token is not empty and
    the URL itself starts with [https://], and returns the URL unchanged
    otherwise. *)
Theorem c10_token_injection (url token : string) :
  let n := normalize_repo_url_to_https url in
  (token = EmptyString ∨ Py.startswith "https://" n = false →
     with_token_https url token = n)
  ∧ (∀ rest, token ≠ EmptyString → n = "https://" +:+ rest →
       with_token_https url token = "https://" +:+ token +:+ "@" +:+ rest)
  ∧ (∀ rest, Py.strip url = "git@github.com:" +:+ rest →
       n = "https://github.com/" +:+ rest)
  ∧ (Py.startswith "git@github.com:" (Py.strip url) = false → n = Py.strip url)
  ∧ (∀ otoken, Py.otruthy otoken = false ∨ Py.startswith "https://" url = false →
       GitOps.with_token_https url otoken = url)
  ∧ (∀ t rest, t ≠ EmptyString → url = "https://" +:+ rest →
       GitOps.with_token_https url (Some t) = "https://" +:+ t +:+ "@" +:+ rest).
Proof.
  intros n. repeat split.
  - intros [-> | Hn]; unfold with_token_https; [done|].
    fold n. rewrite Hn. by destruct (negb (Py.truthy token)).
  - intros rest Htok Hn. unfold with_token_https. fold n.
    apply truthy_true in Htok. rewrite Htok. simpl negb. cbv iota.
    rewrite Hn, startswith_app, drop_app. done.
  - intros rest. apply normalize_shorthand.
  - apply normalize_other.
  - intros otoken [Ht | Hu]; unfold GitOps.with_token_https.
    + by rewrite Ht.
    + rewrite Hu. by destruct (negb (Py.otruthy otoken)).
  - intros t rest Ht ->. unfold GitOps.with_token_https. simpl Py.otruthy.
    apply truthy_true in Ht. rewrite Ht. simpl negb. cbv iota.
    by rewrite startswith_app, drop_app.
Qed.

(** ** The filesystem *)

Lemma path_exists_true p fs : path_exists p fs = true ↔ is_Some (lookup_path p fs).
Proof. unfold path_exists. by rewrite bool_decide_eq_true. Qed.

Lemma path_exists_false p fs : path_exists p fs = false ↔ lookup_path p fs = None.
Proof.
  unfold path_exists. by rewrite bool_decide_eq_false, eq_None_not_Some.
Qed.

Lemma lookup_path_app p k fs :
  lookup_path (p ++ k) fs = lookup_path p fs ≫= lookup_path k.
Proof.
  revert fs. induction p as [|c p IH]; intros fs; simpl.
  - done.
  - destruct fs as [|m]; [done|]. destruct (m !! c); [apply IH | done].
Qed.

(** Below a missing path there is nothing. *)
Lemma lookup_path_prefix_None q p fs :
  q `prefix_of` p → lookup_path q fs = None → lookup_path p fs = None.
Proof. intros [k ->] H. by rewrite lookup_path_app, H. Qed.

Lemma lookup_path_empty_dir p : p ≠ [] → lookup_path p empty_dir = None.
Proof. by destruct p. Qed.

Lemma lookup_insert_path_eq p v fs fs' :
  insert_path p v fs = Some fs' → lookup_path p fs' = Some v.
Proof.
  revert fs fs'. induction p as [|c p IH]; intros fs fs' H; simpl in *.
  - by simplify_eq.
  - destruct fs as [|m]; [done|].
    destruct (insert_path p v (default empty_dir (m !! c))) as [ch|] eqn:Hch; [|done].
    simplify_eq. simpl. rewrite lookup_insert_eq. eauto.
Qed.

(** A path that is neither above nor below the one written is not
    affected. *)
Lemma lookup_insert_path_ne q p v fs fs' :
  insert_path q v fs = Some fs' →
  ¬ q `prefix_of` p → ¬ p `prefix_of` q →
  lookup_path p fs' = lookup_path p fs.
Proof.
  revert p fs fs'. induction q as [|c q IH]; intros p fs fs' H Hqp Hpq.
  - destruct Hqp. apply prefix_nil.
  - destruct p as [|d p]; [destruct Hpq; apply prefix_nil|].
    simpl in H. destruct fs as [|m]; [done|].
    destruct (insert_path q v (default empty_dir (m !! c))) as [ch|] eqn:Hch; [|done].
    simplify_eq. simpl. destruct (decide (c = d)) as [->|Hne].
    + rewrite lookup_insert_eq.
      assert (¬ q `prefix_of` p) by (intros ?; apply Hqp; by apply prefix_cons).
      assert (¬ p `prefix_of` q) as Hp by (intros ?; apply Hpq; by apply prefix_cons).
      rewrite (IH p _ _ Hch) by done.
      destruct (m !! d); [done|]. simpl. apply lookup_path_empty_dir.
      intros ->. apply Hp, prefix_nil.
    + by rewrite lookup_insert_ne.
Qed.

Lemma remove_path_cons_cons c c' q m :
  remove_path (c :: c' :: q) (Dir m) =
    match m !! c with
    | Some ch => Dir (<[c := remove_path (c' :: q) ch]> m)
    | None => Dir m
    end.
Proof. done. Qed.

(** Nothing is left at or below a removed path. *)
Lemma lookup_remove_path_below q p fs :
  q ≠ [] → q `prefix_of` p → lookup_path p (remove_path q fs) = None.
Proof.
  intros Hq [k ->]. revert fs. induction q as [|c q IH]; intros fs; [done|].
  destruct fs as [|m]; [by destruct q|].
  destruct q as [|c' q].
  - simpl. by rewrite lookup_delete_eq.
  - change (remove_path (c :: c' :: q) (Dir m)) with
      (match m !! c with
       | Some ch => Dir (<[c := remove_path (c' :: q) ch]> m)
       | None => Dir m
       end).
    destruct (m !! c) as [ch|] eqn:Hc.
    + change (lookup_path ((c :: c' :: q) ++ k) ?n) with
        (lookup_path (c :: (c' :: q) ++ k) n).
      cbn [lookup_path]. rewrite lookup_insert_eq. by apply IH.
    + change (lookup_path ((c :: c' :: q) ++ k) ?n) with
        (lookup_path (c :: (c' :: q) ++ k) n).
      cbn [lookup_path]. by rewrite Hc.
Qed.

Lemma lookup_remove_path_eq p fs : p ≠ [] → lookup_path p (remove_path p fs) = None.
Proof. intros. by apply lookup_remove_path_below. Qed.

Lemma lookup_remove_path_ne q p fs :
  ¬ q `prefix_of` p → ¬ p `prefix_of` q →
  lookup_path p (remove_path q fs) = lookup_path p fs.
Proof.
  revert p fs. induction q as [|c q IH]; intros p fs Hqp Hpq; [done|].
  destruct p as [|d p]; [destruct Hpq; apply prefix_nil|].
  destruct fs as [|m]; [by destruct q|].
  destruct q as [|c' q].
  - simpl. destruct (decide (c = d)) as [->|Hne].
    + destruct Hqp. apply prefix_cons, prefix_nil.
    + by rewrite lookup_delete_ne.
  - change (remove_path (c :: c' :: q) (Dir m)) with
      (match m !! c with
       | Some ch => Dir (<[c := remove_path (c' :: q) ch]> m)
       | None => Dir m
       end).
    destruct (m !! c) as [ch|] eqn:Hc; [|done].
    cbn [lookup_path]. destruct (decide (c = d)) as [->|Hne].
    + rewrite lookup_insert_eq, Hc. apply IH.
      * intros ?. apply Hqp. by apply prefix_cons.
      * intros ?. apply Hpq. by apply prefix_cons.
    + by rewrite lookup_insert_ne.
Qed.

(** Writing below a directory leaves a directory there. *)
Lemma insert_path_keeps_dir q k v fs fs' m :
  k ≠ [] → lookup_path q fs = Some (Dir m) →
  insert_path (q ++ k) v fs = Some fs' →
  ∃ m', lookup_path q fs' = Some (Dir m').
Proof.
  intros Hk. revert fs fs'. induction q as [|c q IH]; intros fs fs' Hq H.
  - simpl in *. simplify_eq. destruct k as [|d k]; [done|]. simpl in H.
    destruct (insert_path k v _); simplify_eq. eauto.
  - simpl in Hq, H. destruct fs as [|m0]; [done|].
    destruct (m0 !! c) as [ch|] eqn:Hc; [|done]. simpl in H.
    destruct (insert_path (q ++ k) v ch) as [ch'|] eqn:Hch; [|done].
    simplify_eq. simpl. rewrite lookup_insert_eq. by eapply IH.
Qed.


(** Removing an entry of a directory leaves a directory there. *)
Lemma remove_path_keeps_dir q k fs m :
  k ≠ [] → lookup_path q fs = Some (Dir m) →
  ∃ m', lookup_path q (remove_path (q ++ k) fs) = Some (Dir m').
Proof.
  intros Hk. revert fs. induction q as [|c q IH]; intros fs Hq.
  - simpl in Hq. simplify_eq. destruct k as [|d [|d' k]]; [done|..]; simpl.
    + eauto.
    + destruct (m !! d); eauto.
  - simpl in Hq. destruct fs as [|m0]; [done|].
    destruct (m0 !! c) as [ch|] eqn:Hc; [|done].
    destruct (IH _ Hq) as [m' Hm'].
    destruct (q ++ k) as [|e qk] eqn:Hqk.
    { by destruct q, k. }
    change ((c :: q) ++ k) with (c :: (q ++ k)). rewrite Hqk.
    rewrite remove_path_cons_cons, Hc. cbn [lookup_path].
    rewrite lookup_insert_eq. eauto.
Qed.

(** ** Commands and their traces *)

Lemma rev_app_nonempty s acc : acc ≠ EmptyString → String.rev_app s acc ≠ EmptyString.
Proof. revert acc. induction s as [|a s IH]; intros acc H; simpl; [done|]. by apply IH. Qed.

Lemma split_ws_go_nonempty s cur :
  (∀ c, cur = Some c → c ≠ EmptyString) →
  Forall (λ x, x ≠ EmptyString) (Py.split_ws_go cur s).
Proof.
  revert cur. induction s as [|a s IH]; intros cur Hcur; simpl.
  - destruct cur as [c|]; simpl; [|constructor].
    constructor; [|constructor]. destruct c as [|b c]; [by destruct (Hcur _ eq_refl)|].
    unfold String.rev. simpl. by apply rev_app_nonempty.
  - destruct (Py.isspace a).
    + apply Forall_app. split; [|by apply IH].
      destruct cur as [c|]; simpl; [|constructor].
      constructor; [|constructor]. destruct c as [|b c]; [by destruct (Hcur _ eq_refl)|].
      unfold String.rev. simpl. by apply rev_app_nonempty.
    + apply IH. by intros c [= <-].
Qed.

Lemma take_nonempty n s : s ≠ EmptyString → Py.take (S n) s ≠ EmptyString.
Proof. by destruct s. Qed.

Section Traces.

Variable E : Ext.

(** A query leaves the filesystem alone and adds one line to the log. *)
Lemma run_cmd_query c cwd env w :
  cmd_target c cwd = None →
  (run_cmd E c cwd env w).2
    = log_cmd (mkLogEntry c cwd (run_cmd E c cwd env w).1) w.
Proof.
  intros Ht. unfold run_cmd.
  destruct (ext_proc E (length (w_log w)) c cwd env (w_fs w)) as [out eff].
  by rewrite Ht.
Qed.

(** [ls_remote_head_sha] leaves the filesystem alone and adds one line to
    the log. *)
Lemma ls_remote_frame repo branch token w r w1 :
  ls_remote_head_sha E repo branch token w = (r, w1) →
  ∃ e, w1 = log_cmd e w ∧ is_clone (le_cmd e) = false.
Proof.
  unfold ls_remote_head_sha. intros H.
  pose proof (run_cmd_query (GitLsRemote (with_token_https repo token)
    ("refs/heads/" +:+ branch)) (ext_tempdir E) [] w eq_refl) as Hq.
  destruct (run_cmd E _ _ _ w) as [[[code so] se] w0]. simpl in Hq. subst w0.
  exists (mkLogEntry (GitLsRemote (with_token_https repo token)
            ("refs/heads/" +:+ branch)) (ext_tempdir E) (code, so, se)).
  split; [|reflexivity]. repeat case_match; by simplify_eq.
Qed.

(** The revision [ls_remote_head_sha] returns is never empty. *)
Lemma ls_remote_nonempty repo branch token w rev w1 :
  ls_remote_head_sha E repo branch token w = (Val rev, w1) → rev ≠ EmptyString.
Proof.
  unfold ls_remote_head_sha.
  destruct (run_cmd E _ _ _ w) as [[[code so] se] w0].
  assert (Forall (λ x, x ≠ EmptyString) (Py.split_ws_go None (Py.strip so))) as Hw
    by (by apply split_ws_go_nonempty).
  intros H. repeat case_match; simplify_eq.
  unfold Py.split_ws in *. match goal with H : Py.split_ws_go _ _ = _ |- _ => rewrite H in Hw end.
  apply Forall_cons in Hw as [Hw _]. by destruct s.
Qed.

Lemma GitOps_ls_remote_frame repo branch token w r w1 :
  GitOps.ls_remote_head_sha E repo branch token w = (r, w1) →
  ∃ e, w1 = log_cmd e w ∧ is_clone (le_cmd e) = false.
Proof.
  unfold GitOps.ls_remote_head_sha. intros H.
  pose proof (run_cmd_query (GitLsRemote (GitOps.with_token_https repo token)
    ("refs/heads/" +:+ branch)) (ext_tempdir E) [] w eq_refl) as Hq.
  destruct (run_cmd E _ _ _ w) as [[[code so] se] w0]. simpl in Hq. subst w0.
  exists (mkLogEntry (GitLsRemote (GitOps.with_token_https repo token)
            ("refs/heads/" +:+ branch)) (ext_tempdir E) (code, so, se)).
  split; [|reflexivity]. repeat case_match; by simplify_eq.
Qed.

(** [resolve_local_sha] leaves the filesystem alone and adds at most one
    line to the log. *)
Lemma resolve_local_sha_frame dst w :
  (resolve_local_sha E dst w).2 = w
  ∨ ∃ e, (resolve_local_sha E dst w).2 = log_cmd e w ∧ is_clone (le_cmd e) = false.
Proof.
  unfold resolve_local_sha. case_match; [|by left]. right.
  pose proof (run_cmd_query GitRevParseShort12 dst [] w eq_refl) as Hq.
  destruct (run_cmd E _ _ _ w) as [[[code so] se] w0]. simpl in *. subst w0.
  eauto.
Qed.

End Traces.

(** ** Equal revisions: nothing happens (C2) *)

(** C2.  If the revision [git rev-parse] reports for the destination is the
    short revision [git ls-remote] reports for the branch, then
    [update_strategies_clone_swap] returns [updated = False] with that
    revision, the filesystem is the same and no operation on it was made,
    and the commands run are queries, none of them a clone.  The same holds
    for [update_dir_clone_swap]. *)
Theorem c2_equal_revisions_no_update (E : Ext) (repo branch : string) (dst : path)
    (w : World) :
  (∀ token rev w1,
     ls_remote_head_sha E repo branch token w = (Val rev, w1) →
     (resolve_local_sha E dst w1).1 = Some rev →
     ∃ w' added,
       update_strategies_clone_swap E repo branch dst token w
         = (Val (mkUpdateResult false (Some rev) None None), w')
       ∧ w_fs w' = w_fs w ∧ w_obs w' = w_obs w
       ∧ w_log w' = added ++ w_log w
       ∧ Forall (λ e, is_clone (le_cmd e) = false) added)
  ∧ (∀ token rev w1,
       GitOps.ls_remote_head_sha E repo branch token w = (Val rev, w1) →
       (resolve_local_sha E dst w1).1 = Some rev →
       ∃ w' added,
         GitOps.update_dir_clone_swap E repo branch dst token w
           = (Val (mkUpdateResult false (Some rev) None None), w')
         ∧ w_fs w' = w_fs w ∧ w_obs w' = w_obs w
         ∧ w_log w' = added ++ w_log w
         ∧ Forall (λ e, is_clone (le_cmd e) = false) added).
Proof.
  split.
  - intros token rev w1 Hls Hloc.
    pose proof (ls_remote_nonempty E _ _ _ _ _ _ Hls) as Hne.
    destruct (ls_remote_frame E _ _ _ _ _ _ Hls) as (e & -> & He).
    unfold update_strategies_clone_swap, sync_stage. rewrite Hls.
    destruct (resolve_local_sha_frame E dst (log_cmd e w)) as [Hw | (e' & Hw & He')];
      destruct (resolve_local_sha E dst (log_cmd e w)) as [loc w2];
      simpl in Hloc, Hw; subst loc w2; simpl Py.otruthy;
      rewrite (proj2 (truthy_true rev) Hne), bool_decide_eq_true_2 by done; simpl.
    + exists (log_cmd e w), [e]. repeat split; auto.
    + exists (log_cmd e' (log_cmd e w)), [e'; e]. repeat split; auto.
  - intros token rev w1 Hls Hloc.
    destruct (GitOps_ls_remote_frame E _ _ _ _ _ _ Hls) as (e & -> & He).
    unfold GitOps.update_dir_clone_swap. rewrite Hls.
    destruct (resolve_local_sha_frame E dst (log_cmd e w)) as [Hw | (e' & Hw & He')];
      destruct (resolve_local_sha E dst (log_cmd e w)) as [loc w2];
      simpl in Hloc, Hw; subst loc w2;
      rewrite bool_decide_eq_true_2 by done.
    + exists (log_cmd e w), [e]. repeat split; auto.
    + exists (log_cmd e' (log_cmd e w)), [e'; e]. repeat split; auto.
Qed.

(** ** Backup names (C9) *)

Lemma append_assoc a b c : (a +:+ b) +:+ c = a +:+ (b +:+ c).
Proof. induction a as [|x a IH]; [done|]. rewrite !append_cons. by f_equal. Qed.

Lemma no_underscore_app_cons x y : no_underscore (x +:+ String "_" y) = false.
Proof.
  induction x as [|a x IH]; [done|]. rewrite append_cons. simpl.
  rewrite IH. apply andb_false_r.
Qed.

Lemma pretty_N_go_plain x s :
  no_underscore s = true → no_underscore (pretty_N_go x s) = true.
Proof.
  revert s. induction (N.lt_wf_0 x) as [x _ IH]; intros s Hs.
  destruct (decide (x = 0)%N) as [->|Hx].
  - by rewrite pretty_N_go_0.
  - rewrite pretty_N_go_step by lia. apply IH.
    + apply N.div_lt; lia.
    + simpl. rewrite Hs, andb_true_r.
      unfold pretty_N_char. by repeat case_match.
Qed.

Lemma pretty_nat_plain (i : nat) : no_underscore (pretty i) = true.
Proof.
  unfold pretty, pretty_nat, pretty, pretty_N.
  case_decide; [done|]. by apply pretty_N_go_plain.
Qed.

(** The text after the last [_] of a name is determined by the name. *)
Lemma last_underscore x1 d1 x2 d2 :
  no_underscore d1 = true → no_underscore d2 = true →
  x1 +:+ "_" +:+ d1 = x2 +:+ "_" +:+ d2 → d1 = d2.
Proof.
  intros H1 H2. revert x2.
  induction x1 as [|a x1 IH]; intros [|b x2] H;
    rewrite ?append_cons, ?append_nil_l in H.
  - by simplify_eq.
  - injection H as <- ->. by rewrite no_underscore_app_cons in H1.
  - injection H as -> <-. by rewrite no_underscore_app_cons in H2.
  - injection H as <- H. apply (IH x2). by rewrite ?append_cons, ?append_nil_l.
Qed.

(** Two candidates with different numbers are different names. *)
Lemma suffixed_inj i j name : suffixed i name → suffixed j name → i = j.
Proof.
  intros [x1 ->] [x2 H]. apply last_underscore in H; auto using pretty_nat_plain.
  by apply (inj pretty) in H.
Qed.

Lemma path_exists_listdir p name fs :
  path_exists (pjoin p name) fs = true → name ∈ listdir p fs.
Proof.
  rewrite path_exists_true. unfold pjoin, listdir. rewrite lookup_path_app.
  destruct (lookup_path p fs) as [[c|m]|]; simpl; try by intros [].
  destruct (m !! name) as [ch|] eqn:Hm; [|by intros []]. intros _.
  apply list_elem_of_fmap. exists (name, ch). split; [done|].
  by apply elem_of_map_to_list.
Qed.

Section Backup.

Variable E : Ext.

Lemma backup_tag_fs local w : w_fs (backup_tag E local w).2 = w_fs w.
Proof. unfold backup_tag, time_now. by repeat case_match. Qed.

Lemma backup_tag_obs local w : w_obs (backup_tag E local w).2 = w_obs w.
Proof. unfold backup_tag, time_now. by repeat case_match. Qed.

Lemma backup_tag_log local w : w_log (backup_tag E local w).2 = w_log w.
Proof. unfold backup_tag, time_now. by repeat case_match. Qed.

(** The loop touches neither the filesystem nor the histories. *)
Lemma backup_loop_frame fuel dst local i cand w :
  let w' := (backup_loop E fuel dst local i cand w).2 in
  w_fs w' = w_fs w ∧ w_obs w' = w_obs w ∧ w_log w' = w_log w.
Proof.
  revert i cand w. induction fuel as [|fuel IH]; intros i cand w; simpl.
  - by case_match.
  - case_match; [|done].
    pose proof (backup_tag_fs local w). pose proof (backup_tag_obs local w).
    pose proof (backup_tag_log local w).
    destruct (backup_tag E local w) as [tag w1]. simpl in *.
    destruct (IH (S i) (pjoin (parent dst)
      (pname dst +:+ "_backup_" +:+ tag +:+ "_" +:+ pretty (S i))) w1) as (? & ? & ?).
    split_and!; congruence.
Qed.

(** With more fuel than names still to be met among the numbered
    candidates, the loop ends on a free name. *)
Lemma backup_loop_free_from fuel dst local i name w (seen : list string) :
  suffixed i name →
  (∀ j name', (i ≤ j)%nat → suffixed j name' →
     path_exists (pjoin (parent dst) name') (w_fs w) = true → name' ∈ seen) →
  (length seen < fuel)%nat →
  let r := backup_loop E fuel dst local i (pjoin (parent dst) name) w in
  path_exists r.1 (w_fs r.2) = false.
Proof.
  revert i name w seen.
  induction fuel as [|fuel IH]; intros i name w seen Hsuf Hseen Hlen; [lia|].
  simpl. destruct (path_exists (pjoin (parent dst) name) (w_fs w)) eqn:Hex; [|done].
  pose proof (backup_tag_fs local w) as Hfs.
  destruct (backup_tag E local w) as [tag w1]. simpl in Hfs.
  assert (name ∈ seen) as Hin by (by apply (Hseen i)).
  apply (IH _ _ _ (filter (λ x, x ≠ name) seen)).
  - exists (pname dst +:+ "_backup_" +:+ tag). by rewrite !append_assoc.
  - intros j name' Hj Hsuf' Hex'. rewrite Hfs in Hex'.
    apply list_elem_of_filter. split.
    + intros ->. pose proof (suffixed_inj _ _ _ Hsuf Hsuf'). lia.
    + apply (Hseen j); [lia|done..].
  - assert (length (filter (λ x, x ≠ name) seen) < length seen)%nat
      by (apply (length_filter_lt _ _ name); [done | naive_solver]).
    lia.
Qed.

Lemma backup_loop_S fuel dst local i cand w :
  backup_loop E (S fuel) dst local i cand w =
    if path_exists cand (w_fs w) then
      let '(tag, w1) := backup_tag E local w in
      backup_loop E fuel dst local (S i)
        (pjoin (parent dst)
           (pname dst +:+ "_backup_" +:+ tag +:+ "_" +:+ pretty (S i))) w1
    else (cand, w).
Proof. done. Qed.

(** The loop of the program ends, and on a name that is free. *)
Lemma backup_loop_free dst local tag w :
  let cand := pjoin (parent dst) (pname dst +:+ "_backup_" +:+ tag) in
  let r := backup_loop E (backup_fuel dst w) dst local 0 cand w in
  path_exists r.1 (w_fs r.2) = false.
Proof.
  intros cand. unfold backup_fuel. rewrite backup_loop_S.
  destruct (path_exists cand (w_fs w)) eqn:Hex; [|done].
  pose proof (backup_tag_fs local w) as Hfs.
  destruct (backup_tag E local w) as [tag1 w1]. simpl in Hfs.
  apply (backup_loop_free_from _ _ _ _ _ _ (listdir (parent dst) (w_fs w))).
  - exists (pname dst +:+ "_backup_" +:+ tag1). by rewrite !append_assoc.
  - intros j name' _ _ Hex'. rewrite Hfs in Hex'. by apply path_exists_listdir.
  - lia.
Qed.

End Backup.

(** ** Traces of filesystem operations *)

Lemma apart_sym p q : apart p q → apart q p.
Proof. intros [??]. by split. Qed.

Lemma apart_child p q name : apart p q → apart (pjoin p name) q.
Proof.
  intros [Hpq Hqp]. split.
  - intros [k Hk]. apply Hpq. exists (name :: k). rewrite Hk. unfold pjoin.
    by rewrite <- (assoc_L (++)).
  - intros Hpre. unfold pjoin in Hpre.
    destruct (prefix_weak_total q p (p ++ [name]) Hpre (prefix_app_r p p [name] (reflexivity p)))
      as [H|H]; [by apply Hqp | by apply Hpq].
Qed.

Lemma chain_app fs0 l1 fs1 l2 fs2 :
  chain fs0 l1 fs1 → chain fs1 l2 fs2 → chain fs0 (l2 ++ l1) fs2.
Proof. intros H1 H2. induction H2; simpl; [done|]. by constructor. Qed.

Lemma chain_untouched p fs0 l fs1 :
  chain fs0 l fs1 → Forall (untouched p) l → lookup_path p fs1 = lookup_path p fs0.
Proof.
  induction 1 as [|l s Hc IH]; intros Hall; [done|].
  apply Forall_cons in Hall as [Hs Hl]. unfold untouched in Hs. rewrite Hs. auto.
Qed.


Lemma trace_same w w' : w_obs w' = w_obs w → w_fs w' = w_fs w → trace w w' [].
Proof. intros Ho Hf. split; [done|]. rewrite Hf. constructor. Qed.

Lemma trace_trans w w1 w2 a1 a2 :
  trace w w1 a1 → trace w1 w2 a2 → trace w w2 (a2 ++ a1).
Proof.
  intros [Ho1 Hc1] [Ho2 Hc2]. split.
  - by rewrite Ho2, Ho1, (assoc_L (++)).
  - by eapply chain_app.
Qed.

Lemma trace_set_fs op fs' w : trace w (set_fs op fs' w) [mkFsStep (w_fs w) op fs'].
Proof.
  split; [done|]. simpl.
  apply (chain_cons (w_fs w) [] (mkFsStep (w_fs w) op fs')). constructor.
Qed.

Lemma writes_at_remove t fs : writes_at t (mkFsStep fs (OpRmtree t) (remove_path t fs)).
Proof. intros p [??]. unfold untouched. simpl. by apply lookup_remove_path_ne. Qed.

Lemma writes_at_effect t eff fs op :
  writes_at t (mkFsStep fs op
    match eff with
    | Some n => default fs (insert_path t n fs)
    | None => remove_path t fs
    end).
Proof.
  intros p [??]. unfold untouched. simpl. destruct eff as [n|].
  - destruct (insert_path t n fs) as [fs'|] eqn:Hi; [|done]. simpl.
    by eapply lookup_insert_path_ne.
  - by apply lookup_remove_path_ne.
Qed.

(** A path that stands for something can be written. *)
Lemma insert_path_Some p v fs :
  is_Some (lookup_path p fs) → is_Some (insert_path p v fs).
Proof.
  revert fs. induction p as [|c p IH]; intros fs; simpl; [done|].
  destruct fs as [|m]; [by intros []|].
  destruct (m !! c) as [ch|] eqn:Hc; [|by intros []].
  intros H. destruct (IH ch H) as [x Hx]. simpl. by rewrite Hx.
Qed.

Section ProgramTraces.

Variable E : Ext.

(** [rmtree] takes at most one step, at its target. *)
Lemma rmtree_trace t w :
  ∃ added, trace w (rmtree E t w) added ∧ Forall (writes_at t) added.
Proof.
  unfold rmtree.
  destruct (lookup_path t (w_fs w)) as [[c|m]|];
    [exists []; split; [by apply trace_same | constructor]| |
     exists []; split; [by apply trace_same | constructor]].
  destruct (ext_rmtree_left E (length (w_obs w)) t (Dir m)) as [rest|] eqn:Hleft.
  - eexists. split; [apply trace_set_fs|]. constructor; [|constructor].
    apply (writes_at_effect t (Some rest)).
  - eexists. split; [apply trace_set_fs|]. constructor; [|constructor].
    apply writes_at_remove.
Qed.

(** What [rmtree] leaves at its target. *)
Lemma rmtree_lookup t w :
  t ≠ [] → lookup_path t (w_fs (rmtree E t w)) = left_by_rmtree E t w.
Proof.
  intros Hne. unfold rmtree, left_by_rmtree.
  destruct (lookup_path t (w_fs w)) as [[c|m]|] eqn:Ht; [done| |done].
  destruct (ext_rmtree_left E (length (w_obs w)) t (Dir m)) as [rest|]; simpl.
  - destruct (insert_path_Some t rest (w_fs w)) as [fs' Hi]; [by rewrite Ht|].
    rewrite Hi. simpl. by eapply lookup_insert_path_eq.
  - by apply lookup_remove_path_eq.
Qed.

Lemma rmtree_log t w : w_log (rmtree E t w) = w_log w.
Proof. unfold rmtree. by repeat case_match. Qed.

Lemma rmtree_jobs t w : w_jobs (rmtree E t w) = w_jobs w.
Proof. unfold rmtree. by repeat case_match. Qed.

(** [run_cmd] takes at most one step, at the command's target. *)
Lemma run_cmd_trace c cwd env w :
  ∃ added, trace w (run_cmd E c cwd env w).2 added
    ∧ Forall (λ s, ∃ t, cmd_target c cwd = Some t ∧ writes_at t s) added.
Proof.
  unfold run_cmd.
  destruct (ext_proc E (length (w_log w)) c cwd env (w_fs w)) as [out eff].
  destruct (cmd_target c cwd) as [t|]; simpl.
  - set (fs' := match eff with
                | Some n => default (w_fs w) (insert_path t n (w_fs w))
                | None => remove_path t (w_fs w)
                end).
    exists [mkFsStep (w_fs w) (OpProc t) fs']. split.
    + split; [done|]. simpl.
      apply (chain_cons (w_fs w) [] (mkFsStep (w_fs w) (OpProc t) fs')). constructor.
    + constructor; [|constructor]. exists t. split; [done|]. apply writes_at_effect.
  - exists []. split; [by apply trace_same | constructor].
Qed.

(** [clone_depth1] changes nothing apart from its target. *)
Lemma clone_depth1_trace repo branch dst token w :
  ∃ added, trace w (clone_depth1 E repo branch dst token w).2 added
    ∧ Forall (writes_at dst) added.
Proof.
  unfold clone_depth1.
  set (w1 := if path_exists dst (w_fs w) then rmtree E dst w else w).
  assert (∃ a1, trace w w1 a1 ∧ Forall (writes_at dst) a1) as (a1 & Ht1 & Ha1).
  { subst w1. destruct (path_exists dst (w_fs w)).
    - apply rmtree_trace.
    - exists []. split; [by apply trace_same | constructor]. }
  destruct (run_cmd_trace (GitClone branch (with_token_https repo token) dst)
              (ext_tempdir E) [] w1) as (a2 & Ht2 & Ha2).
  destruct (run_cmd E _ _ _ w1) as [[[code so] se] w2]. simpl in Ht2.
  exists (a2 ++ a1). split.
  - case_match; simpl; by eapply trace_trans.
  - apply Forall_app. split; [|done].
    eapply Forall_impl; [exact Ha2|]. intros s (t & [= <-] & Hs). done.
Qed.

Lemma GitOps_clone_depth1_trace repo branch dst token w :
  ∃ added, trace w (GitOps.clone_depth1 E repo branch dst token w).2 added
    ∧ Forall (writes_at dst) added.
Proof.
  unfold GitOps.clone_depth1.
  set (w1 := if path_exists dst (w_fs w) then rmtree E dst w else w).
  assert (∃ a1, trace w w1 a1 ∧ Forall (writes_at dst) a1) as (a1 & Ht1 & Ha1).
  { subst w1. destruct (path_exists dst (w_fs w)).
    - apply rmtree_trace.
    - exists []. split; [by apply trace_same | constructor]. }
  destruct (run_cmd_trace (GitClone branch (GitOps.with_token_https repo token) dst)
              (ext_tempdir E) [] w1) as (a2 & Ht2 & Ha2).
  destruct (run_cmd E _ _ _ w1) as [[[code so] se] w2]. simpl in Ht2.
  exists (a2 ++ a1). split.
  - case_match; simpl; by eapply trace_trans.
  - apply Forall_app. split; [|done].
    eapply Forall_impl; [exact Ha2|]. intros s (t & [= <-] & Hs). done.
Qed.

(** The first half of a swap changes nothing apart from the staging
    directory, which is an entry of the temporary directory. *)
Lemma sync_stage_trace repo branch dst token w r w1 :
  sync_stage E repo branch dst token w = (r, w1) →
  ∃ added name,
    trace w w1 added ∧ Forall (writes_at (pjoin (ext_tempdir E) name)) added
    ∧ ∀ s, r = Val (inr s) → sg_tmp_dir s = pjoin (ext_tempdir E) name.
Proof.
  unfold sync_stage. intros H.
  destruct (ls_remote_head_sha E repo branch token w) as [[rev|e] w0] eqn:Hls;
    destruct (ls_remote_frame E _ _ _ _ _ _ Hls) as (e0 & -> & _).
  2:{ simplify_eq. exists [], EmptyString. split_and!; [by apply trace_same|constructor|done]. }
  assert (trace w (resolve_local_sha E dst (log_cmd e0 w)).2 []) as Hloc.
  { destruct (resolve_local_sha_frame E dst (log_cmd e0 w)) as [-> | (e' & -> & _)];
      by apply trace_same. }
  destruct (resolve_local_sha E dst (log_cmd e0 w)) as [loc w2]. simpl in Hloc.
  case_match.
  { simplify_eq. exists [], EmptyString. split_and!; [done|constructor|done]. }
  unfold time_now in H.
  set (tmp_name := "orion_strategies_" +:+ rev +:+ "_" +:+ pretty (ext_time E (w_ticks w2))) in *.
  destruct (clone_depth1_trace repo branch (pjoin (ext_tempdir E) tmp_name) token (tick w2))
    as (a & Ht & Ha).
  destruct (clone_depth1 E repo branch _ token (tick w2)) as [[[]|e] w4]; simpl in Ht;
    simplify_eq; exists a, tmp_name; split_and!; try done.
  - rewrite <- (app_nil_r a). eapply trace_trans; [exact Hloc|].
    destruct Ht as [Ho Hc]. by split.
  - by intros s [= <-].
  - rewrite <- (app_nil_r a). eapply trace_trans; [exact Hloc|].
    destruct Ht as [Ho Hc]. by split.
Qed.

End ProgramTraces.

(** ** Renames *)

Lemma path_split (p : path) : p ≠ [] → p = pjoin (parent p) (pname p).
Proof. intros. by apply app_removelast_last. Qed.

Lemma parent_pjoin p name : parent (pjoin p name) = p.
Proof. apply removelast_last. Qed.

Lemma pname_pjoin p name : pname (pjoin p name) = name.
Proof. apply last_last. Qed.

(** An entry of a directory is either the directory's other entry or apart
    from it. *)
Lemma siblings_apart p a b : a ≠ b → apart (pjoin p a) (pjoin p b).
Proof.
  intros Hne. unfold pjoin.
  split; intros Hpre; apply prefix_length_eq in Hpre;
    rewrite ?length_app; simpl; try lia;
    apply app_inj_tail in Hpre; by destruct Hpre.
Qed.

(** What is above an existing path exists. *)
Lemma lookup_path_prefix_Some q p fs :
  q `prefix_of` p → is_Some (lookup_path p fs) → is_Some (lookup_path q fs).
Proof.
  intros Hpre Hp. destruct (lookup_path q fs) eqn:Hq; [done|].
  rewrite (lookup_path_prefix_None q p fs Hpre Hq) in Hp. by destruct Hp.
Qed.

(** An existing path that is not the root lies in a directory. *)
Lemma lookup_parent_dir p fs :
  p ≠ [] → is_Some (lookup_path p fs) → ∃ m, lookup_path (parent p) fs = Some (Dir m).
Proof.
  intros Hp. rewrite (path_split p Hp) at 1. unfold pjoin.
  rewrite lookup_path_app. destruct (lookup_path (parent p) fs) as [[c|m]|]; simpl;
    [by intros [] | eauto | by intros []].
Qed.

Section Moves.

Variable E : Ext.

(** The outcome of a move onto a free path where a rename can work: one
    step, after which the whole source tree stands at the target and nothing
    at the source. *)
Lemma move_rename_onto_free src dst w r w' :
  lookup_path dst (w_fs w) = None →
  can_rename E src dst (w_fs w) = true →
  move E src dst w = (r, w') →
  (∃ e, r = Exn e ∧ w' = w)
  ∨ (∃ n fs', r = Val () ∧ w' = set_fs (OpMove src dst) fs' w
       ∧ lookup_path src (w_fs w) = Some n
       ∧ insert_path dst n (remove_path src (w_fs w)) = Some fs'
       ∧ ¬ src `prefix_of` dst
       ∧ lookup_path dst fs' = Some n).
Proof.
  intros Hdst Hdev. unfold move.
  destruct (lookup_path src (w_fs w)) as [n|] eqn:Hsrc; [|intros [= <- <-]; eauto].
  rewrite bool_decide_eq_false_2 by (intros ->; congruence).
  cbv zeta. rewrite Hdst.
  rewrite (bool_decide_eq_false_2 (dst ≠ dst)) by (by intros ?).
  rewrite andb_false_l.
  case_bool_decide as Hpre; [intros [= <- <-]; eauto|].
  rewrite Hdev.
  destruct (insert_path dst n (remove_path src (w_fs w))) as [fs'|] eqn:Hins.
  - assert (lookup_path dst fs' = Some n) by (by eapply lookup_insert_path_eq).
    destruct n; rewrite ?Hdst; intros [= <- <-]; right; eauto 10.
  - destruct n; rewrite ?Hdst; intros [= <- <-]; eauto.
Qed.

(** The outcome of a move onto a free path in general.  Either nothing
    happens and an exception is raised, or the whole source tree stands at
    the target afterwards.  Where a rename can work this is the rename;
    elsewhere it is a copy followed by the removal of the source, and the
    call still raises if the source cannot be removed. *)
Lemma move_onto_free src dst w r w' :
  lookup_path dst (w_fs w) = None →
  move E src dst w = (r, w') →
  (∃ e, r = Exn e ∧ w' = w)
  ∨ (∃ n added,
       trace w w' added
       ∧ lookup_path src (w_fs w) = Some n
       ∧ ¬ src `prefix_of` dst
       ∧ lookup_path dst (w_fs w') = Some n
       ∧ (r = Val ()
          ∨ (can_rename E src dst (w_fs w) = false ∧ r = Exn "PermissionError"))
       ∧ (can_rename E src dst (w_fs w) = true →
          r = Val ()
          ∧ ∃ fs', w' = set_fs (OpMove src dst) fs' w
              ∧ insert_path dst n (remove_path src (w_fs w)) = Some fs')).
Proof.
  intros Hdst Hmove.
  destruct (can_rename E src dst (w_fs w)) eqn:Hdev.
  { destruct (move_rename_onto_free _ _ _ _ _ Hdst Hdev Hmove)
      as [?|(n & fs' & -> & -> & Hsrc & Hins & Hpre & Hl)]; [by left|].
    right. exists n, [mkFsStep (w_fs w) (OpMove src dst) fs'].
    split_and!; [apply trace_set_fs|done|done|done|by left|].
    intros _. split; [done|]. eauto. }
  revert Hmove. unfold move.
  destruct (lookup_path src (w_fs w)) as [n|] eqn:Hsrc; [|intros [= <- <-]; eauto].
  rewrite bool_decide_eq_false_2 by (intros ->; congruence).
  cbv zeta. rewrite Hdst.
  rewrite (bool_decide_eq_false_2 (dst ≠ dst)) by (by intros ?).
  rewrite andb_false_l.
  case_bool_decide as Hpre; [intros [= <- <-]; eauto|].
  rewrite Hdev.
  assert (¬ dst `prefix_of` src) as Hpre'.
  { intros Hp. by rewrite (lookup_path_prefix_None _ _ _ Hp Hdst) in Hsrc. }
  destruct n as [c|m]; rewrite ?Hdst.
  - destruct (lookup_path (parent dst) (w_fs w)) as [[c'|m']|];
      [intros [= <- <-]; eauto| |intros [= <- <-]; eauto].
    destruct (insert_path dst (File c) (w_fs w)) as [fs1|] eqn:Hi;
      [|intros [= <- <-]; eauto].
    intros [= <- <-]. right.
    exists (File c), ([mkFsStep fs1 (OpUnlink src) (remove_path src fs1)]
                        ++ [mkFsStep (w_fs w) (OpCopy src dst) fs1]).
    split_and!; [|done|done| |by left|done].
    + eapply trace_trans; [apply trace_set_fs|].
      apply (trace_set_fs (OpUnlink src) (remove_path src fs1)
               (set_fs (OpCopy src dst) fs1 w)).
    + simpl. rewrite lookup_remove_path_ne by done. by eapply lookup_insert_path_eq.
  - destruct (insert_path dst empty_dir (w_fs w)) as [fs1|] eqn:Hi1;
      [|intros [= <- <-]; eauto].
    assert (lookup_path dst fs1 = Some empty_dir) as Hl1
      by (by eapply lookup_insert_path_eq).
    destruct (insert_path_Some dst (Dir m) fs1) as [fs2 Hi2]; [by rewrite Hl1|].
    rewrite Hi2. cbv zeta.
    assert (lookup_path dst fs2 = Some (Dir m)) as Hl2
      by (by eapply lookup_insert_path_eq).
    assert (lookup_path src fs2 = Some (Dir m)) as Hs2.
    { rewrite (lookup_insert_path_ne _ src _ _ _ Hi2) by done.
      by rewrite (lookup_insert_path_ne _ src _ _ _ Hi1). }
    set (w2 := set_fs (OpCopy src dst) fs2 (set_fs (OpMkdir dst) fs1 w)).
    assert (trace w w2 ([mkFsStep fs1 (OpCopy src dst) fs2]
                          ++ [mkFsStep (w_fs w) (OpMkdir dst) fs1])) as Ht2.
    { eapply trace_trans; [apply trace_set_fs|].
      apply (trace_set_fs (OpCopy src dst) fs2 (set_fs (OpMkdir dst) fs1 w)). }
    unfold rmtree_strict. change (w_fs w2) with fs2. rewrite Hs2.
    destruct (ext_rmtree_left E (length (w_obs w2)) src (Dir m)) as [rest|];
      intros [= <- <-]; right; exists (Dir m); eexists;
      (split_and!; [eapply trace_trans; [exact Ht2 | apply trace_set_fs]
                   |done|done| | |done]).
    + simpl. destruct (insert_path src rest fs2) as [fs3|] eqn:Hi3; simpl; [|done].
      by rewrite (lookup_insert_path_ne _ dst _ _ _ Hi3).
    + by right.
    + simpl. by rewrite lookup_remove_path_ne.
    + by left.
Qed.

End Moves.

(** A rename to a free name in the same directory empties the source. *)
Lemma move_to_sibling_source dst name n fs fs' :
  lookup_path dst fs = Some n →
  lookup_path (pjoin (parent dst) name) fs = None →
  ¬ dst `prefix_of` pjoin (parent dst) name →
  insert_path (pjoin (parent dst) name) n (remove_path dst fs) = Some fs' →
  lookup_path dst fs' = None.
Proof.
  intros Hdst Hfree Hpre Hins.
  assert (dst ≠ []) as Hne by (intros ->; apply Hpre, prefix_nil).
  assert (name ≠ pname dst) as Hname.
  { intros ->. rewrite <- (path_split dst Hne) in Hfree. congruence. }
  pose proof (siblings_apart (parent dst) name (pname dst) Hname) as [H1 H2].
  rewrite <- (path_split dst Hne) in H1, H2.
  rewrite (lookup_insert_path_ne _ dst _ _ _ Hins) by done.
  by apply lookup_remove_path_eq.
Qed.

Section Aside.

Variable E : Ext.

Lemma backup_tag_ok local w : tag_ok E local (backup_tag E local w).1.
Proof.
  unfold backup_tag, tag_ok, time_now. destruct local as [rev|]; [|simpl; eauto].
  destruct (Py.truthy rev); simpl; eauto.
Qed.

Lemma backup_loop_reached fuel dst local i cand w :
  ∃ j, reached E (w_fs w) dst local i cand j (backup_loop E fuel dst local i cand w).1.
Proof.
  revert i cand w. induction fuel as [|fuel IH]; intros i cand w; simpl.
  - exists i. case_match; constructor.
  - destruct (path_exists cand (w_fs w)) eqn:Hex; [|exists i; constructor].
    pose proof (backup_tag_ok local w) as Htag.
    pose proof (backup_tag_fs E local w) as Hfs.
    destruct (backup_tag E local w) as [tag w1]. simpl in *.
    destruct (IH (S i) (pjoin (parent dst)
      (pname dst +:+ "_backup_" +:+ tag +:+ "_" +:+ pretty (S i))) w1) as [j Hj].
    exists j. rewrite Hfs in Hj. by eapply reached_next.
Qed.

Lemma reached_shape fs dst local i c j b :
  reached E fs dst local i c j b →
  (j = i ∧ b = c) ∨ (∃ tag, tag_ok E local tag ∧ (i < j)%nat ∧ b = backup_candidate dst tag j).
Proof.
  induction 1 as [|i c tag j b Hex Htag Hr IH]; [by left|]. right.
  destruct IH as [[-> ->] | (tag' & ? & ? & ->)].
  - exists tag. split_and!; [done | lia | done].
  - exists tag'. split_and!; [done | lia | done].
Qed.

(** Lines 206-213: what happens to an existing destination.  It is
    renamed, in one step, to a name of its directory that was free, reached
    from the plain backup name through the taken numbered ones. *)
Lemma move_aside_spec dst local w r w' :
  move_aside E dst local w = (r, w') →
  (path_exists dst (w_fs w) = false ∧ r = Val None ∧ w' = w)
  ∨ (path_exists dst (w_fs w) = true ∧ ∃ e, r = Exn e ∧ trace w w' [])
  ∨ (∃ bp n fs' tag j,
       r = Val (Some bp)
       ∧ trace w w' [mkFsStep (w_fs w) (OpMove dst bp) fs']
       ∧ w_fs w' = fs'
       ∧ lookup_path dst (w_fs w) = Some n
       ∧ tag_ok E local tag
       ∧ reached E (w_fs w) dst local 0 (backup_candidate dst tag 0) j bp
       ∧ lookup_path bp (w_fs w) = None
       ∧ insert_path bp n (remove_path dst (w_fs w)) = Some fs'
       ∧ lookup_path bp fs' = Some n
       ∧ lookup_path dst fs' = None).
Proof.
  unfold move_aside. destruct (path_exists dst (w_fs w)) eqn:Hex;
    [|intros [= <- <-]; by left].
  intros H. right.
  pose proof (backup_tag_ok local w) as Htag.
  pose proof (backup_tag_fs E local w) as Hfs1.
  pose proof (backup_tag_obs E local w) as Hobs1.
  destruct (backup_tag E local w) as [tag w1]. cbn [fst snd] in Htag, Hfs1, Hobs1.
  pose proof (backup_loop_free E dst local tag w1) as Hfree.
  destruct (backup_loop_reached (backup_fuel dst w1) dst local 0
    (pjoin (parent dst) (pname dst +:+ "_backup_" +:+ tag)) w1) as [j Hreach].
  destruct (backup_loop_frame E (backup_fuel dst w1) dst local 0
    (pjoin (parent dst) (pname dst +:+ "_backup_" +:+ tag)) w1) as (Hfs2 & Hobs2 & _).
  cbv zeta in Hfree.
  destruct (backup_loop E (backup_fuel dst w1) dst local 0 _ w1) as [bp w2].
  cbn [fst snd] in Hfree, Hreach, Hfs2, Hobs2.
  apply path_exists_false in Hfree.
  assert (trace w w2 []) as Htr
    by (apply trace_same; congruence).
  assert (∃ name, bp = pjoin (parent dst) name) as [name ->].
  { apply reached_shape in Hreach as [[_ ->] | (tag' & _ & Hlt & ->)];
      unfold backup_candidate; [eauto|]. destruct j; [lia|eauto]. }
  destruct (move E dst (pjoin (parent dst) name) w2) as [r0 w3] eqn:Hmove.
  destruct (can_rename E dst (pjoin (parent dst) name) (w_fs w2)) eqn:Hcan.
  2:{ (* no rename: the destination is the root, and nothing is moved *)
    destruct (move_onto_free E _ _ _ _ _ Hfree Hmove)
      as [(e & -> & ->) | (n & a & _ & Hsrc & Hpre & _)].
    - injection H as <- <-. left. eauto.
    - exfalso. unfold can_rename in Hcan. rewrite parent_pjoin in Hcan.
      rewrite bool_decide_eq_true_2 in Hcan by done. simpl in Hcan.
      destruct (decide (dst = [])) as [->|Hne]; [apply Hpre, prefix_nil|].
      destruct (lookup_parent_dir dst (w_fs w2) Hne) as [m Hm]; [by rewrite Hsrc|].
      by rewrite Hm in Hcan. }
  destruct (move_rename_onto_free E _ _ _ _ _ Hfree Hcan Hmove)
    as [(e & -> & ->) | (n & fs' & -> & -> & Hsrc & Hins & Hpre & Hbp)].
  - injection H as <- <-. left. eauto.
  - injection H as <- <-. right. exists (pjoin (parent dst) name), n, fs', tag, j.
    rewrite Hfs2, Hfs1 in *.
    split_and!; try done.
    + replace [mkFsStep (w_fs w) (OpMove dst (pjoin (parent dst) name)) fs']
        with ([mkFsStep (w_fs w) (OpMove dst (pjoin (parent dst) name)) fs'] ++ [])
        by done.
      eapply trace_trans; [exact Htr|].
      rewrite <- Hfs2. apply trace_set_fs.
    + by eapply move_to_sibling_source.
Qed.

End Aside.

(** ** The two halves of a swap *)

Section Swap.

Variable E : Ext.

Lemma move_aside_steps dst local w r w' :
  move_aside E dst local w = (r, w') →
  (∃ e, r = Exn e ∧ trace w w' [])
  ∨ (∃ backup steps,
       r = Val backup ∧ trace w w' steps
       ∧ aside_steps E dst local (w_fs w) backup steps (w_fs w')).
Proof.
  intros H. apply move_aside_spec in H
    as [(Hex & -> & ->) | [(_ & e & -> & Ht) | (bp & n & fs' & tag & j & H)]].
  - right. exists None, []. apply path_exists_false in Hex.
    split_and!; try done. by apply trace_same.
  - left. eauto.
  - destruct H as (-> & Ht & Hfs & Hdst & Htag & Hr & Hfree & Hins & Hbp & Hgone).
    right. exists (Some bp), [mkFsStep (w_fs w) (OpMove dst bp) fs'].
    split_and!; try done. simpl. rewrite Hfs. exists n, tag, j. by split_and!.
Qed.

(** Lines 199-218, step by step. *)
Lemma sync_swap_steps dst s w r w' :
  sync_swap E dst s w = (r, w') →
  let tmp := sg_tmp_dir s in
  ∃ added, trace w w' added ∧
    ((found_ipynb tmp w = []
      ∧ r = Val (mkUpdateResult false (Some (sg_remote_sha s))
                   (Some "No notebooks found in strategies repo") None)
      ∧ w' = rmtree E tmp w
      ∧ Forall (writes_at tmp) added)
     ∨ (found_ipynb tmp w ≠ [] ∧ added = [] ∧ ∃ e, r = Exn e)
     ∨ (found_ipynb tmp w ≠ [] ∧ ∃ backup steps mid,
          aside_steps E dst (sg_local_sha s) (w_fs w) backup steps mid
          ∧ ((added = steps ∧ ∃ e, r = Exn e)
             ∨ (∃ n a2,
                  added = a2 ++ steps
                  ∧ chain mid a2 (w_fs w')
                  ∧ lookup_path tmp mid = Some n
                  ∧ lookup_path dst (w_fs w') = Some n
                  ∧ (r = Val (mkUpdateResult true (Some (sg_remote_sha s)) None
                                (path_str <$> backup))
                     ∨ (can_rename E tmp dst mid = false
                        ∧ r = Exn "PermissionError"))
                  ∧ (can_rename E tmp dst mid = true →
                     r = Val (mkUpdateResult true (Some (sg_remote_sha s)) None
                                (path_str <$> backup))
                     ∧ a2 = [mkFsStep mid (OpMove tmp dst) (w_fs w')]))))).
Proof.
  intros H tmp. unfold sync_swap in H. fold tmp in H.
  destruct (found_ipynb tmp w) as [|p ps] eqn:Hfound.
  { injection H as <- <-. destruct (rmtree_trace E tmp w) as (a & Ht & Ha).
    exists a. split; [done|]. left. by split_and!. }
  destruct (move_aside E dst (sg_local_sha s) w) as [rb w1] eqn:Haside.
  apply move_aside_steps in Haside
    as [(e & -> & Ht) | (backup & steps & -> & Ht & Hsteps)].
  { injection H as <- <-. exists []. split; [done|]. right. left. eauto. }
  assert (lookup_path dst (w_fs w1) = None) as Hgone.
  { destruct backup as [bp|]; simpl in Hsteps.
    - by destruct Hsteps as (? & ? & ? & ? & ? & ? & ? & ? & ? & ? & ?).
    - destruct Hsteps as (_ & -> & ?). done. }
  destruct (move E tmp dst w1) as [r2 w2] eqn:Hmove.
  destruct (move_onto_free E _ _ _ _ _ Hgone Hmove)
    as [(e & -> & ->) | (n & a2 & Ht2 & Hsrc & Hpre & Hdst & Hr & Hren)].
  - injection H as <- <-. exists steps. split; [done|]. right. right.
    split; [done|]. exists backup, steps, (w_fs w1). split; [done|]. left. eauto.
  - assert (w' = w2
            ∧ r = match r2 with
                  | Val _ => Val (mkUpdateResult true (Some (sg_remote_sha s)) None
                                    (path_str <$> backup))
                  | Exn e => Exn e
                  end) as [-> ->]
      by (destruct r2; by injection H as <- <-).
    exists (a2 ++ steps). split; [by eapply trace_trans|]. right. right.
    split; [done|]. exists backup, steps, (w_fs w1). split; [done|]. right.
    exists n, a2. split_and!; [done | by destruct Ht2 | done | done | |].
    + destruct Hr as [-> | (Hd & ->)]; [by left | by right].
    + intros Hdev. destruct (Hren Hdev) as (-> & fs' & -> & Hins). split; [done|].
      destruct Ht2 as [Ho _]. simpl in Ho.
      change (mkFsStep (w_fs w1) (OpMove tmp dst) fs' :: w_obs w1)
        with ([mkFsStep (w_fs w1) (OpMove tmp dst) fs'] ++ w_obs w1) in Ho.
      by apply app_inv_tail in Ho.
Qed.

End Swap.

Lemma listdir_elem p name fs :
  name ∈ listdir p fs ↔ path_exists (pjoin p name) fs = true.
Proof.
  split; [|apply path_exists_listdir].
  rewrite path_exists_true. unfold listdir, pjoin. rewrite lookup_path_app.
  destruct (lookup_path p fs) as [[c|m]|]; simpl; try by intros ?%elem_of_nil.
  intros ([name' ch] & -> & Hin%elem_of_map_to_list)%list_elem_of_fmap. simpl.
  by rewrite Hin.
Qed.

Lemma prefix_snoc_inv (q p : path) x :
  q `prefix_of` p ++ [x] → q = p ++ [x] ∨ q `prefix_of` p.
Proof.
  intros Hpre.
  destruct (prefix_weak_total q p (p ++ [x]) Hpre (prefix_app_r p p [x] (reflexivity p)))
    as [H|H]; [by right|].
  destruct (decide (length q = length p)) as [Heq|Hne].
  - right. rewrite (prefix_length_eq p q H) by lia. done.
  - left. apply prefix_length_eq; [done|].
    apply prefix_length in H. rewrite length_app. simpl.
    apply prefix_length in Hpre. rewrite length_app in Hpre. simpl in Hpre. lia.
Qed.

(** ** A failed sanity check (C3) *)

(** C3, as stated, fails: the clone brings no notebook, the removal of the
    staging directory leaves behind what it cannot delete, and the call
    returns its error with the staging path still there. *)
Lemma c3_staging_may_remain :
  ¬ (∀ (E : Ext) (repo branch : string) (dst : path) (token : string)
       (w : World) (s : Staged) (w1 : World),
       apart (sg_tmp_dir s) dst →
       sync_stage E repo branch dst token w = (Val (inr s), w1) →
       found_ipynb (sg_tmp_dir s) w1 = [] →
       ∃ w',
         update_strategies_clone_swap E repo branch dst token w
           = (Val (mkUpdateResult false (Some (sg_remote_sha s))
                     (Some "No notebooks found in strategies repo") None), w')
         ∧ lookup_path (sg_tmp_dir s) (w_fs w') = None
         ∧ lookup_path dst (w_fs w') = lookup_path dst (w_fs w)).
Proof.
  intros H.
  set (E := Scenario.undeletable (Dir {[ ".git" := Scenario.blob "pack" ]})
              (Scenario.ext (Scenario.mkAnswers "000000000000"
                               (Some Scenario.empty_clone) Scenario.all_ok true 1 0))).
  set (w := Scenario.world (Scenario.fs_with None (Some Scenario.old_tree) [])).
  set (tmp_dir := pjoin Scenario.tmp "orion_strategies_abc123def456_1700000000").
  destruct (H E "https://github.com/u/r.git" "main" Scenario.strategies "tok" w
              (mkStaged "abc123def456" (Some "000000000000") tmp_dir)
              (sync_stage E "https://github.com/u/r.git" "main" Scenario.strategies
                 "tok" w).2)
    as (w' & Hup & Hgone & _).
  - split; intros [k Hk]; discriminate Hk.
  - apply pair_eq_fst. vm_compute. reflexivity.
  - vm_compute. reflexivity.
  - apply (f_equal snd) in Hup. simpl in Hup. subst w'.
    vm_compute in Hgone. discriminate Hgone.
Qed.

(** C3, amended.  With the staging directory apart from the destination:
    if the clone has been staged and no [*.ipynb] is found under it, then
    [update_strategies_clone_swap] asks for the removal of the staging
    directory, ignoring any failure, and returns the error [No notebooks
    found in strategies repo] with [updated = False].  At the staging path
    stands what the removal left ([left_by_rmtree]): nothing, if it is a
    directory that can be deleted entirely.  What stands at the destination
    is what stood there before the call: no step of the call touched it. *)
Theorem c3_sanity_failure_leaves_destination (E : Ext) (repo branch : string)
    (dst : path) (token : string) (w : World) (s : Staged) (w1 : World) :
  apart (sg_tmp_dir s) dst →
  sync_stage E repo branch dst token w = (Val (inr s), w1) →
  found_ipynb (sg_tmp_dir s) w1 = [] →
  ∃ w' added,
    update_strategies_clone_swap E repo branch dst token w
      = (Val (mkUpdateResult false (Some (sg_remote_sha s))
                (Some "No notebooks found in strategies repo") None), w')
    ∧ lookup_path (sg_tmp_dir s) (w_fs w') = left_by_rmtree E (sg_tmp_dir s) w1
    ∧ lookup_path dst (w_fs w') = lookup_path dst (w_fs w)
    ∧ trace w w' added ∧ Forall (untouched dst) added.
Proof.
  intros Hap Hstage Hfound.
  destruct (sync_stage_trace E _ _ _ _ _ _ _ Hstage) as (a1 & name & Ht1 & Ha1 & Htmp).
  specialize (Htmp s eq_refl).
  unfold update_strategies_clone_swap. rewrite Hstage. unfold sync_swap.
  rewrite Hfound.
  destruct (rmtree_trace E (sg_tmp_dir s) w1) as (a2 & Ht2 & Ha2).
  exists (rmtree E (sg_tmp_dir s) w1), (a2 ++ a1).
  assert (Forall (untouched dst) (a2 ++ a1)) as Hall.
  { apply Forall_app. split.
    - eapply Forall_impl; [exact Ha2|]. intros st Hst. by apply Hst.
    - eapply Forall_impl; [exact Ha1|]. intros st Hst. apply Hst. by rewrite <- Htmp. }
  assert (trace w (rmtree E (sg_tmp_dir s) w1) (a2 ++ a1)) as Htr
    by (by eapply trace_trans).
  split_and!; try done.
  - apply rmtree_lookup. rewrite Htmp. unfold pjoin. by destruct (ext_tempdir E).
  - destruct Htr as [_ Hc]. by eapply chain_untouched.
Qed.

(** ** The backup of a swap (C9) *)

(** C9.  When [update_strategies_clone_swap] returns with a backup path,
    one of its steps is the rename of the destination to that path.  The
    path is an entry of the destination's directory whose name stood for
    nothing just before the rename, so it differs from every sibling there;
    it is the plain name [<name>_backup_<tag>] or, after every earlier
    candidate was found taken, the numbered name
    [<name>_backup_<tag>_<j>], where each tag is the local revision, or a
    clock reading if no revision is known.  After the rename the whole
    previous tree stands at the backup path.  The loop that looks for the
    name always ends ([backup_loop_free]). *)
Theorem c9_backup_name_is_free (E : Ext) (repo branch : string) (dst : path)
    (token : string) (w : World) (out : UpdateResult) (w' : World) (b : string) :
  update_strategies_clone_swap E repo branch dst token w = (Val out, w') →
  ur_backup out = Some b →
  ∃ s w1 added bp tag tag' j before after,
    sync_stage E repo branch dst token w = (Val (inr s), w1)
    ∧ ur_updated out = true
    ∧ b = path_str bp
    ∧ trace w w' added
    ∧ mkFsStep before (OpMove dst bp) after ∈ added
    ∧ tag_ok E (sg_local_sha s) tag
    ∧ reached E before dst (sg_local_sha s) 0 (backup_candidate dst tag 0) j bp
    ∧ tag_ok E (sg_local_sha s) tag'
    ∧ bp = backup_candidate dst tag' j
    ∧ lookup_path bp before = None
    ∧ (pname bp ∉ listdir (parent dst) before)
    ∧ is_Some (lookup_path dst before)
    ∧ lookup_path bp after = lookup_path dst before
    ∧ lookup_path dst after = None.
Proof.
  unfold update_strategies_clone_swap. intros H Hb.
  destruct (sync_stage E repo branch dst token w) as [[[o|s]|e] w1] eqn:Hstage;
    [| |done].
  { injection H as <- <-.
    unfold sync_stage in Hstage. repeat case_match; by simplify_eq. }
  destruct (sync_stage_trace E _ _ _ _ _ _ _ Hstage) as (a1 & name & Ht1 & _ & _).
  destruct (sync_swap_steps E _ _ _ _ _ H) as (a2 & Ht2 & Hcases).
  destruct Hcases as [(_ & Hr & _) | [(_ & _ & e & Hr) | (_ & Hcase)]];
    [by simplify_eq..|].
  destruct Hcase as (backup & steps & mid & Hsteps & [(_ & e & Hr) | Hmoved]);
    [by simplify_eq|].
  destruct Hmoved as (n & a2' & -> & Hc2 & Htmp & Hdst & Hr & _).
  destruct Hr as [[= ->] | (_ & [=])].
  simpl in Hb. destruct backup as [bp|]; [|done]. simpl in Hb, Hsteps.
  injection Hb as <-.
  destruct Hsteps as (n0 & tag & j & -> & Hd & Htag & Hreach & Hfree & Hins & Hbp & Hgone).
  assert (∃ tag', tag_ok E (sg_local_sha s) tag' ∧ bp = backup_candidate dst tag' j)
    as (tag' & Htag' & Hshape).
  { apply reached_shape in Hreach as [[-> ->] | (tag' & ? & ? & ->)]; eauto. }
  exists s, w1, ((a2' ++ [mkFsStep (w_fs w1) (OpMove dst bp) mid]) ++ a1),
    bp, tag, tag', j, (w_fs w1), mid.
  split_and!; try done.
  - by eapply trace_trans.
  - apply elem_of_app. left. apply elem_of_app. right. apply list_elem_of_here.
  - rewrite listdir_elem. rewrite Hshape at 1. unfold backup_candidate at 1.
    rewrite pname_pjoin. fold (backup_candidate dst tag' j). rewrite <- Hshape.
    apply not_true_iff_false. by apply path_exists_false.
  - congruence.
Qed.

(** ** What can be seen at the destination during a swap (C1) *)


(** ** When the renames succeed *)


Section Succeeds.

Variable E : Ext.




End Succeeds.

(** ** A destination without version-control metadata (C4) *)

Section NoMetadata.

Variable E : Ext.

(** Putting the destination aside does not disturb the staged tree. *)
Lemma aside_keeps_staging dst local fs backup steps mid tmp :
  apart tmp dst → is_Some (lookup_path tmp fs) →
  aside_steps E dst local fs backup steps mid →
  lookup_path tmp mid = lookup_path tmp fs.
Proof.
  intros Hap Hstaged Hsteps.
  assert (dst ≠ []) as Hne.
  { intros ->. destruct Hap as [_ Hp]. apply Hp, prefix_nil. }
  destruct backup as [bp|]; simpl in Hsteps; [|by destruct Hsteps as (_ & -> & _)].
  destruct Hsteps as (n0 & tag & j & -> & Hd & Htag & Hreach & Hfree & Hins & Hbp & Hgone).
  assert (∃ nm, bp = pjoin (parent dst) nm) as [nm ->].
  { apply reached_shape in Hreach as [[_ ->] | (tag' & _ & _ & ->)];
      unfold backup_candidate; eauto. }
  rewrite (lookup_insert_path_ne _ tmp _ _ _ Hins).
  - apply lookup_remove_path_ne; apply Hap.
  - intros Hpre. destruct Hstaged as [x Hx].
    by rewrite (lookup_path_prefix_None _ _ _ Hpre Hfree) in Hx.
  - intros [Heq | Hpre]%prefix_snoc_inv.
    + unfold pjoin in Hfree. rewrite <- Heq in Hfree. rewrite Hfree in Hstaged.
      by destruct Hstaged.
    + destruct Hap as [Hap _]. apply Hap.
      rewrite (path_split dst Hne). by apply prefix_app_r.
Qed.

Lemma chain_last fs0 s l fs1 : chain fs0 (s :: l) fs1 → fs1 = step_after s.
Proof. by inversion 1. Qed.



End NoMetadata.



(** ** Swap disabled (C5) *)

Lemma run_cmd_log E c cwd env w :
  w_log (run_cmd E c cwd env w).2
    = mkLogEntry c cwd (run_cmd E c cwd env w).1 :: w_log w.
Proof.
  unfold run_cmd.
  destruct (ext_proc E (length (w_log w)) c cwd env (w_fs w)) as [out eff].
  by destruct (cmd_target c cwd).
Qed.

(** C5, as stated, fails: with swap disabled and no destination, a run
    clones nothing. *)
Lemma c5_run_without_swap_clones_nothing :
  ¬ (∀ (E : Ext) (w : World) (home : path) (cfg : OpsConfig),
       find_orion_home E w = Val home →
       load_ops_config home w = Val cfg →
       oc_use_clone_swap cfg = false →
       path_exists (pjoin home STRATEGIES_DIRNAME) (w_fs w) = false →
       ∃ e, e ∈ w_log (main E w).2 ∧ is_clone (le_cmd e) = true).
Proof.
  intros H.
  destruct (H (Scenario.ext (Scenario.mkAnswers EmptyString (Some Scenario.new_tree)
                               Scenario.all_ok true 1 0))
              (Scenario.world (Scenario.fs_with (Some false) None []))
              Scenario.home
              (mkOpsConfig "https://github.com/bohdan6992/OriON-strategies.git" "main"
                 "https://github.com/bohdan6992/OriON-stats.git" "main" "root"
                 EmptyString false))
    as (e & He & _); [by vm_compute..|].
  vm_compute in He. by apply elem_of_nil in He.
Qed.

(** C5, amended.  With swap disabled the synchronisation step of a run
    changes nothing in the world, so runs no command, and records
    [strategies_updated = False].  The path without swap is
    [ensure_repo_checkout], which the run does not call: on an absent
    destination it runs one shallow clone into it and returns [updated =
    True] (or raises if the clone fails); on a checkout it runs fetch,
    checkout, pull and stops at the first that fails, returning that step's
    message with [updated = False]. *)
Theorem c5_swap_disabled (E : Ext) :
  (∀ home cfg token r,
     oc_use_clone_swap cfg = false →
     run_world (phase_sync E home cfg token r) = run_world r
     ∧ gh_strategies_updated (st_github (run_status (phase_sync E home cfg token r)))
         = Some false)
  ∧ (∀ repo branch dst otoken w,
       path_exists dst (w_fs w) = false →
       ∃ e w',
         w_log w' = e :: w_log w
         ∧ le_cmd e = GitClone branch (GitOps.with_token_https repo otoken) dst
         ∧ GitOps.ensure_repo_checkout E repo branch dst otoken w
             = (if decide (le_code e ≠ 0)
                then Exn ("git clone failed: "
                          +:+ Py.or (Py.strip (le_stderr e)) (Py.strip (le_stdout e)))
                else Val (GitOps.mkEnsureResult true None), w'))
  ∧ (∀ repo branch dst otoken w,
       path_exists dst (w_fs w) = true →
       path_exists (pjoin dst ".git") (w_fs w) = true →
       ∃ res w' added,
         GitOps.ensure_repo_checkout E repo branch dst otoken w = (Val res, w')
         ∧ w_log w' = added ++ w_log w
         ∧ fetch_checkout_pull branch dst added res).
Proof.
  split_and!.
  - intros home cfg token r Hoff. unfold phase_sync. by rewrite Hoff.
  - intros repo branch dst otoken w Habs.
    unfold GitOps.ensure_repo_checkout, GitOps.clone_depth1. rewrite Habs. simpl negb.
    cbv iota.
    pose proof (run_cmd_log E (GitClone branch (GitOps.with_token_https repo otoken) dst)
                  (ext_tempdir E) [] w) as Hlog.
    destruct (run_cmd E _ _ _ w) as [[[code so] se] w2]. simpl in Hlog.
    eexists _, w2. split; [exact Hlog|]. split; [done|].
    unfold le_code, le_stderr, le_stdout. simpl. by case_decide.
  - intros repo branch dst otoken w Hex Hgit.
    unfold GitOps.ensure_repo_checkout. rewrite Hex, Hgit. simpl negb. cbv iota.
    pose proof (run_cmd_log E (GitFetch branch) dst [] w) as Hl1.
    destruct (run_cmd E (GitFetch branch) dst [] w) as [[[c1 so1] se1] w1].
    simpl in Hl1.
    set (f := mkLogEntry (GitFetch branch) dst (c1, so1, se1)) in *.
    case_decide as H1.
    { exists (failed_step f), w1, [f]. split_and!; [done..|].
      exists f. split_and!; [done..|]. left. by split_and!. }
    pose proof (run_cmd_log E (GitCheckout branch) dst [] w1) as Hl2.
    destruct (run_cmd E (GitCheckout branch) dst [] w1) as [[[c2 so2] se2] w2].
    simpl in Hl2.
    set (c := mkLogEntry (GitCheckout branch) dst (c2, so2, se2)) in *.
    case_decide as H2.
    { exists (failed_step c), w2, [c; f]. split_and!; [done | by rewrite Hl2, Hl1 |].
      exists f. split_and!; [done..|]. right. split; [unfold le_code; simpl; lia|].
      exists c. split_and!; [done..|]. left. by split_and!. }
    pose proof (run_cmd_log E (GitPull branch) dst [] w2) as Hl3.
    destruct (run_cmd E (GitPull branch) dst [] w2) as [[[c3 so3] se3] w3].
    simpl in Hl3.
    set (p := mkLogEntry (GitPull branch) dst (c3, so3, se3)) in *.
    assert (fetch_checkout_pull branch dst [p; c; f]
              (if decide (c3 ≠ 0) then failed_step p
               else GitOps.mkEnsureResult true None)) as Hspec.
    { exists f. split_and!; [done..|]. right. split; [unfold le_code; simpl; lia|].
      exists c. split_and!; [done..|]. right. split; [unfold le_code; simpl; lia|].
      exists p. split_and!; [done..|].
      case_decide; [left | right]; (split; [unfold le_code; simpl; lia | done]). }
    case_decide as H3.
    + exists (failed_step p), w3, [p; c; f].
      split_and!; [done | by rewrite Hl3, Hl2, Hl1 | done].
    + exists (GitOps.mkEnsureResult true None), w3, [p; c; f].
      split_and!; [done | by rewrite Hl3, Hl2, Hl1 | done].
Qed.

(** ** Publishing (C8) *)

Lemma mkdir_p_log p w : w_log (mkdir_p p w).2 = w_log w.
Proof. unfold mkdir_p. by repeat case_match. Qed.

Lemma copytree_log src dst w : w_log (copytree src dst w).2 = w_log w.
Proof. unfold copytree. by repeat case_match. Qed.

Lemma write_file_log p c w : w_log (write_file p c w).2 = w_log w.
Proof. unfold write_file. by repeat case_match. Qed.

Section Publish.

Variable E : Ext.

Ltac run_step H :=
  match goal with
  | |- context [run_cmd E ?c ?cwd ?env ?w] =>
      pose proof (run_cmd_log E c cwd env w) as H;
      destruct (run_cmd E c cwd env w) as [[[? ?] ?] ?]; simpl in H
  end.

Lemma publish_commit_outcome branch tmp_dir add_signals add_status ts w :
  ∃ after d a2 a1 res w',
    publish_commit E branch tmp_dir add_signals add_status ts w = (Val res, w')
    ∧ w_log w' = after ++ [d; a2; a1] ++ w_log w
    ∧ le_cmd d = GitDiffCachedQuiet
    ∧ le_cmd a2 = GitAdd add_status ∧ le_cmd a1 = GitAdd add_signals
    ∧ staged_diff_outcome after d res.
Proof.
  unfold publish_commit.
  run_step H1. run_step H2. run_step H3.
  match goal with H : w_log _ = mkLogEntry GitDiffCachedQuiet _ (?c, ?so, ?se) :: _ |- _ =>
    set (d := mkLogEntry GitDiffCachedQuiet tmp_dir (c, so, se)) in * end.
  case_decide as Hd.
  { eexists [], d, _, _, _, _. split_and!; [done | by rewrite H3, H2, H1 | done..|].
    left. by split_and!. }
  run_step H4. run_step H5. run_step H6.
  match goal with H : w_log _ = mkLogEntry (GitCommit ?m) _ (?c, ?so, ?se) :: _ |- _ =>
    set (cm := mkLogEntry (GitCommit m) tmp_dir (c, so, se)) in * end.
  case_decide as Hc.
  { eexists [cm; _; _], d, _, _, _, _.
    split_and!; [done | by rewrite H6, H5, H4, H3, H2, H1 | done..|].
    right. split; [done|]. eexists _, _, cm, [].
    split_and!; [done | done | done | by eexists |]. left. by split_and!; eauto. }
  run_step H7. run_step H8.
  match goal with H : w_log _ = mkLogEntry GitRevParseHead _ (?c, ?so, ?se) :: _ |- _ =>
    set (rp := mkLogEntry GitRevParseHead tmp_dir (c, so, se)) in * end.
  match goal with H : w_log _ = mkLogEntry (GitPush branch) _ (?c, ?so, ?se) :: _ |- _ =>
    set (pu := mkLogEntry (GitPush branch) tmp_dir (c, so, se)) in * end.
  assert (le_code cm = 0) as Hcm0 by (unfold le_code; simpl; lia).
  case_decide as Hp.
  - eexists [pu; rp; cm; _; _], d, _, _, _, _.
    split_and!; [done | by rewrite H8, H7, H6, H5, H4, H3, H2, H1 | done..|].
    right. split; [done|]. eexists _, _, cm, [pu; rp].
    split_and!; [done | done | done | by eexists |]. right. split; [done|].
    exists rp, pu. split_and!; [done | done | by eexists | done | |].
    + simpl. by rewrite bool_decide_eq_false_2.
    + simpl. split; [done | intros [=]].
  - eexists [pu; rp; cm; _; _], d, _, _, _, _.
    split_and!; [done | by rewrite H8, H7, H6, H5, H4, H3, H2, H1 | done..|].
    right. split; [done|]. eexists _, _, cm, [pu; rp].
    split_and!; [done | done | done | by eexists |]. right. split; [done|].
    exists rp, pu. split_and!; [done | done | by eexists | done | |].
    + simpl. rewrite bool_decide_eq_true_2; [done | unfold le_code; simpl; lia].
    + simpl. split; [done | intros _; unfold le_code; simpl; lia].
Qed.

Lemma publish_overlay_log url branch token home tmp_dir use_subdir subdir w r w' :
  publish_overlay E url branch token home tmp_dir use_subdir subdir w = (r, w') →
  ∃ cl, w_log w' = cl :: w_log w
    ∧ is_clone (le_cmd cl) = true
    ∧ ∀ res, r = Val (inl res) →
        pr_pushed res = false ∧ pr_commit res = None ∧ is_Some (pr_error res).
Proof.
  unfold publish_overlay.
  run_step Hcl. intros H.
  match type of Hcl with _ = ?e :: _ => exists e end. rewrite <- Hcl. revert H.
  case_decide; [intros [= <- <-]; split_and!; [done..|]; by intros ? [= <-]|].
  case_match; [intros [= <- <-]; split_and!; [done..|]; by intros ? [= <-]|].
  match goal with |- context [mkdir_p ?p ?w0] =>
    pose proof (mkdir_p_log p w0) as Hmk; destruct (mkdir_p p w0) as [[[]|e] w1];
    simpl in Hmk end; [|intros [= <- <-]; by split_and!].
  set (wa := if path_exists _ (w_fs w1) then rmtree E _ w1 else w1).
  assert (w_log wa = w_log w1) as Ha
    by (subst wa; case_match; [apply rmtree_log | done]).
  set (wb := if path_exists _ (w_fs wa) then rmtree E _ wa else wa).
  assert (w_log wb = w_log wa) as Hb
    by (subst wb; case_match; [apply rmtree_log | done]).
  set (c1 := if path_exists _ (w_fs wb) then copytree _ _ wb else (Val (), wb)).
  assert (w_log c1.2 = w_log wb) as Hc1 by (subst c1; case_match; [apply copytree_log|done]).
  destruct c1 as [[[]|e] wc]; simpl in Hc1;
    [|intros [= <- <-]; split_and!; [congruence | done..]].
  set (c2 := if path_exists _ (w_fs wc) then copytree _ _ wc else (Val (), wc)).
  assert (w_log c2.2 = w_log wc) as Hc2 by (subst c2; case_match; [apply copytree_log|done]).
  destruct c2 as [[[]|e] wd]; simpl in Hc2;
    intros [= <- <-]; split_and!; (congruence || done).
Qed.

End Publish.

Section PublishCalls.

Variable E : Ext.

Ltac run_step H :=
  match goal with
  | |- context [run_cmd E ?c ?cwd ?env ?w] =>
      pose proof (run_cmd_log E c cwd env w) as H;
      destruct (run_cmd E c cwd env w) as [[[? ?] ?] ?]; simpl in H
  end.

Lemma add_all_log repo_dir add_paths w :
  ∃ adds, w_log (GitOps.add_all E repo_dir add_paths w) = adds ++ w_log w
    ∧ Forall (λ e, ∃ p, le_cmd e = GitAdd p) adds.
Proof.
  revert w. induction add_paths as [|p rest IH]; intros w; simpl.
  - exists []. by split.
  - destruct (IH (run_cmd E (GitAdd p) repo_dir [] w).2) as (adds & Hl & Ha).
    rewrite run_cmd_log in Hl.
    exists (adds ++ [mkLogEntry (GitAdd p) repo_dir (run_cmd E (GitAdd p) repo_dir [] w).1]).
    split; [by rewrite Hl, <- (assoc_L (++))|].
    apply Forall_app. split; [done|]. constructor; [by eexists | constructor].
Qed.

Lemma git_add_commit_push_outcome repo_dir message add_paths branch w :
  ∃ after d adds,
    let r := GitOps.git_add_commit_push E repo_dir message add_paths branch w in
    w_log r.2 = after ++ d :: adds ++ w_log w
    ∧ le_cmd d = GitDiffCachedQuiet
    ∧ Forall (λ e, ∃ p, le_cmd e = GitAdd p) adds
    ∧ staged_diff_outcome after d r.1.
Proof.
  unfold GitOps.git_add_commit_push.
  destruct (add_all_log repo_dir add_paths w) as (adds & Hl0 & Hadds).
  set (w0 := GitOps.add_all E repo_dir add_paths w) in *.
  run_step H3.
  match goal with H : w_log _ = mkLogEntry GitDiffCachedQuiet _ (?c, ?so, ?se) :: _ |- _ =>
    set (d := mkLogEntry GitDiffCachedQuiet repo_dir (c, so, se)) in * end.
  case_decide as Hd.
  { exists [], d, adds. simpl. split_and!; [by rewrite H3, Hl0 | done..|].
    left. by split_and!. }
  run_step H4. run_step H5. run_step H6.
  match goal with H : w_log _ = mkLogEntry (GitCommit ?m) _ (?c, ?so, ?se) :: _ |- _ =>
    set (cm := mkLogEntry (GitCommit m) repo_dir (c, so, se)) in * end.
  case_decide as Hc.
  { eexists [cm; _; _], d, adds. simpl.
    split_and!; [by rewrite H6, H5, H4, H3, Hl0 | done..|].
    right. split; [done|]. eexists _, _, cm, [].
    split_and!; [done | done | done | by eexists |]. left. by split_and!; eauto. }
  run_step H7. run_step H8.
  match goal with H : w_log _ = mkLogEntry GitRevParseHead _ (?c, ?so, ?se) :: _ |- _ =>
    set (rp := mkLogEntry GitRevParseHead repo_dir (c, so, se)) in * end.
  match goal with H : w_log _ = mkLogEntry (GitPush branch) _ (?c, ?so, ?se) :: _ |- _ =>
    set (pu := mkLogEntry (GitPush branch) repo_dir (c, so, se)) in * end.
  assert (le_code cm = 0) as Hcm0 by (unfold le_code; simpl; lia).
  case_decide as Hp.
  - eexists [pu; rp; cm; _; _], d, adds. simpl.
    split_and!; [by rewrite H8, H7, H6, H5, H4, H3, Hl0 | done..|].
    right. split; [done|]. eexists _, _, cm, [pu; rp].
    split_and!; [done | done | done | by eexists |]. right. split; [done|].
    exists rp, pu. split_and!; [done | done | by eexists | done | |].
    + simpl. by rewrite bool_decide_eq_false_2.
    + simpl. split; [done | intros [=]].
  - eexists [pu; rp; cm; _; _], d, adds. simpl.
    split_and!; [by rewrite H8, H7, H6, H5, H4, H3, Hl0 | done..|].
    right. split; [done|]. eexists _, _, cm, [pu; rp].
    split_and!; [done | done | done | by eexists |]. right. split; [done|].
    exists rp, pu. split_and!; [done | done | by eexists | done | |].
    + simpl. rewrite bool_decide_eq_true_2; [done | unfold le_code; simpl; lia].
    + simpl. split; [done | intros _; unfold le_code; simpl; lia].
Qed.

Lemma push_results_outcome url branch token home layout subdir w :
  ∃ added,
    let r := push_results_to_repo E url branch token home layout subdir w in
    w_log r.2 = added ++ w_log w ∧ publish_outcome added r.1.
Proof.
  unfold push_results_to_repo, utc_now_iso, time_now.
  set (ts := ext_now_iso E (w_ticks w)).
  set (w0 := tick (tick w)).
  set (tmp_dir := pjoin (ext_tempdir E) _).
  set (sub := Py.strip_char _ _).
  set (use := _ || _).
  destruct (publish_overlay E url branch token home tmp_dir use sub w0)
    as [ro w1] eqn:Hov.
  destruct (publish_overlay_log E _ _ _ _ _ _ _ _ _ _ Hov) as (cl & Hl1 & Hcl & Herr).
  destruct ro as [[res|[a1 a2]]|e].
  - exists [cl]. simpl. rewrite rmtree_log. split; [done|]. left. split.
    + constructor; [|constructor]. by destruct (le_cmd cl).
    + intros res' [= <-]. by apply Herr.
  - destruct (publish_commit_outcome E branch tmp_dir a1 a2 ts w1)
      as (after & d & e2 & e1 & res & w2 & Hpc & Hl2 & Hd & He2 & He1 & Hout).
    rewrite Hpc. exists (after ++ [d; e2; e1; cl]). simpl. rewrite rmtree_log. split.
    + rewrite Hl2, Hl1. by rewrite <- !(assoc_L (++)).
    + right. exists after, d, e2, e1, cl, res. split_and!; eauto.
  - exists [cl]. simpl. rewrite rmtree_log. split; [done|]. left. split.
    + constructor; [|constructor]. by destruct (le_cmd cl).
    + by intros res' [=].
Qed.

End PublishCalls.

(** C8, as stated, fails: the staged diff is not empty, [git commit]
    fails, and the result carries no commit identifier. *)
Lemma c8_commit_may_fail :
  ¬ (∀ (E : Ext) (url branch token : string) (home : path) (layout subdir : string)
       (w : World) (res : PublishResult) (w' : World) (d : LogEntry),
       push_results_to_repo E url branch token home layout subdir w = (Val res, w') →
       d ∈ w_log w' → le_cmd d = GitDiffCachedQuiet → le_code d ≠ 0 →
       is_Some (pr_commit res)).
Proof.
  intros H.
  set (E := Scenario.ext (Scenario.mkAnswers EmptyString (Some Scenario.new_tree)
                            Scenario.all_ok true 1 1)).
  set (w := Scenario.world (Scenario.fs_with None (Some Scenario.old_tree)
                              [("signals", Dir {[ "s.csv" := Scenario.blob "1" ]})])).
  set (r := push_results_to_repo E "https://github.com/u/stats.git" "main" "tok"
              Scenario.home "root" EmptyString w).
  specialize (H E "https://github.com/u/stats.git" "main" "tok" Scenario.home "root"
                EmptyString w
                (mkPublishResult false None (Some "git commit failed: hook declined"))
                r.2 (mkLogEntry GitDiffCachedQuiet
                  ["tmp"; "orion_stats_1700000001"] (1, EmptyString, EmptyString))).
  apply (is_Some_None (A := string)). apply H.
  - apply pair_eq_fst. vm_compute. reflexivity.
  - vm_compute. do 3 apply list_elem_of_further. apply list_elem_of_here.
  - reflexivity.
  - vm_compute. discriminate.
Qed.

(** C8, amended.  Every publish call either ends before anything is
    staged (the clone fails, there is nothing to push, or an exception is
    raised), or clones, stages the two paths and asks for the staged diff.
    If the diff is empty the call returns [pushed = False] with no commit
    and no error, and runs no further command.  If it is not, the call sets
    [user.name] to [orion-bot] and [user.email] to [orion-bot@local] and
    runs [git commit]; if the commit fails it returns an error and no
    commit; if it succeeds, the identifier that [git rev-parse HEAD] reports
    is returned as [commit], and [pushed] tells whether the push succeeded.
    [git_add_commit_push] follows the same protocol. *)
Theorem c8_publish_on_diff (E : Ext) :
  (∀ url branch token home layout subdir w,
     ∃ added,
       let r := push_results_to_repo E url branch token home layout subdir w in
       w_log r.2 = added ++ w_log w ∧ publish_outcome added r.1)
  ∧ (∀ repo_dir message add_paths branch w,
       ∃ after d adds,
         let r := GitOps.git_add_commit_push E repo_dir message add_paths branch w in
         w_log r.2 = after ++ d :: adds ++ w_log w
         ∧ le_cmd d = GitDiffCachedQuiet
         ∧ Forall (λ e, ∃ p, le_cmd e = GitAdd p) adds
         ∧ staged_diff_outcome after d r.1).
Proof.
  split.
  - intros. apply push_results_outcome.
  - intros. apply git_add_commit_push_outcome.
Qed.

(** ** The job pipeline (C6, C7) *)

Lemma mkdir_p_jobs p w : w_jobs (mkdir_p p w).2 = w_jobs w.
Proof. unfold mkdir_p. by repeat case_match. Qed.

Lemma write_file_jobs p c w : w_jobs (write_file p c w).2 = w_jobs w.
Proof. unfold write_file. by repeat case_match. Qed.

(** The text recorded for a failed job is never empty. *)
Lemma job_error_nonempty code so se : job_error code so se ≠ EmptyString.
Proof.
  unfold job_error. change 2000%nat with (S 1999). apply take_nonempty.
  unfold Py.or. destruct (Py.truthy (Py.strip se)) eqn:H1.
  - rewrite H1. by apply truthy_true.
  - destruct (Py.truthy (Py.strip so)) eqn:H2; [by apply truthy_true | done].
Qed.

(** What [write_file] leaves at the path it writes. *)
Lemma write_file_lookup p c w w' :
  write_file p c w = (Val (), w') → lookup_path p (w_fs w') = Some (File c).
Proof.
  unfold write_file. intros H.
  repeat case_match; simplify_eq; simpl; by eapply lookup_insert_path_eq.
Qed.

(** [write_file] changes nothing apart from the path it writes. *)
Lemma write_file_other p q c w :
  apart p q → lookup_path q (w_fs (write_file p c w).2) = lookup_path q (w_fs w).
Proof.
  intros [H1 H2]. unfold write_file.
  repeat case_match; simplify_eq; simpl; try done; by eapply lookup_insert_path_ne.
Qed.

(** After [write_status] has returned, both status files hold the document
    it was given. *)
Lemma write_status_persisted home st w :
  (write_status home st w).1 = Val () →
  persisted home st (w_fs (write_status home st w).2).
Proof.
  unfold write_status.
  destruct (mkdir_p (pjoin home STATUS_DIRNAME) w) as [[[]|e] w1]; [|done].
  destruct (write_file (pjoin (pjoin home STATUS_DIRNAME) "latest.json")
              (StatusJsonFile st) w1) as [[[]|e] w2] eqn:Hj; [|done].
  pose proof (write_file_other (pjoin (pjoin home STATUS_DIRNAME) "latest.md")
                (pjoin (pjoin home STATUS_DIRNAME) "latest.json")
                (StatusMdFile st) w2) as Hkeep.
  destruct (write_file (pjoin (pjoin home STATUS_DIRNAME) "latest.md")
              (StatusMdFile st) w2) as [[[]|e] w3] eqn:Hm; [|done].
  intros _. simpl in *. split.
  - rewrite Hkeep by (by apply siblings_apart). by eapply write_file_lookup.
  - by eapply write_file_lookup.
Qed.

(** Removing the staged secrets does not touch the status files. *)
Lemma cleanup_keeps_status home name w :
  lookup_path (pjoin (pjoin home STATUS_DIRNAME) name)
    (w_fs (cleanup_datum_secrets home w))
  = lookup_path (pjoin (pjoin home STATUS_DIRNAME) name) (w_fs w).
Proof.
  assert (∀ secret w0, secret ≠ STATUS_DIRNAME →
            lookup_path (pjoin (pjoin home STATUS_DIRNAME) name)
              (w_fs (unlink_quiet (pjoin home secret) w0))
            = lookup_path (pjoin (pjoin home STATUS_DIRNAME) name) (w_fs w0)) as Hone.
  { intros secret w0 Hne. unfold unlink_quiet.
    destruct (lookup_path (pjoin home secret) (w_fs w0)) as [[c|m]|]; [|done..].
    assert (apart (pjoin (pjoin home STATUS_DIRNAME) name) (pjoin home secret))
      as [H1 H2] by (apply apart_child, siblings_apart; congruence).
    simpl. by apply lookup_remove_path_ne. }
  unfold cleanup_datum_secrets. by rewrite !Hone.
Qed.

Section Pipeline.

Variable E : Ext.

Lemma run_cmd_jobs c cwd env w : w_jobs (run_cmd E c cwd env w).2 = w_jobs w.
Proof.
  unfold run_cmd.
  destruct (ext_proc E (length (w_log w)) c cwd env (w_fs w)) as [out eff].
  by destruct (cmd_target c cwd).
Qed.

Lemma write_status_jobs home st w : w_jobs (write_status home st w).2 = w_jobs w.
Proof.
  unfold write_status.
  pose proof (mkdir_p_jobs (pjoin home STATUS_DIRNAME) w) as H1.
  destruct (mkdir_p _ w) as [[[]|e] w1]; simpl in H1; [|done].
  pose proof (write_file_jobs (pjoin (pjoin home STATUS_DIRNAME) "latest.json")
                (StatusJsonFile st) w1) as H2.
  destruct (write_file _ _ w1) as [[[]|e] w2]; simpl in H2; [|simpl; congruence].
  rewrite write_file_jobs. congruence.
Qed.

Lemma cleanup_jobs home w : w_jobs (cleanup_datum_secrets home w) = w_jobs w.
Proof. unfold cleanup_datum_secrets, unlink_quiet. by repeat case_match. Qed.

(** [run_notebook] reports each job it is given exactly once, with the
    code it returns; it raises only if the status directory cannot be
    made. *)
Lemma run_notebook_jobs nb cwd env w :
  let out := run_notebook E nb cwd env w in
  match out.1 with
  | Val (code, _, _) => w_jobs out.2 = (nb, code) :: w_jobs w
  | Exn e => w_jobs out.2 = w_jobs w
             ∧ (e = "FileExistsError" ∨ e = "NotADirectoryError")
  end.
Proof.
  unfold run_notebook.
  set (pre := if ext_which_papermill E (length (w_log w)) then (false, w) else _).
  assert (w_jobs pre.2 = w_jobs w) as Hpre.
  { subst pre. case_match; [done|].
    pose proof (run_cmd_jobs PapermillHelp cwd env w) as Hj.
    by destruct (run_cmd E PapermillHelp cwd env w) as [[[??]?]?]. }
  destruct pre as [missing w1]. simpl in Hpre. destruct missing; simpl; [congruence|].
  pose proof (mkdir_p_jobs (parent (pjoin (pjoin cwd STATUS_DIRNAME)
    ("last_" +:+ stem_of (pname nb) +:+ "_out.ipynb"))) w1) as Hmk.
  assert (∀ e, (mkdir_p (parent (pjoin (pjoin cwd STATUS_DIRNAME)
    ("last_" +:+ stem_of (pname nb) +:+ "_out.ipynb"))) w1).1 = Exn e →
    e = "FileExistsError" ∨ e = "NotADirectoryError") as Hexn.
  { intros e. unfold mkdir_p. repeat case_match; simpl; intros [= <-]; eauto. }
  destruct (mkdir_p _ w1) as [[[]|e] w2]; simpl in *.
  - match goal with |- context [run_cmd E ?c cwd env w2] =>
      pose proof (run_cmd_jobs c cwd env w2) as Hj;
      destruct (run_cmd E c cwd env w2) as [[[code so] se] w3] end.
    simpl in *. congruence.
  - split; [congruence | by apply Hexn].
Qed.

Lemma phase_config_strategies home r :
  st_strategies (run_status (phase_config home r).2) = st_strategies (run_status r).
Proof.
  unfold phase_config.
  destruct (load_ops_config home (run_world r)); [|done].
  by destruct (read_github_token home (run_world r)).
Qed.

Lemma phase_sync_strategies home cfg token r :
  st_strategies (run_status (phase_sync E home cfg token r))
    = st_strategies (run_status r).
Proof.
  unfold phase_sync.
  destruct (oc_use_clone_swap cfg); [|done].
  by destruct (update_strategies_clone_swap _ _ _ _ _ _) as [[upd|ex] w].
Qed.

Lemma phase_secrets_strategies home env r :
  st_strategies (run_status (phase_secrets home env r).2)
    = st_strategies (run_status r).
Proof.
  unfold phase_secrets.
  destruct (resolve_datum_secrets _ _ _) as [[cfg_path creds_path]|e]; [|done].
  destruct (_ && _).
  - destruct (stage_datum_secrets _ _ _) as [[[dst_cfg dst_creds]|e] w]; done.
  - done.
Qed.

Lemma abort_primary_strategies home err r :
  st_strategies (run_status (abort_primary E home err r).2)
    = st_strategies (run_status r).
Proof.
  unfold abort_primary.
  destruct (utc_now_iso E (run_world r)) as [ts w].
  by destruct (write_status _ _ _) as [[[]|e] w1].
Qed.

(** The steps before the primary job leave the map of dependent results
    as it is. *)
Lemma main_prelude_strategies home env r out r' :
  main_prelude E home env r = (out, r') →
  st_strategies (run_status r') = st_strategies (run_status r).
Proof.
  unfold main_prelude. intros H.
  pose proof (phase_config_strategies home r) as H1.
  destruct (phase_config home r) as [[[cfg token]|e] r1]; simpl in H1;
    [|by simplify_eq].
  pose proof (phase_sync_strategies home cfg token r1) as H2.
  pose proof (phase_secrets_strategies home env (phase_sync E home cfg token r1)) as H3.
  destruct (phase_secrets home env _) as [[env'|e] r2]; simpl in H3;
    [|simplify_eq; congruence].
  destruct (negb _).
  - pose proof (abort_primary_strategies home
                  ("Missing: " +:+ path_str (pjoin (pjoin home STRATEGIES_DIRNAME)
                                               CRACEN_NOTEBOOK)) r2) as H4.
    destruct (abort_primary _ _ _ _) as [[code|e] r3]; simpl in H4;
      simplify_eq; congruence.
  - simplify_eq. congruence.
Qed.

Lemma dependents_loop_cons home env nb_name rest r :
  dependents_loop E home env (nb_name :: rest) r =
    if decide (nb_name = CRACEN_NOTEBOOK) then dependents_loop E home env rest r
    else
      let nb := pjoin (pjoin home STRATEGIES_DIRNAME) nb_name in
      let name := stem_of nb_name in
      let '(t_s, w) := time_now E (run_world r) in
      match run_notebook E nb home env w with
      | (Exn e, w) => (Exn e, with_world r w)
      | (Val (code, so, se), w) =>
          let '(t_e, w) := time_now E w in
          let info :=
            mkJobInfo (bool_decide (code = 0)) (t_e - t_s)
              (if decide (code ≠ 0) then Some (job_error code so se) else None) in
          dependents_loop E home env rest
            (mkRun (set_strategy name info (run_status r)) (run_staged r) w)
      end.
Proof. done. Qed.



End Pipeline.

(** C6, amended.  Once a run has come to its primary job: if [run_notebook]
    reports a code other than 0 for it, or reports 0 while [final.parquet]
    is absent afterwards, then the exit code is 1 and the status document
    says [cracen.ok = False] with the text of the failure, which is never
    empty: the job's error output, or its output, or its exit code, cut at
    2000 characters, or the note that [final.parquet] is missing.  The
    document's map of dependent results is empty, and no job other than the
    primary one was given to [run_notebook].  The document is what
    [status/latest.json] and [status/latest.md] hold when the run ends,
    unless writing the status files raised; the document then carries a
    [fatal_error]. *)
Theorem c6_primary_failure_aborts (E : Ext) (w w0 w2 : World) (home : path) (t0 : Z)
    (env : list (string * string)) (c : Ctx) (r1 : Run) (code : Z) (so se : string) :
  let final_path := pjoin (pjoin home "CRACEN") "final.parquet" in
  let cracen_nb := pjoin (pjoin home STRATEGIES_DIRNAME) CRACEN_NOTEBOOK in
  let failure :=
    if decide (code ≠ 0) then job_error code so se
    else "CRACEN finished but missing final.parquet: " +:+ path_str final_path in
  main_setup E w = (Val (home, t0, env), w0) →
  main_prelude E home env (mkRun (initial_status E final_path) false w0)
    = (Val (inr c), r1) →
  run_notebook E cracen_nb home (cx_env c) (time_now E (run_world r1)).2
    = (Val (code, so, se), w2) →
  code ≠ 0 ∨ path_exists final_path (w_fs w2) = false →
  ∃ st w',
    main_run E w = (1, Some st, w')
    ∧ (main E w).1 = 1
    ∧ cr_ok (st_cracen st) = false
    ∧ cr_error (st_cracen st) = Some failure
    ∧ failure ≠ EmptyString
    ∧ st_strategies st = ∅
    ∧ w_jobs w' = (cracen_nb, code) :: w_jobs (run_world r1)
    ∧ (persisted home st (w_fs w') ∨ is_Some (st_fatal_error st)).
Proof.
  intros final_path cracen_nb failure Hsetup Hprelude Hrun Hfail.
  pose proof (main_prelude_strategies E _ _ _ _ _ Hprelude) as Hstrat. simpl in Hstrat.
  pose proof (run_notebook_jobs E cracen_nb home (cx_env c)
                (time_now E (run_world r1)).2) as Hjobs.
  cbv zeta in Hjobs. rewrite Hrun in Hjobs. simpl in Hjobs.
  assert (∀ err r,
            st_strategies (run_status r) = ∅ →
            w_jobs (run_world r) = (cracen_nb, code) :: w_jobs (run_world r1) →
            ∃ st w',
              (let '(result, r') :=
                 match abort_primary E home err r with
                 | (Exn e, r') => main_except E home e r'
                 | (Val code', r') => (Val code', r')
                 end in
               (match result with Val code' => code' | Exn _ => 1 end,
                Some (run_status r'),
                if run_staged r' then cleanup_datum_secrets home (run_world r')
                else run_world r')) = (1, Some st, w')
              ∧ cr_ok (st_cracen st) = false
              ∧ cr_error (st_cracen st) = Some err
              ∧ st_strategies st = ∅
              ∧ w_jobs w' = (cracen_nb, code) :: w_jobs (run_world r1)
              ∧ (persisted home st (w_fs w') ∨ is_Some (st_fatal_error st))) as Habort.
  { intros err r Hs Hj. unfold abort_primary, utc_now_iso.
    match goal with |- context [write_status ?h ?s ?x] =>
      pose proof (write_status_jobs h s x) as Hw1;
      pose proof (write_status_persisted h s x) as Hp1;
      destruct (write_status h s x) as [[[]|e] wa] end; simpl in Hw1, Hp1.
    - eexists _, _. split; [reflexivity|]. simpl.
      split_and!; [done | done | done | |].
      + destruct (run_staged r); rewrite ?cleanup_jobs; congruence.
      + left. specialize (Hp1 eq_refl). destruct (run_staged r); [|done].
        destruct Hp1 as [Hj1 Hm1]. split; by rewrite cleanup_keeps_status.
    - unfold main_except, utc_now_iso. simpl.
      match goal with |- context [write_status ?h ?s ?x] =>
        pose proof (write_status_jobs h s x) as Hw2;
        destruct (write_status h s x) as [[[]|e2] wb] end; simpl in Hw2;
        (eexists _, _; split; [reflexivity|]; simpl;
         split_and!; [done | done | done | | right; by eexists];
         destruct (run_staged r); rewrite ?cleanup_jobs; congruence). }
  assert (failure ≠ EmptyString) as Hne.
  { subst failure. case_decide; [apply job_error_nonempty | done]. }
  assert (∃ st w', main_run E w = (1, Some st, w')
            ∧ cr_ok (st_cracen st) = false
            ∧ cr_error (st_cracen st) = Some failure
            ∧ st_strategies st = ∅
            ∧ w_jobs w' = (cracen_nb, code) :: w_jobs (run_world r1)
            ∧ (persisted home st (w_fs w') ∨ is_Some (st_fatal_error st)))
    as (st & w' & Hmain & H1 & H2 & H3 & H4 & H5).
  { unfold main_run. rewrite Hsetup. fold final_path. unfold main_try.
    rewrite Hprelude. unfold pipeline. fold final_path cracen_nb.
    destruct (time_now E (run_world r1)) as [t_cr wt] eqn:Htime.
    simpl in Hrun, Hjobs. rewrite Hrun. unfold time_now at 1. cbv zeta.
    subst failure.
    destruct (decide (code ≠ 0)) as [Hc|Hc].
    - apply Habort; [done | simpl; exact Hjobs].
    - destruct Hfail as [Hfail|Hfail]; [done|]. simpl w_fs. rewrite Hfail. simpl negb.
      cbv iota. apply Habort; [done | simpl; exact Hjobs]. }
  exists st, w'. split_and!; try done. unfold main. by rewrite Hmain.
Qed.



(** C7 on a directory where two notebooks share a stem: [.ipynb], whose
    run fails, and [.ipynb.ipynb], whose run succeeds.  Both are run, in
    this order, after the primary job; the status document has one entry for
    the two, and it says [ok]. *)
Theorem c7_shared_stem_loses_a_result :
  let E := Scenario.ext (Scenario.mkAnswers "abc123def456" None
             (λ n, if decide (n = ".ipynb") then 1 else 0) true 0 0) in
  let w := Scenario.world (Scenario.fs_with None
             (Some (Scenario.checkout ["CRACEN.ipynb"; ".ipynb"; ".ipynb.ipynb"])) []) in
  let out := main_run E w in
  out.1.1 = 0
  ∧ w_jobs out.2
      = [(pjoin Scenario.strategies ".ipynb.ipynb", 0);
         (pjoin Scenario.strategies ".ipynb", 1);
         (pjoin Scenario.strategies "CRACEN.ipynb", 0)]
  ∧ stem_of ".ipynb" = stem_of ".ipynb.ipynb"
  ∧ st_strategies <$> out.1.2 = Some {[ ".ipynb" := mkJobInfo true 1 None ]}.
Proof. vm_compute. by split_and!. Qed.

(** ** The statements on concrete runs *)

(** C1 fails on the code.  On one filesystem, a swap of an existing
    checkout ends with the new tree at the destination, but between its two
    renames nothing stands there: the destination shows neither the previous
    tree nor the new one.  With the temporary directory on another
    filesystem than the destination, the staged tree is not renamed but
    copied: the destination is made as an empty directory, then filled, and
    the staging directory is removed afterwards; the destination shows a
    directory that is neither the previous tree nor the new one. *)
Theorem c1_swap_is_not_atomic :
  let E := Scenario.ext (Scenario.mkAnswers "000000000000" (Some Scenario.new_tree)
             Scenario.all_ok true 1 0) in
  let E' := Scenario.on_other_device Scenario.tmp E in
  let w := Scenario.world (Scenario.fs_with None (Some Scenario.old_tree) []) in
  let run := update_strategies_clone_swap E "https://github.com/u/r.git" "main"
               Scenario.strategies "tok" w in
  let run' := update_strategies_clone_swap E' "https://github.com/u/r.git" "main"
                Scenario.strategies "tok" w in
  let staging := pjoin Scenario.tmp "orion_strategies_abc123def456_1700000000" in
  lookup_path Scenario.strategies (w_fs w) = Some Scenario.old_tree
  ∧ (ur_updated <$> (match run.1 with Val out => Some out | Exn _ => None end)
       = Some true
     ∧ lookup_path Scenario.strategies (w_fs run.2) = Some Scenario.new_tree
     ∧ (∃ s, s ∈ w_obs run.2
          ∧ step_op s = OpMove Scenario.strategies
                          (pjoin Scenario.home "STRATEGIES_backup_000000000000")
          ∧ lookup_path Scenario.strategies (step_after s) = None)
     ∧ ¬ only_old_or_new Scenario.strategies Scenario.old_tree Scenario.new_tree
           (w_obs run.2))
  ∧ (ur_updated <$> (match run'.1 with Val out => Some out | Exn _ => None end)
       = Some true
     ∧ lookup_path Scenario.strategies (w_fs run'.2) = Some Scenario.new_tree
     ∧ (∃ s, s ∈ w_obs run'.2
          ∧ step_op s = OpMkdir Scenario.strategies
          ∧ lookup_path Scenario.strategies (step_after s) = Some empty_dir)
     ∧ (∃ s, s ∈ w_obs run'.2 ∧ step_op s = OpCopy staging Scenario.strategies)
     ∧ Forall (λ s, step_op s ≠ OpMove staging Scenario.strategies) (w_obs run'.2)
     ∧ ¬ only_old_or_new Scenario.strategies Scenario.old_tree Scenario.new_tree
           (w_obs run'.2)).
Proof.
  intros E E' w run run' staging.
  assert (∀ (obs : list FsStep) (k : nat) (op : fsop) (seen : option node),
            (λ s, (step_op s, lookup_path Scenario.strategies (step_after s)))
              <$> obs !! k = Some (op, seen) →
            ∃ s, s ∈ obs ∧ step_op s = op
                 ∧ lookup_path Scenario.strategies (step_after s) = seen) as Hat.
  { intros obs k op seen H. destruct (obs !! k) as [s|] eqn:Hs; [|discriminate H].
    exists s. injection H as H1 H2. split; [by eapply list_elem_of_lookup_2 | done]. }
  assert (∀ (obs : list FsStep) (s : FsStep) (seen : option node),
            s ∈ obs → lookup_path Scenario.strategies (step_after s) = seen →
            seen ≠ Some Scenario.old_tree → seen ≠ Some Scenario.new_tree →
            ¬ only_old_or_new Scenario.strategies Scenario.old_tree Scenario.new_tree obs)
    as Hnot.
  { intros obs s seen Hin Hs H1 H2 H. destruct (H s Hin) as [Ho|Hn]; congruence. }
  destruct (Hat (w_obs run.2) 1%nat
              (OpMove Scenario.strategies
                 (pjoin Scenario.home "STRATEGIES_backup_000000000000")) None)
    as (s1 & Hin1 & Hop1 & Hs1); [vm_compute; reflexivity|].
  destruct (Hat (w_obs run'.2) 2%nat (OpMkdir Scenario.strategies) (Some empty_dir))
    as (s2 & Hin2 & Hop2 & Hs2); [vm_compute; reflexivity|].
  destruct (Hat (w_obs run'.2) 1%nat (OpCopy staging Scenario.strategies)
              (Some Scenario.new_tree))
    as (s3 & Hin3 & Hop3 & _); [vm_compute; reflexivity|].
  split_and!.
  - vm_compute. reflexivity.
  - vm_compute. reflexivity.
  - vm_compute. reflexivity.
  - eauto.
  - by apply (Hnot _ s1 None).
  - vm_compute. reflexivity.
  - vm_compute. reflexivity.
  - eauto.
  - eauto.
  - apply Forall_forall. intros s Hin Hop.
    assert (Forall (λ op, op ≠ OpMove staging Scenario.strategies)
              (step_op <$> w_obs run'.2)) as Hall.
    { vm_compute. repeat constructor; discriminate. }
    rewrite Forall_forall in Hall. apply (Hall (step_op s)); [|done].
    apply list_elem_of_fmap. eauto.
  - apply (Hnot _ s2 (Some empty_dir)); [done | done | | ]; vm_compute; discriminate.
Qed.

(** C6, as stated, fails: the primary job fails, the exit code is 1, but
    [status/latest.json] cannot be written (a directory stands there), and
    the failure is in no status file. *)
Lemma c6_failure_may_go_unrecorded :
  ¬ (∀ (E : Ext) (w w0 w2 : World) (home : path) (t0 : Z)
       (env : list (string * string)) (c : Ctx) (r1 : Run) (code : Z) (so se : string),
       main_setup E w = (Val (home, t0, env), w0) →
       main_prelude E home env
           (mkRun (initial_status E (pjoin (pjoin home "CRACEN") "final.parquet"))
              false w0)
         = (Val (inr c), r1) →
       run_notebook E (pjoin (pjoin home STRATEGIES_DIRNAME) CRACEN_NOTEBOOK) home
           (cx_env c) (time_now E (run_world r1)).2
         = (Val (code, so, se), w2) →
       code ≠ 0
       ∨ path_exists (pjoin (pjoin home "CRACEN") "final.parquet") (w_fs w2) = false →
       ∃ st w',
         main_run E w = (1, Some st, w')
         ∧ cr_ok (st_cracen st) = false
         ∧ persisted home st (w_fs w')).
Proof.
  intros H.
  set (E := Scenario.ext (Scenario.mkAnswers "abc123def456" None (λ _, 1) true 0 0)).
  set (w := Scenario.world (Scenario.fs_with None (Some Scenario.old_tree)
                              [("status", Dir {[ "latest.json" := empty_dir ]})])).
  pose (final_path := pjoin (pjoin Scenario.home "CRACEN") "final.parquet").
  pose (env := [("SIGNALS_DIR", path_str (pjoin Scenario.home SIGNALS_DIRNAME));
                ("FINAL_PARQUET_PATH", path_str final_path);
                ("ORION_HOME", path_str Scenario.home)]).
  pose (pre := main_prelude E Scenario.home env
                 (mkRun (initial_status E final_path) false (main_setup E w).2)).
  pose (c := match pre.1 with
             | Val (inr c) => c
             | _ => mkCtx (mkOpsConfig EmptyString EmptyString EmptyString EmptyString
                             EmptyString EmptyString true) EmptyString []
             end).
  destruct (H E w (main_setup E w).2
              (run_notebook E (pjoin Scenario.strategies CRACEN_NOTEBOOK) Scenario.home
                 (cx_env c) (time_now E (run_world pre.2)).2).2
              Scenario.home 1700000000 env c pre.2 1 EmptyString "boom")
    as (st & w' & Hrun & _ & Hjson & _).
  - apply pair_eq_fst. vm_compute. reflexivity.
  - apply pair_eq_fst. vm_compute. reflexivity.
  - apply pair_eq_fst. vm_compute. reflexivity.
  - left. discriminate.
  - assert (lookup_path (pjoin (pjoin Scenario.home STATUS_DIRNAME) "latest.json")
              (w_fs (main_run E w).2) = Some empty_dir) as Hdir
      by (vm_compute; reflexivity).
    rewrite Hrun in Hdir. cbn [snd] in Hdir. rewrite Hdir in Hjson. discriminate Hjson.
Qed.


Lemma c2_equal_revisions_witness :
  let E := Scenario.ext (Scenario.mkAnswers "abc123def456" (Some Scenario.new_tree)
             Scenario.all_ok true 1 0) in
  let w := Scenario.world (Scenario.fs_with None (Some Scenario.old_tree) []) in
  ∃ w' added,
    update_strategies_clone_swap E "https://github.com/u/r.git" "main"
      Scenario.strategies "tok" w
      = (Val (mkUpdateResult false (Some "abc123def456") None None), w')
    ∧ w_fs w' = w_fs w ∧ w_obs w' = w_obs w
    ∧ w_log w' = added ++ w_log w
    ∧ Forall (λ e, is_clone (le_cmd e) = false) added.
Proof.
  intros E w.
  destruct (c2_equal_revisions_no_update E "https://github.com/u/r.git" "main"
              Scenario.strategies w) as [H _].
  apply (H "tok" "abc123def456"
           (ls_remote_head_sha E "https://github.com/u/r.git" "main" "tok" w).2).
  - by vm_compute.
  - by vm_compute.
Defined.

Lemma c3_sanity_failure_witness :
  let E := Scenario.ext (Scenario.mkAnswers "000000000000" (Some Scenario.empty_clone)
             Scenario.all_ok true 1 0) in
  let w := Scenario.world (Scenario.fs_with None (Some Scenario.old_tree) []) in
  let tmp_dir := pjoin Scenario.tmp "orion_strategies_abc123def456_1700000000" in
  ∃ w' added,
    update_strategies_clone_swap E "https://github.com/u/r.git" "main"
      Scenario.strategies "tok" w
      = (Val (mkUpdateResult false (Some "abc123def456")
                (Some "No notebooks found in strategies repo") None), w')
    ∧ lookup_path tmp_dir (w_fs w') = None
    ∧ lookup_path Scenario.strategies (w_fs w') = lookup_path Scenario.strategies (w_fs w)
    ∧ trace w w' added ∧ Forall (untouched Scenario.strategies) added.
Proof.
  intros E w tmp_dir.
  destruct (c3_sanity_failure_leaves_destination E "https://github.com/u/r.git" "main"
              Scenario.strategies "tok" w
              (mkStaged "abc123def456" (Some "000000000000") tmp_dir)
              (sync_stage E "https://github.com/u/r.git" "main" Scenario.strategies
                 "tok" w).2)
    as (w' & added & Hup & Hleft & Hdst & Htr & Hall).
  - split; intros [k Hk]; discriminate Hk.
  - apply pair_eq_fst. vm_compute. reflexivity.
  - vm_compute. reflexivity.
  - exists w', added. split_and!; [exact Hup | | exact Hdst | exact Htr | exact Hall].
    cbn [sg_tmp_dir] in Hleft. rewrite Hleft. vm_compute. reflexivity.
Defined.


Lemma c9_backup_name_witness :
  let E := Scenario.ext (Scenario.mkAnswers "000000000000" (Some Scenario.new_tree)
             Scenario.all_ok true 1 0) in
  let w := Scenario.world (Scenario.fs_with None (Some Scenario.old_tree)
             [("STRATEGIES_backup_000000000000", empty_dir);
              ("STRATEGIES_backup_000000000000_1", empty_dir)]) in
  let out := update_strategies_clone_swap E "https://github.com/u/r.git" "main"
               Scenario.strategies "tok" w in
  ∃ bp tag' j before after added,
    "/srv/OriON/STRATEGIES_backup_000000000000_2" = path_str bp
    ∧ trace w out.2 added
    ∧ mkFsStep before (OpMove Scenario.strategies bp) after ∈ added
    ∧ bp = backup_candidate Scenario.strategies tag' j
    ∧ lookup_path bp before = None
    ∧ (pname bp ∉ listdir (parent Scenario.strategies) before)
    ∧ lookup_path bp after = lookup_path Scenario.strategies before
    ∧ lookup_path Scenario.strategies after = None.
Proof.
  intros E w out.
  destruct (c9_backup_name_is_free E "https://github.com/u/r.git" "main"
              Scenario.strategies "tok" w
              (mkUpdateResult true (Some "abc123def456") None
                 (Some "/srv/OriON/STRATEGIES_backup_000000000000_2"))
              out.2 "/srv/OriON/STRATEGIES_backup_000000000000_2")
    as (s & w1 & added & bp & tag & tag' & j & before & after & H);
    [apply pair_eq_fst; vm_compute; reflexivity | reflexivity |].
  destruct H as (_ & _ & Hb & Ht & Hin & _ & _ & _ & Hshape & Hfree & Hnew & _ & Hold & Hgone).
  exists bp, tag', j, before, after, added. by split_and!.
Defined.

Lemma c10_token_injection_witness :
  with_token_https " git@github.com:u/r.git " "T" = "https://T@github.com/u/r.git"
  ∧ with_token_https "ssh://host/u/r.git" "T" = "ssh://host/u/r.git"
  ∧ GitOps.with_token_https "git@github.com:u/r.git" (Some "T") = "git@github.com:u/r.git".
Proof.
  split_and!.
  - destruct (c10_token_injection " git@github.com:u/r.git " "T") as (_ & H & _).
    by apply (H "github.com/u/r.git").
  - destruct (c10_token_injection "ssh://host/u/r.git" "T") as (H & _).
    rewrite H; [done | by right].
  - destruct (c10_token_injection "git@github.com:u/r.git" "T") as (_ & _ & _ & _ & H & _).
    apply H. by right.
Defined.

Lemma c6_primary_failure_witness :
  let E := Scenario.ext (Scenario.mkAnswers "abc123def456" None (λ _, 1) true 0 0) in
  let w := Scenario.world (Scenario.fs_with None (Some Scenario.old_tree) []) in
  ∃ st w',
    main_run E w = (1, Some st, w')
    ∧ (main E w).1 = 1
    ∧ cr_ok (st_cracen st) = false
    ∧ cr_error (st_cracen st) = Some "boom"
    ∧ st_strategies st = ∅
    ∧ w_jobs w' = [(pjoin Scenario.strategies CRACEN_NOTEBOOK, 1)]
    ∧ persisted Scenario.home st (w_fs w').
Proof.
  intros E w.
  pose (final_path := pjoin (pjoin Scenario.home "CRACEN") "final.parquet").
  pose (env := [("SIGNALS_DIR", path_str (pjoin Scenario.home SIGNALS_DIRNAME));
                ("FINAL_PARQUET_PATH", path_str final_path);
                ("ORION_HOME", path_str Scenario.home)]).
  pose (pre := main_prelude E Scenario.home env
                 (mkRun (initial_status E final_path) false (main_setup E w).2)).
  pose (c := match pre.1 with
             | Val (inr c) => c
             | _ => mkCtx (mkOpsConfig EmptyString EmptyString EmptyString EmptyString
                             EmptyString EmptyString true) EmptyString []
             end).
  destruct (c6_primary_failure_aborts E w (main_setup E w).2
              (run_notebook E (pjoin Scenario.strategies CRACEN_NOTEBOOK) Scenario.home
                 (cx_env c) (time_now E (run_world pre.2)).2).2
              Scenario.home 1700000000 env c pre.2 1 EmptyString "boom")
    as (st & w' & Hrun & Hmain & Hok & Herr & _ & Hstrat & Hjobs & Hkept).
  - apply pair_eq_fst. vm_compute. reflexivity.
  - apply pair_eq_fst. vm_compute. reflexivity.
  - apply pair_eq_fst. vm_compute. reflexivity.
  - left. discriminate.
  - exists st, w'.
    split_and!; [exact Hrun | exact Hmain | exact Hok | | exact Hstrat | |].
    + rewrite Herr. vm_compute. reflexivity.
    + rewrite Hjobs. vm_compute. reflexivity.
    + destruct Hkept as [Hkept | [e He]]; [exact Hkept|].
      assert ((main_run E w).1.2 ≫= st_fatal_error = None) as Hnone
        by (vm_compute; reflexivity).
      rewrite Hrun in Hnone. simpl in Hnone. congruence.
Defined.

(** * Further properties of the code *)

(** ** Texts: job errors, the token, the remote revision *)

Lemma take_length n s : (String.length (Py.take n s) ≤ n)%nat.
Proof.
  revert s. induction n as [|n IH]; intros [|a s]; simpl; try lia.
  specialize (IH s). lia.
Qed.

(** The text recorded for a failed job is never empty and has at most 2000
    characters; it is the job's stripped error output when there is one,
    else its stripped output, else its exit code. *)
Theorem job_error_bounded (code : Z) (so se : string) :
  job_error code so se ≠ EmptyString
  ∧ (String.length (job_error code so se) ≤ 2000)%nat
  ∧ (Py.strip se ≠ EmptyString → job_error code so se = Py.take 2000 (Py.strip se))
  ∧ (Py.strip se = EmptyString → Py.strip so ≠ EmptyString →
     job_error code so se = Py.take 2000 (Py.strip so))
  ∧ (Py.strip se = EmptyString → Py.strip so = EmptyString →
     job_error code so se = Py.take 2000 ("exit " +:+ pretty code)).
Proof.
  split_and!.
  - apply job_error_nonempty.
  - apply take_length.
  - intros H. unfold job_error, Py.or. apply truthy_true in H. by rewrite H, H.
  - intros H1 H2. unfold job_error, Py.or. rewrite H1. simpl.
    apply truthy_true in H2. by rewrite H2.
  - intros H1 H2. unfold job_error, Py.or. by rewrite H1, H2.
Qed.

Lemma oor_first a b c :
  match first_truthy [a; b; c] with
  | Some raw => oor (oor a b) c = Some raw ∧ Py.truthy raw = true
  | None => Py.otruthy (oor (oor a b) c) = false
  end.
Proof.
  unfold first_truthy, oor.
  destruct a as [a|], b as [b|], c as [c|]; simpl;
    repeat (case_match; simpl in *; simplify_eq); try done.
Qed.

(** On a token file whose keys hold strings, both [read_github_token]
    functions return the stripped value of the first of the keys [token],
    [github_pat], [pat] that holds a non-empty string, and raise if there is
    none; a value of white space only is accepted and gives the empty
    token. *)
Theorem read_github_token_first_key (home : path) (w : World) (data : TokenJson) :
  lookup_path (pjoin (pjoin home "ops") "access_token.json") (w_fs w)
    = Some (File (TokenFile data)) →
  match first_truthy [tj_token data; tj_github_pat data; tj_pat data] with
  | Some raw =>
      raw ≠ EmptyString
      ∧ read_github_token home w = Val (Py.strip raw)
      ∧ GitOps.read_github_token home w = Val (Py.strip raw)
  | None =>
      (∃ e, read_github_token home w = Exn e)
      ∧ (∃ e, GitOps.read_github_token home w = Exn e)
  end.
Proof.
  intros H. unfold read_github_token, GitOps.read_github_token. rewrite H.
  pose proof (oor_first (tj_token data) (tj_github_pat data) (tj_pat data)) as Ho.
  destruct (first_truthy _) as [raw|].
  - destruct Ho as [-> Ht]. rewrite Ht. split_and!; [by apply truthy_true | done..].
  - destruct (oor _ _) as [t|]; simpl in Ho; [rewrite Ho|]; split; eauto.
Qed.

Lemma read_github_token_first_key_witness :
  let w := Scenario.world (Dir {[ "h" := Dir {[ "ops" := Dir {[ "access_token.json" :=
             File (TokenFile (mkTokenJson (Some EmptyString) None (Some " pat1 "))) ]} ]} ]}) in
  read_github_token ["h"] w = Val "pat1"
  ∧ GitOps.read_github_token ["h"] w = Val "pat1".
Proof.
  intros w.
  pose proof (read_github_token_first_key ["h"] w
                (mkTokenJson (Some EmptyString) None (Some " pat1 ")) eq_refl) as H.
  simpl in H. destruct H as (_ & H1 & H2). by split.
Defined.

Lemma lstrip_by_head f s a t : Py.lstrip_by f s = String a t → f a = false.
Proof.
  induction s as [|b s IH]; simpl; [done|].
  destruct (f b) eqn:Hb; [done|]. by intros [= <- <-].
Qed.

Lemma split_ws_go_rev_app t acc :
  (∀ cur, Py.split_ws_go cur acc ≠ []) →
  ∀ cur, Py.split_ws_go cur (String.rev_app t acc) ≠ [].
Proof.
  revert acc. induction t as [|b t IH]; intros acc Hacc cur; simpl; [done|].
  apply IH. intros cur'. simpl. destruct (Py.isspace b); [|done].
  intros [_ H]%app_eq_nil. by apply (Hacc None).
Qed.

(** A stripped text that is not empty has a first word. *)
Lemma split_ws_strip_nonempty s :
  Py.strip s ≠ EmptyString → Py.split_ws (Py.strip s) ≠ [].
Proof.
  unfold Py.strip, Py.strip_by, Py.rstrip_by, Py.split_ws.
  destruct (Py.lstrip_by Py.isspace (String.rev (Py.lstrip_by Py.isspace s)))
    as [|a t] eqn:Hu; [done|].
  intros _. apply lstrip_by_head in Hu. unfold String.rev. simpl.
  apply split_ws_go_rev_app. intros cur. simpl. rewrite Hu. by destruct cur.
Qed.

(** [ls_remote_head_sha] runs one command, [git ls-remote] on the branch's
    ref with the token in the URL, and touches nothing else.  It returns the
    first word of the trimmed output cut at 12 characters, which is never
    empty; it raises exactly when the command fails or prints nothing but
    white space, each with its own message. *)
Theorem ls_remote_head_sha_result (E : Ext) (repo branch token : string) (w : World) :
  let out := ls_remote_head_sha E repo branch token w in
  ∃ e, out.2 = log_cmd e w
    ∧ le_cmd e = GitLsRemote (with_token_https repo token) ("refs/heads/" +:+ branch)
    ∧ le_cwd e = ext_tempdir E
    ∧ match out.1 with
      | Val rev =>
          le_code e = 0 ∧ rev ≠ EmptyString ∧ (String.length rev ≤ 12)%nat
          ∧ ∃ first rest, Py.split_ws (Py.strip (le_stdout e)) = first :: rest
                          ∧ rev = Py.take 12 first
      | Exn msg =>
          (le_code e ≠ 0
           ∧ msg = "git ls-remote failed: "
                   +:+ Py.or (Py.strip (le_stderr e)) (Py.strip (le_stdout e)))
          ∨ (le_code e = 0 ∧ Py.strip (le_stdout e) = EmptyString
             ∧ msg = "git ls-remote returned empty output")
      end.
Proof.
  intros out. subst out. unfold ls_remote_head_sha.
  pose proof (run_cmd_query E (GitLsRemote (with_token_https repo token)
    ("refs/heads/" +:+ branch)) (ext_tempdir E) [] w eq_refl) as Hq.
  destruct (run_cmd E _ _ _ w) as [[[code so] se] w0]. simpl in Hq. subst w0.
  exists (mkLogEntry (GitLsRemote (with_token_https repo token)
            ("refs/heads/" +:+ branch)) (ext_tempdir E) (code, so, se)).
  split_and!; [|reflexivity|reflexivity|].
  - by repeat case_match.
  - unfold le_code, le_stdout, le_stderr. simpl.
    destruct (decide (code ≠ 0)) as [Hc|Hc]; simpl; [by left|].
    assert (code = 0) as -> by lia.
    destruct (Py.truthy (Py.strip so)) eqn:Ht; simpl.
    + apply truthy_true in Ht. pose proof (split_ws_strip_nonempty so Ht) as Hw.
      assert (Forall (λ x, x ≠ EmptyString) (Py.split_ws (Py.strip so))) as Hall
        by (by apply split_ws_go_nonempty).
      destruct (Py.split_ws (Py.strip so)) as [|first rest]; [done|].
      cbn -[Py.take String.length]. apply Forall_cons in Hall as [Hfirst _].
      split_and!; [done|by destruct first| |by eauto].
      exact (take_length 12 first).
    + apply truthy_false in Ht. by right.
Qed.

(** ** The secrets of the Datum API *)

(** [resolve_datum_secrets] returns both files of one directory, the level
    above the home directory first: it never pairs the configuration of one
    directory with the credentials of the other, and it raises when neither
    directory has both. *)
Theorem resolve_datum_secrets_one_directory (repo_root orion_home : path) (w : World) :
  let both (d : path) :=
    path_exists (pjoin d "datum_api_config.json") (w_fs w)
    && path_exists (pjoin d "datum_api_credentials.json") (w_fs w) in
  match resolve_datum_secrets repo_root orion_home w with
  | Val (cfg, creds) =>
      ∃ d, (d = repo_root ∨ d = orion_home ∧ both repo_root = false)
           ∧ both d = true
           ∧ cfg = pjoin d "datum_api_config.json"
           ∧ creds = pjoin d "datum_api_credentials.json"
  | Exn _ => both repo_root = false ∧ both orion_home = false
  end.
Proof.
  intros both. unfold resolve_datum_secrets. fold (both repo_root) (both orion_home).
  destruct (both repo_root) eqn:H1;
    [exists repo_root; split_and!; [by left | done..]|].
  destruct (both orion_home) eqn:H2;
    [exists orion_home; split_and!; [right; by split | done..] | by split].
Qed.

(** ** The previous tree after a swap *)

(** A move onto a free path changes nothing apart from its source and its
    target. *)
Lemma move_onto_free_other (E : Ext) src dst w r w' p :
  lookup_path dst (w_fs w) = None →
  move E src dst w = (r, w') →
  apart src p → apart dst p →
  lookup_path p (w_fs w') = lookup_path p (w_fs w).
Proof.
  intros Hdst Hmove [Hs1 Hs2] [Hd1 Hd2]. revert Hmove. unfold move.
  destruct (lookup_path src (w_fs w)) as [n|] eqn:Hsrc; [|by intros [= <- <-]].
  case_bool_decide; [by intros [= <- <-]|].
  cbv zeta. rewrite Hdst.
  rewrite (bool_decide_eq_false_2 (dst ≠ dst)) by (by intros ?).
  rewrite andb_false_l.
  case_bool_decide as Hpre; [by intros [= <- <-]|].
  assert (∀ fs0 fs1 v, insert_path dst v fs0 = Some fs1 →
            lookup_path p fs1 = lookup_path p fs0) as Hins.
  { intros fs0 fs1 v Hi. by rewrite (lookup_insert_path_ne _ p _ _ _ Hi). }
  destruct (can_rename E src dst (w_fs w)).
  - destruct (insert_path dst n (remove_path src (w_fs w))) as [fs'|] eqn:Hi.
    + destruct n; rewrite ?Hdst; intros [= <- <-]; simpl;
        rewrite (Hins _ _ _ Hi); by apply lookup_remove_path_ne.
    + by destruct n; rewrite ?Hdst; intros [= <- <-].
  - destruct n as [c|m]; rewrite ?Hdst.
    + destruct (lookup_path (parent dst) (w_fs w)) as [[c'|m']|];
        [by intros [= <- <-]| |by intros [= <- <-]].
      destruct (insert_path dst (File c) (w_fs w)) as [fs1|] eqn:Hi;
        [|by intros [= <- <-]].
      intros [= <- <-]. simpl. rewrite lookup_remove_path_ne by done. by eapply Hins.
    + destruct (insert_path dst empty_dir (w_fs w)) as [fs1|] eqn:Hi1;
        [|by intros [= <- <-]].
      destruct (insert_path dst (Dir m) fs1) as [fs2|] eqn:Hi2;
        [|intros [= <- <-]; simpl; by eapply Hins].
      cbv zeta. unfold rmtree_strict. simpl.
      assert (lookup_path p fs2 = lookup_path p (w_fs w)) as H2
        by (rewrite (Hins _ _ _ Hi2); by eapply Hins).
      destruct (lookup_path src fs2) as [[c|m0]|]; [by intros [= <- <-]| |by intros [= <- <-]].
      destruct (ext_rmtree_left E _ src (Dir m0)) as [rest|]; intros [= <- <-]; simpl.
      * destruct (insert_path src rest fs2) as [fs3|] eqn:Hi3; simpl; [|done].
        by rewrite (lookup_insert_path_ne _ p _ _ _ Hi3).
      * by rewrite lookup_remove_path_ne.
Qed.

(** After an update that replaced an existing destination, the temporary
    directory lying apart from it: the path returned as [backup] is a
    sibling of the destination that was free before the call and now holds
    the complete previous tree; the destination holds the tree that was
    staged. *)
Theorem swap_keeps_previous_tree (E : Ext) (repo branch : string) (dst : path)
    (token : string) (w w' : World) (res : UpdateResult) (old : node) :
  apart (ext_tempdir E) dst →
  lookup_path dst (w_fs w) = Some old →
  update_strategies_clone_swap E repo branch dst token w = (Val res, w') →
  ur_updated res = true →
  ∃ bp s w1,
    ur_backup res = Some (path_str bp)
    ∧ parent bp = parent dst
    ∧ lookup_path bp (w_fs w) = None
    ∧ lookup_path bp (w_fs w') = Some old
    ∧ sync_stage E repo branch dst token w = (Val (inr s), w1)
    ∧ is_Some (lookup_path (sg_tmp_dir s) (w_fs w1))
    ∧ lookup_path dst (w_fs w') = lookup_path (sg_tmp_dir s) (w_fs w1).
Proof.
  intros Hap0 Hold Hupd Hres. unfold update_strategies_clone_swap in Hupd.
  destruct (sync_stage E repo branch dst token w) as [[[out|s]|e] w1] eqn:Hstage;
    [| |done].
  { injection Hupd as <- <-. unfold sync_stage in Hstage.
    repeat case_match; simplify_eq; done. }
  destruct (sync_stage_trace E _ _ _ _ _ _ _ Hstage) as (a1 & name & Ht1 & Ha1 & Htmp).
  specialize (Htmp s eq_refl).
  assert (apart (sg_tmp_dir s) dst) as Hap by (rewrite Htmp; by apply apart_child).
  assert (∀ p, apart (sg_tmp_dir s) p →
            lookup_path p (w_fs w1) = lookup_path p (w_fs w)) as Hframe.
  { intros p Hp. destruct Ht1 as [_ Hc]. eapply chain_untouched; [exact Hc|].
    eapply Forall_impl; [exact Ha1|]. intros st Hst. apply Hst. by rewrite <- Htmp. }
  assert (dst ≠ []) as Hne.
  { intros ->. destruct Hap as [_ Hp]. apply Hp, prefix_nil. }
  unfold sync_swap in Hupd.
  destruct (found_ipynb (sg_tmp_dir s) w1) as [|nb nbs] eqn:Hfound.
  { by injection Hupd as <- <-. }
  assert (is_Some (lookup_path (sg_tmp_dir s) (w_fs w1))) as [n Hn].
  { unfold found_ipynb in Hfound. by destruct (lookup_path (sg_tmp_dir s) (w_fs w1)). }
  destruct (move_aside E dst (sg_local_sha s) w1) as [ra w2] eqn:Haside.
  destruct (move_aside_spec E _ _ _ _ _ Haside)
    as [(Hex & -> & ->) | [(_ & e & -> & _) | (bp & n0 & fs' & tag & j & H)]]; [| done |].
  { apply path_exists_false in Hex. rewrite (Hframe dst Hap) in Hex. congruence. }
  destruct H as (-> & _ & Hfs & Hd & _ & Hreach & Hfree & Hins & Hbp & Hgone).
  rewrite (Hframe dst Hap), Hold in Hd. injection Hd as <-.
  assert (∃ nm, bp = pjoin (parent dst) nm) as [nm Hnm].
  { apply reached_shape in Hreach as [[_ ->] | (tag' & _ & _ & ->)];
      unfold backup_candidate; eauto. }
  assert (apart (sg_tmp_dir s) bp) as Hapb.
  { split.
    - rewrite Hnm. intros [Heq | Hpre]%prefix_snoc_inv.
      + rewrite Hnm in Hfree. unfold pjoin in Hfree. rewrite <- Heq in Hfree. congruence.
      + destruct Hap as [Hap _]. apply Hap.
        rewrite (path_split dst Hne). by apply prefix_app_r.
    - intros Hpre. by rewrite (lookup_path_prefix_None _ _ _ Hpre Hfree) in Hn. }
  assert (apart dst bp) as Hdb.
  { assert (nm ≠ pname dst) as Hname.
    { intros ->. rewrite Hnm, <- (path_split dst Hne) in Hfree.
      rewrite (Hframe dst Hap) in Hfree. congruence. }
    rewrite Hnm, (path_split dst Hne). rewrite parent_pjoin.
    apply siblings_apart. congruence. }
  assert (lookup_path (sg_tmp_dir s) (w_fs w2) = Some n) as Hn2.
  { rewrite Hfs, (lookup_insert_path_ne _ (sg_tmp_dir s) _ _ _ Hins).
    - rewrite lookup_remove_path_ne; [done | apply Hap..].
    - apply Hapb.
    - apply Hapb. }
  destruct (move E (sg_tmp_dir s) dst w2) as [r2 w3] eqn:Hmv; [].
  rewrite <- Hfs in Hgone, Hbp.
  pose proof (move_onto_free_other E _ _ _ _ _ bp Hgone Hmv Hapb Hdb) as Hkeep.
  destruct (move_onto_free E _ _ _ _ _ Hgone Hmv)
    as [(e & -> & ->) | (n' & a2 & _ & Hsrc & _ & Hdst & _)]; [done|].
  destruct r2 as [[]|e]; [|done]. injection Hupd as <- <-.
  exists bp, s, w1. simpl.
  split_and!; [done| |by rewrite <- (Hframe bp Hapb)|congruence|done|done|congruence].
  by rewrite Hnm, parent_pjoin.
Qed.

Lemma swap_keeps_previous_tree_witness :
  let E := Scenario.ext (Scenario.mkAnswers "000000000000" (Some Scenario.new_tree)
             Scenario.all_ok true 1 0) in
  let w := Scenario.world (Scenario.fs_with None (Some Scenario.old_tree) []) in
  let out := update_strategies_clone_swap E "https://github.com/u/r.git" "main"
               Scenario.strategies "tok" w in
  ∃ bp, parent bp = Scenario.home
    ∧ lookup_path bp (w_fs w) = None
    ∧ lookup_path bp (w_fs out.2) = Some Scenario.old_tree.
Proof.
  intros E w out.
  assert (∃ res, out.1 = Val res ∧ ur_updated res = true) as (res & H1 & H2)
    by (vm_compute; eexists; split; reflexivity).
  destruct (swap_keeps_previous_tree E "https://github.com/u/r.git" "main"
              Scenario.strategies "tok" w out.2 res Scenario.old_tree)
    as (bp & s & w1 & _ & Hp & Hfree & Hb & _).
  - split; intros [k Hk]; discriminate Hk.
  - vm_compute. reflexivity.
  - rewrite <- H1. apply surjective_pairing.
  - exact H2.
  - exists bp. split_and!; [exact Hp | exact Hfree | exact Hb].
Defined.

Section GitOpsSwap.

Variable E : Ext.

(** Removing an entry of a directory, or letting a command write it,
    leaves the directory a directory. *)
Lemma rmtree_keeps_dir q name w m :
  lookup_path q (w_fs w) = Some (Dir m) →
  ∃ m', lookup_path q (w_fs (rmtree E (pjoin q name) w)) = Some (Dir m').
Proof.
  intros Hq. unfold rmtree.
  destruct (lookup_path (pjoin q name) (w_fs w)) as [[c|m0]|]; eauto.
  destruct (ext_rmtree_left E _ _ _) as [rest|]; simpl.
  - destruct (insert_path (pjoin q name) rest (w_fs w)) as [fs'|] eqn:Hi; simpl; eauto.
    by eapply (insert_path_keeps_dir q [name]).
  - by eapply (remove_path_keeps_dir q [name]).
Qed.

Lemma run_cmd_keeps_dir q name c cwd env w m :
  cmd_target c cwd = Some (pjoin q name) →
  lookup_path q (w_fs w) = Some (Dir m) →
  ∃ m', lookup_path q (w_fs (run_cmd E c cwd env w).2) = Some (Dir m').
Proof.
  intros Ht Hq. unfold run_cmd.
  destruct (ext_proc E (length (w_log w)) c cwd env (w_fs w)) as [out [n|]];
    rewrite Ht; simpl.
  - destruct (insert_path (pjoin q name) n (w_fs w)) as [fs'|] eqn:Hi; simpl; eauto.
    by eapply (insert_path_keeps_dir q [name]).
  - by eapply (remove_path_keeps_dir q [name]).
Qed.

End GitOpsSwap.

(** [update_dir_clone_swap] of [git_ops.py] keeps the previous tree too:
    after an update that replaced an existing destination, the path
    returned as [backup] is a sibling of the destination that was free
    before the call and now holds the complete previous tree.  The temporary
    directory is an existing directory apart from the destination. *)
Theorem update_dir_clone_swap_keeps_previous_tree (E : Ext) (repo branch : string)
    (dst : path) (token : option string) (w w' : World) (res : UpdateResult)
    (old : node) (m : gmap string node) :
  apart (ext_tempdir E) dst →
  lookup_path (ext_tempdir E) (w_fs w) = Some (Dir m) →
  lookup_path dst (w_fs w) = Some old →
  GitOps.update_dir_clone_swap E repo branch dst token w = (Val res, w') →
  ur_updated res = true →
  ∃ bp,
    ur_backup res = Some (path_str bp)
    ∧ parent bp = parent dst
    ∧ lookup_path bp (w_fs w) = None
    ∧ lookup_path bp (w_fs w') = Some old
    ∧ is_Some (lookup_path dst (w_fs w')).
Proof.
  intros Hap0 Htd Hold Hupd Hres. unfold GitOps.update_dir_clone_swap in Hupd.
  destruct (GitOps.ls_remote_head_sha E repo branch token w) as [[rev|e] w0] eqn:Hls;
    [|done].
  destruct (GitOps_ls_remote_frame E _ _ _ _ _ _ Hls) as (e0 & -> & _).
  assert (w_fs (resolve_local_sha E dst (log_cmd e0 w)).2 = w_fs w) as Hfs2.
  { by destruct (resolve_local_sha_frame E dst (log_cmd e0 w)) as [-> | (e' & -> & _)]. }
  destruct (resolve_local_sha E dst (log_cmd e0 w)) as [loc w2]. simpl in Hfs2.
  case_bool_decide; [by injection Hupd as <- <-|].
  unfold time_now in Hupd.
  set (name := "orion_swap_" +:+ pname dst +:+ "_" +:+ rev +:+ "_"
                 +:+ pretty (ext_time E (w_ticks w2))) in *.
  set (tmp := pjoin (ext_tempdir E) name) in *.
  assert (apart tmp dst) as Hap by (by apply apart_child).
  destruct (GitOps_clone_depth1_trace E repo branch tmp token (tick w2))
    as (a & [_ Hc] & Ha).
  assert (∃ m', lookup_path (ext_tempdir E)
                  (w_fs (GitOps.clone_depth1 E repo branch tmp token (tick w2)).2)
                = Some (Dir m')) as [m' Htd4].
  { unfold GitOps.clone_depth1.
    set (w3 := if path_exists tmp (w_fs (tick w2)) then rmtree E tmp (tick w2)
               else tick w2).
    assert (∃ m3, lookup_path (ext_tempdir E) (w_fs w3) = Some (Dir m3)) as [m3 H3].
    { subst w3. destruct (path_exists tmp (w_fs (tick w2))).
      - apply (rmtree_keeps_dir E _ name _ m). simpl. by rewrite Hfs2.
      - exists m. simpl. by rewrite Hfs2. }
    destruct (run_cmd_keeps_dir E (ext_tempdir E) name
                (GitClone branch (GitOps.with_token_https repo token) tmp)
                (ext_tempdir E) [] w3 m3 eq_refl H3) as [m4 H4].
    destruct (run_cmd E _ _ _ w3) as [[[code so] se] w4]. simpl in H4.
    exists m4. by case_decide. }
  destruct (GitOps.clone_depth1 E repo branch tmp token (tick w2)) as [[[]|e] w4];
    [|done].
  simpl in Hc, Htd4.
  assert (∀ p, apart tmp p → lookup_path p (w_fs w4) = lookup_path p (w_fs w)) as Hframe.
  { intros p Hp. rewrite <- Hfs2. eapply chain_untouched; [exact Hc|].
    eapply Forall_impl; [exact Ha|]. intros st Hst. by apply Hst. }
  assert (dst ≠ []) as Hne.
  { intros ->. destruct Hap as [_ Hp]. apply Hp, prefix_nil. }
  destruct (move_aside E dst loc w4) as [ra w5] eqn:Haside.
  destruct (move_aside_spec E _ _ _ _ _ Haside)
    as [(Hex & -> & ->) | [(_ & e & -> & _) | (bp & n0 & fs' & tag & j & H')]]; [| done |].
  { apply path_exists_false in Hex. rewrite (Hframe dst Hap) in Hex. congruence. }
  destruct H' as (-> & _ & Hfs & Hd & _ & Hreach & Hfree & Hins & Hbp & Hgone).
  rewrite (Hframe dst Hap), Hold in Hd. injection Hd as <-.
  assert (∃ nm, bp = pjoin (parent dst) nm) as [nm Hnm].
  { apply reached_shape in Hreach as [[_ ->] | (tag' & _ & _ & ->)];
      unfold backup_candidate; eauto. }
  assert (apart tmp bp) as Hapb.
  { split.
    - rewrite Hnm. intros [Heq | Hpre]%prefix_snoc_inv.
      + destruct Hap0 as [Hap0 _]. apply Hap0. rewrite (path_split dst Hne).
        unfold tmp, pjoin in Heq. apply app_inj_tail in Heq as [-> _].
        by apply prefix_app_r.
      + destruct Hap as [Hap _]. apply Hap.
        rewrite (path_split dst Hne). by apply prefix_app_r.
    - intros [Heq | Hpre]%prefix_snoc_inv.
      + destruct Hap0 as [Hap0 _]. apply Hap0. rewrite (path_split dst Hne).
        rewrite Hnm in Heq. unfold pjoin in Heq. apply app_inj_tail in Heq as [<- _].
        by apply prefix_app_r.
      + by rewrite (lookup_path_prefix_None _ _ _ Hpre Hfree) in Htd4. }
  assert (apart dst bp) as Hdb.
  { assert (nm ≠ pname dst) as Hname.
    { intros ->. rewrite Hnm, <- (path_split dst Hne) in Hfree.
      rewrite (Hframe dst Hap) in Hfree. congruence. }
    rewrite Hnm, (path_split dst Hne). rewrite parent_pjoin.
    apply siblings_apart. congruence. }
  destruct (move E tmp dst w5) as [r2 w6] eqn:Hmv.
  rewrite <- Hfs in Hgone, Hbp.
  pose proof (move_onto_free_other E _ _ _ _ _ bp Hgone Hmv Hapb Hdb) as Hkeep.
  destruct (move_onto_free E _ _ _ _ _ Hgone Hmv)
    as [(e & -> & ->) | (n' & a2 & _ & Hsrc & _ & Hdst & _)]; [done|].
  destruct r2 as [[]|e]; [|done]. injection Hupd as <- <-.
  exists bp. simpl.
  split_and!; [done| |by rewrite <- (Hframe bp Hapb)|congruence|by rewrite Hdst].
  by rewrite Hnm, parent_pjoin.
Qed.

Lemma update_dir_clone_swap_witness :
  let E := Scenario.ext (Scenario.mkAnswers "000000000000" (Some Scenario.empty_clone)
             Scenario.all_ok true 1 0) in
  let w := Scenario.world (Scenario.fs_with None (Some Scenario.old_tree) []) in
  let out := GitOps.update_dir_clone_swap E "https://github.com/u/r.git" "main"
               Scenario.strategies (Some "tok") w in
  (∃ bp, parent bp = Scenario.home
     ∧ lookup_path bp (w_fs out.2) = Some Scenario.old_tree)
  ∧ lookup_path Scenario.strategies (w_fs out.2) = Some Scenario.empty_clone.
Proof.
  intros E w out.
  assert (∃ res, out.1 = Val res ∧ ur_updated res = true) as (res & H1 & H2)
    by (vm_compute; eexists; split; reflexivity).
  split; [|vm_compute; reflexivity].
  destruct (update_dir_clone_swap_keeps_previous_tree E "https://github.com/u/r.git"
              "main" Scenario.strategies (Some "tok") w out.2 res Scenario.old_tree ∅)
    as (bp & _ & Hp & _ & Hb & _).
  - split; intros [k Hk]; discriminate Hk.
  - vm_compute. reflexivity.
  - vm_compute. reflexivity.
  - rewrite <- H1. apply surjective_pairing.
  - exact H2.
  - exists bp. split; [exact Hp | exact Hb].
Defined.

(** ** The exit code *)

Section Exit.

Variable E : Ext.

Lemma abort_primary_code home err r code r' :
  abort_primary E home err r = (Val code, r') → code = 1.
Proof.
  unfold abort_primary.
  destruct (utc_now_iso E (run_world r)) as [ts w].
  destruct (write_status _ _ _) as [[[]|e] w1]; by intros [= <- <-].
Qed.

Lemma phase_config_fatal home r :
  st_fatal_error (run_status (phase_config home r).2) = st_fatal_error (run_status r).
Proof.
  unfold phase_config.
  destruct (load_ops_config home (run_world r)); [|done].
  by destruct (read_github_token home (run_world r)).
Qed.

Lemma phase_sync_fatal home cfg token r :
  st_fatal_error (run_status (phase_sync E home cfg token r))
    = st_fatal_error (run_status r).
Proof.
  unfold phase_sync.
  destruct (oc_use_clone_swap cfg); [|done].
  by destruct (update_strategies_clone_swap _ _ _ _ _ _) as [[upd|ex] w].
Qed.

Lemma phase_secrets_fatal home env r :
  st_fatal_error (run_status (phase_secrets home env r).2)
    = st_fatal_error (run_status r).
Proof.
  unfold phase_secrets.
  destruct (resolve_datum_secrets _ _ _) as [[cfg_path creds_path]|e]; [|done].
  destruct (_ && _).
  - destruct (stage_datum_secrets _ _ _) as [[[dst_cfg dst_creds]|e] w]; done.
  - done.
Qed.

(** What the steps before the primary job return: the code 1 of an early
    exit, or the context of the pipeline, the document still without a
    fatal error if it had none. *)
Lemma main_prelude_outcome home env r out r' :
  main_prelude E home env r = (Val out, r') →
  match out with
  | inl code => code = 1
  | inr _ => st_fatal_error (run_status r') = st_fatal_error (run_status r)
  end.
Proof.
  unfold main_prelude. intros H.
  pose proof (phase_config_fatal home r) as H1.
  destruct (phase_config home r) as [[[cfg token]|e] r1]; simpl in H1; [|done].
  pose proof (phase_sync_fatal home cfg token r1) as H2.
  pose proof (phase_secrets_fatal home env (phase_sync E home cfg token r1)) as H3.
  destruct (phase_secrets home env _) as [[env'|e] r2]; simpl in H3; [|done].
  destruct (negb _).
  - destruct (abort_primary _ _ _ _) as [[code|e] r3] eqn:Hab; [|done].
    injection H as <- <-. by eapply abort_primary_code.
  - injection H as <- <-. congruence.
Qed.

Lemma dependents_loop_fatal home env nbs r :
  st_fatal_error (run_status (dependents_loop E home env nbs r).2)
    = st_fatal_error (run_status r).
Proof.
  revert r. induction nbs as [|nb rest IH]; intros r; [done|].
  rewrite dependents_loop_cons. case_decide; [apply IH|].
  unfold time_now. cbv zeta.
  destruct (run_notebook E _ home env (tick (run_world r))) as [[[[code so] se]|e] w1];
    [|done].
  by rewrite IH.
Qed.

(** Steps 5 and 6 return 0 only with a document that says the primary job
    succeeded and the publication met no error, and only after that
    document was written to both status files. *)
Lemma publish_phase_zero home c t0 r code r' :
  publish_phase E home c t0 r = (Val code, r') →
  (code = 0 ∨ code = 1)
  ∧ st_fatal_error (run_status r') = st_fatal_error (run_status r)
  ∧ persisted home (run_status r') (w_fs (run_world r'))
  ∧ (code = 0 →
     cr_ok (st_cracen (run_status r')) = true
     ∧ Py.otruthy (gh_results_error (st_github (run_status r'))) = false).
Proof.
  unfold publish_phase.
  destruct (utc_now_iso E (run_world r)) as [ts w0].
  destruct (time_now E w0) as [t w1].
  destruct (write_status home _ w1) as [[[]|e] w2]; [|done].
  destruct (push_results_to_repo E _ _ _ _ _ _ w2) as [[res_push|e] w3]; [|done].
  match goal with |- context [write_status home ?st w3] =>
    pose proof (write_status_persisted home st w3) as Hp;
    destruct (write_status home st w3) as [[[]|e] w4]; [|done] end.
  specialize (Hp eq_refl). simpl in Hp.
  destruct (cr_ok _) eqn:Hok; simpl.
  - destruct (Py.otruthy (pr_error res_push)) eqn:Herr; intros [= <- <-]; simpl;
      split_and!; try done; eauto.
  - intros [= <- <-]. simpl. split_and!; try done; eauto.
Qed.

Lemma pipeline_zero home c t0 r code r' :
  pipeline E home c t0 r = (Val code, r') →
  (code = 0 ∨ code = 1)
  ∧ (code = 0 →
     st_fatal_error (run_status r') = st_fatal_error (run_status r)
     ∧ persisted home (run_status r') (w_fs (run_world r'))
     ∧ cr_ok (st_cracen (run_status r')) = true
     ∧ Py.otruthy (gh_results_error (st_github (run_status r'))) = false).
Proof.
  unfold pipeline.
  destruct (time_now E (run_world r)) as [t_cr w0].
  destruct (run_notebook E _ home (cx_env c) w0) as [[[[code0 so] se]|e] w1]; [|done].
  destruct (time_now E w1) as [t1 w2].
  case_decide;
    [intros Hab; apply abort_primary_code in Hab as ->; split; [by right|done]|].
  destruct (negb _);
    [intros Hab; apply abort_primary_code in Hab as ->; split; [by right|done]|].
  match goal with |- context [dependents_loop E home ?env ?nbs ?r0] =>
    pose proof (dependents_loop_fatal home env nbs r0) as Hf;
    destruct (dependents_loop E home env nbs r0) as [[[]|e] r1]; [|done] end.
  simpl in Hf. intros Hpub.
  apply publish_phase_zero in Hpub as (Hc & Hf2 & Hp & Hz).
  split; [done|]. intros Hcode. destruct (Hz Hcode). split_and!; try done. congruence.
Qed.

End Exit.

(** The exit code of a run is 0 or 1.  It is 0 only if the status document
    says that the primary job succeeded, that publishing met no error, and
    carries no fatal error; both status files then hold that document.  (A
    run whose results did not change publishes nothing and still ends with
    0.) *)
Theorem exit_code_zero_means_success (E : Ext) (w : World) :
  let out := main_run E w in
  (out.1.1 = 0 ∨ out.1.1 = 1)
  ∧ (out.1.1 = 0 →
     ∃ home st,
       find_orion_home E w = Val home
       ∧ out.1.2 = Some st
       ∧ cr_ok (st_cracen st) = true
       ∧ Py.otruthy (gh_results_error (st_github st)) = false
       ∧ st_fatal_error st = None
       ∧ persisted home st (w_fs out.2)).
Proof.
  intros out. subst out. unfold main_run, main_setup, time_now.
  change (find_orion_home E (tick w)) with (find_orion_home E w).
  destruct (find_orion_home E w) as [home|e]; [|split; [by right|done]].
  destruct (mkdir_p (pjoin home SIGNALS_DIRNAME) (tick w)) as [[[]|e] w1];
    [|split; [by right|done]].
  destruct (mkdir_p (pjoin home STATUS_DIRNAME) w1) as [[[]|e] w2];
    [|split; [by right|done]].
  match goal with |- context [main_try E home ?env ?t0 ?r0] =>
    set (env0 := env); set (t := t0); set (r := r0) end.
  assert (∀ e r1, (main_except E home e r1).1 = Val 1 ∨ ∃ x, (main_except E home e r1).1 = Exn x)
    as Hexc.
  { intros e r1. unfold main_except. destruct (utc_now_iso E (run_world r1)) as [ts w3].
    destruct (write_status _ _ _) as [[[]|x] w4]; eauto. }
  unfold main_try.
  destruct (main_prelude E home env0 r) as [[[code|c]|e] r1] eqn:Hpre.
  - apply main_prelude_outcome in Hpre as ->. split; [by right|done].
  - pose proof (main_prelude_outcome E _ _ _ _ _ Hpre) as Hf. simpl in Hf.
    destruct (pipeline E home c t r1) as [[code|e] r2] eqn:Hpipe.
    + apply pipeline_zero in Hpipe as [Hc Hz]. simpl. split; [done|].
      intros Hcode. destruct (Hz Hcode) as (Hf2 & Hp & Hok & Herr).
      exists home, (run_status r2). split_and!; try done; [congruence|].
      destruct Hp as [Hj Hm]. destruct (run_staged r2); [|by split].
      split; by rewrite cleanup_keeps_status.
    + specialize (Hexc e r2). destruct (main_except E home e r2) as [res r3].
      simpl in *. destruct Hexc as [-> | [x ->]]; (split; [by right|done]).
  - specialize (Hexc e r1). destruct (main_except E home e r1) as [res r3].
    simpl in *. destruct Hexc as [-> | [x ->]]; (split; [by right|done]).
Qed.

Lemma exit_code_zero_witness :
  let E := Scenario.ext (Scenario.mkAnswers "abc123def456" (Some Scenario.new_tree)
             Scenario.all_ok true 0 0) in
  let w := Scenario.world (Scenario.fs_with None (Some Scenario.old_tree) []) in
  (main E w).1 = 0
  ∧ ∃ st, (main_run E w).1.2 = Some st
      ∧ cr_ok (st_cracen st) = true
      ∧ gh_results_pushed (st_github st) = Some false
      ∧ persisted Scenario.home st (w_fs (main_run E w).2).
Proof.
  intros E w.
  assert ((main_run E w).1.1 = 0) as H0 by (vm_compute; reflexivity).
  assert ((main_run E w).1.2 ≫= (λ st, gh_results_pushed (st_github st)) = Some false)
    as Hpushed by (vm_compute; reflexivity).
  split; [unfold main; by destruct (main_run E w) as [[??]?]|].
  destruct (exit_code_zero_means_success E w) as [_ H].
  destruct (H H0) as (home & st & Hhome & Hst & Hok & _ & _ & Hp).
  exists st. rewrite Hst in Hpushed. split_and!; [done..|].
  assert (home = Scenario.home) as <-; [|done].
  assert (find_orion_home E w = Val Scenario.home) as Hh by (vm_compute; reflexivity).
  congruence.
Defined.
